(** * Render unit lifecycle manager (RenderManagerService)

    A shallow embedding of
    [packages/engine-render/src/render-manager/render-manager.service.ts]
    and the properties its specification states about it.

    The service is a stateful TypeScript class working on heap objects
    (engines, scenes, render units, dependency arrays) that are compared by
    reference.  The embedding therefore keeps an explicit object store: every
    object is a natural number naming a cell of the store, [===] on objects
    is equality of these numbers, and a field that holds an object holds its
    number.  Methods are written in a state monad that also records every
    call the service makes on a collaborator, together with the state of the
    service at the moment of the call. *)

From stdpp Require Import base list strings.


(** ** Object references *)

Abbreviation Engine := nat (only parsing).
Abbreviation SceneRef := nat (only parsing).
Abbreviation Component := nat (only parsing).
Abbreviation UnitRef := nat (only parsing).
Abbreviation ArrayRef := nat (only parsing).

(** A [Dependency] is a module descriptor, an opaque object the manager only
    stores, compares by identity and forwards. *)
Abbreviation Dependency := nat (only parsing).
Abbreviation DependencyIdentifier := nat (only parsing).

(** Modelled from the spec: the enumeration [UniverInstanceType] is declared
    in [@univerjs/core], which is not under src/; the manager names only
    [UNIVER_SLIDE].  The spec speaks of sheets, documents and slide decks and
    of types added by extensions. *)
Inductive UniverInstanceType :=
| UNIVER_DOC
| UNIVER_SHEET
| UNIVER_SLIDE
| UNIVER_EXTENSION (tag : nat).

Abbreviation UnitType := UniverInstanceType (only parsing).

#[global] Instance UniverInstanceType_eq_dec : EqDecision UniverInstanceType.
Proof. solve_decision. Defined.

(** ** JavaScript [Map]

    A [Map] iterates in insertion order; [set] on a present key replaces the
    value in place, on an absent key it appends; [delete] leaves no entry
    for the key. *)
Section JsMap.
Context {K V : Type} `{EqDecision K}.

Fixpoint Map_get (k : K) (m : list (K * V)) : option V :=
  match m with
  | [] => None
  | (k', v) :: m' => if decide (k' = k) then Some v else Map_get k m'
  end.

Definition Map_has (k : K) (m : list (K * V)) : bool :=
  match Map_get k m with Some _ => true | None => false end.

Fixpoint Map_set (k : K) (v : V) (m : list (K * V)) : list (K * V) :=
  match m with
  | [] => [(k, v)]
  | (k', v') :: m' =>
      if decide (k' = k) then (k, v) :: m' else (k', v') :: Map_set k v m'
  end.

Fixpoint Map_delete (k : K) (m : list (K * V)) : list (K * V) :=
  match m with
  | [] => []
  | (k', v') :: m' =>
      if decide (k' = k) then Map_delete k m' else (k', v') :: Map_delete k m'
  end.
End JsMap.

(** ** The data model *)

(** Modelled from the spec: the document model the registry hands out.  The
    class [RenderUnit] (render-unit.ts) is not under src/; the manager passes
    it [{ unit, engine, scene, isMainScene }] only, so the unit id, the type
    tag and the components of the render unit come from the document model
    ("populated by the document's own component system"). *)
Record UnitModel := {
  model_unitId : string;
  model_type : UnitType;
  model_components : list (string * Component);
  model_mainComponent : option Component
}.

(** What an [IRender] object is at run time: an instance of the class
    [RenderUnit], which carries the modules injected so far, or any other
    object (the thumbnail stub of [_createRender], or an object built by a
    caller of [addRender]) with its own [with] and possibly a [dispose]. *)
Inductive RenderKind :=
| RenderUnitInstance (injected : list Dependency)
| ObjectLiteral (hasDispose : bool)
                (with_fn : DependencyIdentifier → option Dependency).

Record IRender := {
  unitId : string;
  type : UnitType;
  engine : Engine;
  scene : SceneRef;
  mainComponent : option Component;
  components : list (string * Component);
  isMainScene : bool;
  isThumbNail : bool;   (* an absent field reads as false *)
  kind : RenderKind
}.

(** [renderer instanceof RenderUnit] *)
Definition instanceof_RenderUnit (u : IRender) : bool :=
  match kind u with RenderUnitInstance _ => true | ObjectLiteral _ _ => false end.

(** [isDisposable(thing)]: [typeof thing.dispose === 'function'].  The class
    [RenderUnit] extends [Disposable]. *)
Definition isDisposable (u : IRender) : bool :=
  match kind u with RenderUnitInstance _ => true | ObjectLiteral d _ => d end.

(** The modules injected into a unit: its capability set. *)
Definition injected_of (u : IRender) : list Dependency :=
  match kind u with RenderUnitInstance inj => inj | ObjectLiteral _ _ => [] end.

(** Modelled from the spec: [unit.with(id)]; [RenderUnit.with] is not under
    src/.  For a [RenderUnit] the lookup resolves a capability exactly when
    a module for it has been injected; any other object answers with its own
    function. *)
Definition with_ (u : IRender) (id : DependencyIdentifier) : option Dependency :=
  match kind u with
  | RenderUnitInstance inj => if decide (id ∈ inj) then Some id else None
  | ObjectLiteral _ f => f id
  end.

(** Modelled from the spec: [RenderUnit.addRenderDependencies] is not under
    src/; injection is additive, in order, duplicates injected independently. *)
Definition addRenderDependencies (deps : list Dependency) (u : IRender) : IRender :=
  match kind u with
  | RenderUnitInstance inj =>
      {| unitId := unitId u; type := type u; engine := engine u;
         scene := scene u; mainComponent := mainComponent u;
         components := components u; isMainScene := isMainScene u;
         isThumbNail := isThumbNail u;
         kind := RenderUnitInstance (inj ++ deps) |}
  | ObjectLiteral _ _ => u
  end.

Record SceneObj := {
  scene_name : string;
  scene_engine : Engine;
  scene_width : nat;
  scene_height : nat
}.

(** The document registry ([IUniverInstanceService]), an external
    collaborator the manager only reads. *)
Record InstanceService := {
  getUnit : string → option UnitModel;
  getUnitType : string → UnitType;
  getCurrentUnitForType : UnitType → option UnitModel
}.

(** The four rxjs subjects of the service. *)
Inductive Stream :=
| S_currentRender
| S_createRender
| S_renderCreated
| S_renderDisposed.

#[global] Instance Stream_eq_dec : EqDecision Stream.
Proof. solve_decision. Defined.

Inductive Payload :=
| PString (s : string)
| PRender (r : UnitRef).

(** The object store and the fields of the service. *)
Record State := {
  heap_engines : nat;                       (* Engine objects allocated so far *)
  heap_scenes : list SceneObj;
  heap_renders : list IRender;
  heap_arrays : list (list Dependency);
  stopped : list Stream;                    (* subjects that have completed *)
  _univerInstanceService : InstanceService;
  _disposed : bool;
  _defaultEngine : option Engine;
  _currentUnitId : string;
  _renderMap : list (string * UnitRef);
  _renderDependencies : list (UnitType * ArrayRef)
}.

Definition with_heap_engines (x : nat) (s : State) : State :=
  {| heap_engines := x; heap_scenes := heap_scenes s;
     heap_renders := heap_renders s; heap_arrays := heap_arrays s;
     stopped := stopped s;
     _univerInstanceService := _univerInstanceService s;
     _disposed := _disposed s; _defaultEngine := _defaultEngine s;
     _currentUnitId := _currentUnitId s; _renderMap := _renderMap s;
     _renderDependencies := _renderDependencies s |}.

Definition with_heap_scenes (x : list SceneObj) (s : State) : State :=
  {| heap_engines := heap_engines s; heap_scenes := x;
     heap_renders := heap_renders s; heap_arrays := heap_arrays s;
     stopped := stopped s;
     _univerInstanceService := _univerInstanceService s;
     _disposed := _disposed s; _defaultEngine := _defaultEngine s;
     _currentUnitId := _currentUnitId s; _renderMap := _renderMap s;
     _renderDependencies := _renderDependencies s |}.

Definition with_heap_renders (x : list IRender) (s : State) : State :=
  {| heap_engines := heap_engines s; heap_scenes := heap_scenes s;
     heap_renders := x; heap_arrays := heap_arrays s;
     stopped := stopped s;
     _univerInstanceService := _univerInstanceService s;
     _disposed := _disposed s; _defaultEngine := _defaultEngine s;
     _currentUnitId := _currentUnitId s; _renderMap := _renderMap s;
     _renderDependencies := _renderDependencies s |}.

Definition with_heap_arrays (x : list (list Dependency)) (s : State) : State :=
  {| heap_engines := heap_engines s; heap_scenes := heap_scenes s;
     heap_renders := heap_renders s; heap_arrays := x;
     stopped := stopped s;
     _univerInstanceService := _univerInstanceService s;
     _disposed := _disposed s; _defaultEngine := _defaultEngine s;
     _currentUnitId := _currentUnitId s; _renderMap := _renderMap s;
     _renderDependencies := _renderDependencies s |}.

Definition with_stopped (x : list Stream) (s : State) : State :=
  {| heap_engines := heap_engines s; heap_scenes := heap_scenes s;
     heap_renders := heap_renders s; heap_arrays := heap_arrays s;
     stopped := x;
     _univerInstanceService := _univerInstanceService s;
     _disposed := _disposed s; _defaultEngine := _defaultEngine s;
     _currentUnitId := _currentUnitId s; _renderMap := _renderMap s;
     _renderDependencies := _renderDependencies s |}.

Definition with_univerInstanceService (x : InstanceService) (s : State) : State :=
  {| heap_engines := heap_engines s; heap_scenes := heap_scenes s;
     heap_renders := heap_renders s; heap_arrays := heap_arrays s;
     stopped := stopped s;
     _univerInstanceService := x;
     _disposed := _disposed s; _defaultEngine := _defaultEngine s;
     _currentUnitId := _currentUnitId s; _renderMap := _renderMap s;
     _renderDependencies := _renderDependencies s |}.

Definition with_disposed (x : bool) (s : State) : State :=
  {| heap_engines := heap_engines s; heap_scenes := heap_scenes s;
     heap_renders := heap_renders s; heap_arrays := heap_arrays s;
     stopped := stopped s;
     _univerInstanceService := _univerInstanceService s;
     _disposed := x; _defaultEngine := _defaultEngine s;
     _currentUnitId := _currentUnitId s; _renderMap := _renderMap s;
     _renderDependencies := _renderDependencies s |}.

Definition with_defaultEngine (x : option Engine) (s : State) : State :=
  {| heap_engines := heap_engines s; heap_scenes := heap_scenes s;
     heap_renders := heap_renders s; heap_arrays := heap_arrays s;
     stopped := stopped s;
     _univerInstanceService := _univerInstanceService s;
     _disposed := _disposed s; _defaultEngine := x;
     _currentUnitId := _currentUnitId s; _renderMap := _renderMap s;
     _renderDependencies := _renderDependencies s |}.

Definition with_currentUnitId (x : string) (s : State) : State :=
  {| heap_engines := heap_engines s; heap_scenes := heap_scenes s;
     heap_renders := heap_renders s; heap_arrays := heap_arrays s;
     stopped := stopped s;
     _univerInstanceService := _univerInstanceService s;
     _disposed := _disposed s; _defaultEngine := _defaultEngine s;
     _currentUnitId := x; _renderMap := _renderMap s;
     _renderDependencies := _renderDependencies s |}.

Definition with_renderMap (x : list (string * UnitRef)) (s : State) : State :=
  {| heap_engines := heap_engines s; heap_scenes := heap_scenes s;
     heap_renders := heap_renders s; heap_arrays := heap_arrays s;
     stopped := stopped s;
     _univerInstanceService := _univerInstanceService s;
     _disposed := _disposed s; _defaultEngine := _defaultEngine s;
     _currentUnitId := _currentUnitId s; _renderMap := x;
     _renderDependencies := _renderDependencies s |}.

Definition with_renderDependencies (x : list (UnitType * ArrayRef)) (s : State) : State :=
  {| heap_engines := heap_engines s; heap_scenes := heap_scenes s;
     heap_renders := heap_renders s; heap_arrays := heap_arrays s;
     stopped := stopped s;
     _univerInstanceService := _univerInstanceService s;
     _disposed := _disposed s; _defaultEngine := _defaultEngine s;
     _currentUnitId := _currentUnitId s; _renderMap := _renderMap s;
     _renderDependencies := x |}.

(** ** Calls on collaborators *)

Inductive Event :=
| EComponentDispose (c : Component)          (* component.dispose() *)
| ESceneDispose (sc : SceneRef)              (* scene.dispose() *)
| ERenderDispose (r : UnitRef)               (* item.dispose() *)
| EEngineDispose (e : Engine)                (* engine.dispose() *)
| ENext (st : Stream) (p : Payload)          (* subject.next(p) *)
| EComplete (st : Stream)                    (* subject.complete() *)
| ENewEngine                                 (* new Engine() *)
| ENewScene (name : string) (e : Engine)     (* new Scene(name, e, size) *)
| EGetUnit (id : string)
| EGetUnitType (id : string)
| ECreateInstance (m : UnitModel)            (* injector.createInstance(RenderUnit, ..) *)
| EAddRenderDependencies (r : UnitRef) (deps : list Dependency).

(** An observation: the call, and the state of the service when it is made.
    Code that runs inside the call (a subscriber, a constructor, a [dispose])
    sees this state. *)
Definition Obs : Type := Event * State.

Definition events (tr : list Obs) : list Event := map fst tr.

(** ** The monad of methods *)

Definition M (A : Type) : Type := State → A * State * list Obs.

Definition ret {A} (a : A) : M A := λ s, (a, s, []).

Definition bind {A B} (m : M A) (k : A → M B) : M B :=
  λ s, let '(a, s1, t1) := m s in
       let '(b, s2, t2) := k a s1 in
       (b, s2, t1 ++ t2).

Notation "x <<- c1 ;; c2" := (bind c1 (λ x, c2))
  (at level 200, c1 at level 99, c2 at level 200, right associativity,
   format "'[v' x  <<-  c1  ;;  '/' c2 ']'").

Definition gets {A} (f : State → A) : M A := λ s, (f s, s, []).
Definition modify (f : State → State) : M unit := λ s, (tt, f s, []).
Definition call (e : Event) : M unit := λ s, (tt, s, [(e, s)]).

Fixpoint forEach {A} (f : A → M unit) (l : list A) : M unit :=
  match l with
  | [] => ret tt
  | x :: l' => _ <<- f x ;; forEach f l'
  end.

Definition when (b : bool) (m : M unit) : M unit := if b then m else ret tt.

(** ** Collaborators *)

(** [new Engine()]: the next free cell of the engine store. *)
Definition new_Engine : M Engine :=
  _ <<- call ENewEngine ;;
  e <<- gets heap_engines ;;
  _ <<- modify (λ s, with_heap_engines (S e) s) ;;
  ret e.

(** [new Scene(name, engine, { width, height })] *)
Definition new_Scene (name : string) (e : Engine) (w h : nat) : M SceneRef :=
  _ <<- call (ENewScene name e) ;;
  sc <<- gets (λ s, length (heap_scenes s)) ;;
  _ <<- modify (λ s, with_heap_scenes
                       (heap_scenes s ++
                        [{| scene_name := name; scene_engine := e;
                            scene_width := w; scene_height := h |}]) s) ;;
  ret sc.

(** Allocation of an [IRender] object. *)
Definition new_IRender (u : IRender) : M UnitRef :=
  r <<- gets (λ s, length (heap_renders s)) ;;
  _ <<- modify (λ s, with_heap_renders (heap_renders s ++ [u]) s) ;;
  ret r.

(** Allocation of an array, [[]]. *)
Definition new_Array (l : list Dependency) : M ArrayRef :=
  a <<- gets (λ s, length (heap_arrays s)) ;;
  _ <<- modify (λ s, with_heap_arrays (heap_arrays s ++ [l]) s) ;;
  ret a.

(** [array.push(...items)] *)
Definition Array_push (a : ArrayRef) (items : list Dependency) : M unit :=
  modify (λ s, with_heap_arrays (alter (λ l, l ++ items) a (heap_arrays s)) s).

(** Modelled from the spec: [remove] of [@univerjs/core] is not under src/;
    it takes one occurrence of the item, the first, out of the array and
    leaves an array without the item alone. *)
Fixpoint remove (dep : Dependency) (arr : list Dependency) : list Dependency :=
  match arr with
  | [] => []
  | x :: arr' => if decide (x = dep) then arr' else x :: remove dep arr'
  end.

Definition Array_remove (a : ArrayRef) (dep : Dependency) : M unit :=
  modify (λ s, with_heap_arrays (alter (remove dep) a (heap_arrays s)) s).

(** Modelled from the spec: [subject.next(p)] and [subject.complete()] of
    the rxjs subjects.  A subject that has completed accepts no further
    emission; the call is made all the same, and [delivered] below tells
    whether subscribers saw it. *)
Definition Subject_next (st : Stream) (p : Payload) : M unit :=
  call (ENext st p).

Definition isStopped (st : Stream) (s : State) : bool :=
  bool_decide (st ∈ stopped s).

Definition Subject_complete (st : Stream) : M unit :=
  _ <<- call (EComplete st) ;;
  modify (λ s, if isStopped st s then s else with_stopped (st :: stopped s) s).

(** The emissions of a trace that reach the subscribers of stream [st]. *)
Definition delivered (st : Stream) (tr : list Obs) : list Payload :=
  flat_map (λ o : Obs,
    match o.1 with
    | ENext st' p =>
        if decide (st' = st) then (if isStopped st o.2 then [] else [p]) else []
    | _ => []
    end) tr.

(** Modelled from the spec: [super.dispose()] of the base class
    [Disposable], which is not under src/.  Teardown is idempotent; the base
    class keeps the flag. *)
Definition Disposable_dispose : M unit :=
  modify (with_disposed true).

(** Reading a field of an object through its reference.  A reference held
    by a JavaScript value never dangles; the [None] case below stands for a
    number that names no cell and does not arise in a well-formed store. *)
Definition deref (r : UnitRef) : M (option IRender) :=
  gets (λ s, heap_renders s !! r).

(** [RenderUnit.addRenderDependencies(deps)] on the object [r]. *)
Definition RenderUnit_addRenderDependencies (r : UnitRef) (deps : list Dependency) : M unit :=
  _ <<- call (EAddRenderDependencies r deps) ;;
  modify (λ s, with_heap_renders
                 (alter (addRenderDependencies deps) r (heap_renders s)) s).

(** Modelled from the spec: the constructor of [RenderUnit], called through
    [injector.createInstance(RenderUnit, { unit, engine, scene, isMainScene })],
    is not under src/. *)
Definition createInstance_RenderUnit
    (unit : UnitModel) (e : Engine) (sc : SceneRef) (main : bool) : M UnitRef :=
  _ <<- call (ECreateInstance unit) ;;
  new_IRender {| unitId := model_unitId unit; type := model_type unit;
                 engine := e; scene := sc;
                 mainComponent := model_mainComponent unit;
                 components := model_components unit;
                 isMainScene := main; isThumbNail := false;
                 kind := RenderUnitInstance [] |}.

(** ** RenderManagerService *)

Definition DEFAULT_SCENE_SIZE : nat * nat := (1500, 1000).
Definition SCENE_NAMESPACE : string := "_UNIVER_SCENE_".

(** The value [toDisposable] returns: the closure over the array
    [dependencies] and the descriptors to take out of it. *)
Record IDisposable := {
  captured_dependencies : ArrayRef;
  captured_deps : list Dependency
}.

Definition getRenderById (unitId : string) : M (option UnitRef) :=
  gets (λ s, Map_get unitId (_renderMap s)).

Definition has (unitId : string) : M bool :=
  gets (λ s, Map_has unitId (_renderMap s)).

Definition getCurrent : M (option UnitRef) :=
  gets (λ s, Map_get (_currentUnitId s) (_renderMap s)).

Definition _disposeItem (item : option UnitRef) (shouldDestroyEngine : bool) : M unit :=
  match item with
  | None => ret tt
  | Some r =>
      o <<- deref r ;;
      match o with
      | None => ret tt
      | Some u =>
          (* mainComponent is one of the components, not disposed again *)
          _ <<- forEach (λ kv : string * Component, call (EComponentDispose kv.2))
                        (components u) ;;
          _ <<- call (ESceneDispose (scene u)) ;;
          _ <<- when (isDisposable u) (call (ERenderDispose r)) ;;
          _ <<- when shouldDestroyEngine (call (EEngineDispose (engine u))) ;;
          Subject_next S_renderDisposed (PString (unitId u))
      end
  end.

Definition dispose : M unit :=
  _ <<- Disposable_dispose ;;
  m <<- gets _renderMap ;;
  _ <<- forEach (λ kv : string * UnitRef, _disposeItem (Some kv.2) true) m ;;
  _ <<- modify (with_renderDependencies []) ;;
  _ <<- modify (with_renderMap []) ;;
  _ <<- Subject_complete S_currentRender ;;
  _ <<- Subject_complete S_renderCreated ;;
  Subject_complete S_renderDisposed.

Definition _tryAddRenderDependencies (renderer : UnitRef) (deps : list Dependency) : M unit :=
  o <<- deref renderer ;;
  match o with
  | Some u =>
      when (instanceof_RenderUnit u) (RenderUnit_addRenderDependencies renderer deps)
  | None => ret tt
  end.

(** [const renderType = render.type] *)
Definition renderType (render : IRender) : UnitType := type render.

(** The loop [for (const [_, render] of this._renderMap)] of both
    registration methods. *)
Definition injectIntoMatching (type : UnitType) (deps : list Dependency) : M unit :=
  m <<- gets _renderMap ;;
  forEach (λ kv : string * UnitRef,
             o <<- deref kv.2 ;;
             match o with
             | Some render =>
                 when (bool_decide (renderType render = type))
                      (_tryAddRenderDependencies kv.2 deps)
             | None => ret tt
             end) m.

(** [toDisposable(() => deps.forEach((dep) => remove(dependencies, dep)))] *)
Definition toDisposable (dependencies : ArrayRef) (deps : list Dependency) : IDisposable :=
  {| captured_dependencies := dependencies; captured_deps := deps |}.

(** Invoking the handle runs the closure. *)
Definition IDisposable_dispose (h : IDisposable) : M unit :=
  forEach (λ dep, Array_remove (captured_dependencies h) dep) (captured_deps h).

(** The handle the unreachable branch of [get(type)!] would yield. *)
Definition toDisposable_NONE : IDisposable :=
  {| captured_dependencies := 0; captured_deps := [] |}.

(** The first statement of both registration methods:
    [if (!this._renderDependencies.has(type)) this._renderDependencies.set(type, [])] *)
Definition ensureDependencies (type : UnitType) : M unit :=
  present <<- gets (λ s, Map_has type (_renderDependencies s)) ;;
  if present then ret tt
  else
    a <<- new_Array [] ;;
    modify (λ s, with_renderDependencies (Map_set type a (_renderDependencies s)) s).

Definition registerRenderModules (type : UnitType) (deps : list Dependency) : M IDisposable :=
  _ <<- ensureDependencies type ;;
  o <<- gets (λ s, Map_get type (_renderDependencies s)) ;;
  match o with
  | Some dependencies =>
      _ <<- Array_push dependencies deps ;;
      _ <<- injectIntoMatching type deps ;;
      ret (toDisposable dependencies deps)
  | None => ret toDisposable_NONE
  end.

Definition registerRenderModule (type : UnitType) (ctor : Dependency) : M IDisposable :=
  _ <<- ensureDependencies type ;;
  o <<- gets (λ s, Map_get type (_renderDependencies s)) ;;
  match o with
  | Some dependencies =>
      _ <<- Array_push dependencies [ctor] ;;
      _ <<- injectIntoMatching type [ctor] ;;
      ret (toDisposable dependencies [ctor])
  | None => ret toDisposable_NONE
  end.

(** [Array.from(this._renderDependencies.get(type) ?? [])]: a copy. *)
Definition _getRenderControllersForType (type : UnitType) : M (list Dependency) :=
  gets (λ s, match Map_get type (_renderDependencies s) with
             | Some a => default [] (heap_arrays s !! a)
             | None => []
             end).

Definition create (unitId : string) : M unit :=
  Subject_next S_createRender (PString unitId).

Definition _addRenderUnit (unitId : string) (item : UnitRef) : M unit :=
  modify (λ s, with_renderMap (Map_set unitId item (_renderMap s)) s).

Definition addRender (unitId : string) (item : UnitRef) : M unit :=
  _addRenderUnit unitId item.

(** [const existEngine = existItem.engine] *)
Definition existEngine (existItem : IRender) : Engine := engine existItem.

Definition _createRender (unitId : string) (engine : Engine) (isMainScene : bool) : M UnitRef :=
  existItem <<- getRenderById unitId ;;
  shouldDestroyEngine <<-
    match existItem with
    | Some r =>
        o <<- deref r ;;
        match o with
        | Some item => ret (negb (bool_decide (existEngine item = engine)))
        | None => ret true
        end
    | None => ret true
    end ;;
  _ <<- _disposeItem existItem shouldDestroyEngine ;;
  scene <<- new_Scene (SCENE_NAMESPACE +:+ unitId) engine
                      DEFAULT_SCENE_SIZE.1 DEFAULT_SCENE_SIZE.2 ;;
  _ <<- call (EGetUnit unitId) ;;
  unit <<- gets (λ s, getUnit (_univerInstanceService s) unitId) ;;
  renderUnit <<-
    match unit with
    | Some unit =>
        _ <<- call (EGetUnitType unitId) ;;
        type <<- gets (λ s, getUnitType (_univerInstanceService s) unitId) ;;
        ctors <<- _getRenderControllersForType type ;;
        renderUnit <<- createInstance_RenderUnit unit engine scene isMainScene ;;
        _ <<- _tryAddRenderDependencies renderUnit ctors ;;
        ret renderUnit
    | None =>
        (* For slide pages *)
        new_IRender {| isThumbNail := true;
                       type := UNIVER_SLIDE;
                       unitId := unitId;
                       engine := engine;
                       scene := scene;
                       mainComponent := None;
                       components := [];
                       isMainScene := isMainScene;
                       kind := ObjectLiteral false (λ _dependency, None) |}
    end ;;
  _ <<- _addRenderUnit unitId renderUnit ;;
  ret renderUnit.

Definition createRender (unitId : string) : M UnitRef :=
  e <<- new_Engine ;;
  renderer <<- _createRender unitId e true ;;
  _ <<- Subject_next S_renderCreated (PRender renderer) ;;
  ret renderer.

Definition removeRender (unitId : string) : M unit :=
  item <<- gets (λ s, Map_get unitId (_renderMap s)) ;;
  _ <<- match item with
        | Some r => _disposeItem (Some r) true
        | None => ret tt
        end ;;
  modify (λ s, with_renderMap (Map_delete unitId (_renderMap s)) s).

Definition setCurrent (unitId : string) : M unit :=
  _ <<- modify (with_currentUnitId unitId) ;;
  Subject_next S_currentRender (PString unitId).

(** [getRenderAll] returns the [Map] object held in the field [_renderMap]
    itself, not a copy of it.  The service creates that object once and never
    assigns the field again, so the reference to it is the constant below,
    and reading through the reference yields what the object holds at the
    time of reading. *)
Inductive MapRef := renderMap_object.

Definition Map_entries (m : MapRef) (s : State) : list (string * UnitRef) :=
  match m with renderMap_object => _renderMap s end.

Definition getRenderAll : M MapRef := ret renderMap_object.

(** [[...this.getRenderAll().values()][0]] *)
Definition getFirst : M (option UnitRef) :=
  m <<- getRenderAll ;;
  gets (λ s, head (Map_entries m s).*2).

Definition getAllRenderersOfType (type : UnitType) : M (list UnitRef) :=
  gets (λ s,
    flat_map (λ kv : string * UnitRef,
                match heap_renders s !! kv.2 with
                | Some render =>
                    if bool_decide (renderType render = type) then [kv.2] else []
                | None => []
                end) (_renderMap s)).

Definition getCurrentTypeOfRenderer (type : UnitType) : M (option UnitRef) :=
  current <<- gets (λ s, getCurrentUnitForType (_univerInstanceService s) type) ;;
  match current with
  | None => ret None
  | Some current => getRenderById (model_unitId current)
  end.

Definition withCurrentTypeOfUnit (type : UnitType) (id : DependencyIdentifier)
  : M (option Dependency) :=
  current <<- gets (λ s, getCurrentUnitForType (_univerInstanceService s) type) ;;
  match current with
  | None => ret None
  | Some current =>
      r <<- getRenderById (model_unitId current) ;;
      match r with
      | None => ret None
      | Some r =>
          o <<- deref r ;;
          ret (match o with Some u => with_ u id | None => None end)
      end
  end.

Definition defaultEngine : M Engine :=
  o <<- gets _defaultEngine ;;
  match o with
  | Some e => ret e
  | None =>
      e <<- new_Engine ;;
      _ <<- modify (with_defaultEngine (Some e)) ;;
      ret e
  end.

(** ** Runs of the service *)

(** A freshly constructed service over a document registry. *)
Definition init (svc : InstanceService) : State :=
  {| heap_engines := 0; heap_scenes := []; heap_renders := [];
     heap_arrays := []; stopped := [];
     _univerInstanceService := svc; _disposed := false;
     _defaultEngine := None; _currentUnitId := "";
     _renderMap := []; _renderDependencies := [] |}.

(** The public operations, and what the rest of the application can do to
    the store between them: build an [IRender] object or an engine of its
    own, and change the document registry. *)
Inductive Op :=
| OCreateRender (unitId : string)
| OAddRender (unitId : string) (item : UnitRef)
| ORemoveRender (unitId : string)
| OSetCurrent (unitId : string)
| OCreate (unitId : string)
| ORegisterRenderModules (type : UnitType) (deps : list Dependency)
| ORegisterRenderModule (type : UnitType) (ctor : Dependency)
| OHandleDispose (h : IDisposable)
| ODefaultEngine
| ODispose
| OEnvNewIRender (u : IRender)
| OEnvNewEngine
| OEnvSetService (svc : InstanceService).

Definition exec_op (o : Op) : M unit :=
  match o with
  | OCreateRender unitId => _ <<- createRender unitId ;; ret tt
  | OAddRender unitId item => addRender unitId item
  | ORemoveRender unitId => removeRender unitId
  | OSetCurrent unitId => setCurrent unitId
  | OCreate unitId => create unitId
  | ORegisterRenderModules type deps => _ <<- registerRenderModules type deps ;; ret tt
  | ORegisterRenderModule type ctor => _ <<- registerRenderModule type ctor ;; ret tt
  | OHandleDispose h => IDisposable_dispose h
  | ODefaultEngine => _ <<- defaultEngine ;; ret tt
  | ODispose => dispose
  | OEnvNewIRender u => _ <<- new_IRender u ;; ret tt
  | OEnvNewEngine => _ <<- new_Engine ;; ret tt
  | OEnvSetService svc => modify (with_univerInstanceService svc)
  end.

Definition exec (ops : list Op) : M unit := forEach exec_op ops.

(** Result, final state and trace of a method run from [s]. *)
Definition result {A} (m : M A) (s : State) : A := (m s).1.1.
Definition final {A} (m : M A) (s : State) : State := (m s).1.2.
Definition trace {A} (m : M A) (s : State) : list Obs := (m s).2.

(** ** Reading traces *)

(** The calls of the disposal protocol on the unit [u] stored at [r], in the
    order [_disposeItem] makes them. *)
Definition disposal_protocol (r : UnitRef) (u : IRender) (shouldDestroyEngine : bool)
  : list Event :=
  map (λ kv : string * Component, EComponentDispose kv.2) (components u)
  ++ [ESceneDispose (scene u)]
  ++ (if isDisposable u then [ERenderDispose r] else [])
  ++ (if shouldDestroyEngine then [EEngineDispose (engine u)] else [])
  ++ [ENext S_renderDisposed (PString (unitId u))].

Definition disposed_components (es : list Event) : list Component :=
  flat_map (λ e, match e with EComponentDispose c => [c] | _ => [] end) es.

Definition disposed_scenes (es : list Event) : list SceneRef :=
  flat_map (λ e, match e with ESceneDispose sc => [sc] | _ => [] end) es.

Definition disposed_renders (es : list Event) : list UnitRef :=
  flat_map (λ e, match e with ERenderDispose r => [r] | _ => [] end) es.

Definition disposed_engines (es : list Event) : list Engine :=
  flat_map (λ e, match e with EEngineDispose e => [e] | _ => [] end) es.

(** The payloads handed to [next] of stream [st]. *)
Definition emitted (st : Stream) (es : list Event) : list Payload :=
  flat_map (λ e, match e with
                 | ENext st' p => if decide (st' = st) then [p] else []
                 | _ => []
                 end) es.

(** The calls that construct: none of them disposes or publishes. *)
Definition is_construction (e : Event) : bool :=
  match e with
  | ENewEngine | ENewScene _ _ | EGetUnit _ | EGetUnitType _
  | ECreateInstance _ | EAddRenderDependencies _ _ => true
  | _ => false
  end.

(** The calls [_createRender] makes after the disposal of the old unit. *)
Definition construction_calls (unitId : string) (eng : Engine) (s : State) : list Event :=
  ENewScene (SCENE_NAMESPACE +:+ unitId) eng
  :: EGetUnit unitId
  :: match getUnit (_univerInstanceService s) unitId with
     | Some unit =>
         [EGetUnitType unitId; ECreateInstance unit;
          EAddRenderDependencies (length (heap_renders s))
            (result (_getRenderControllersForType
                       (getUnitType (_univerInstanceService s) unitId)) s)]
     | None => []
     end.

(** ** What [_createRender] computes, in closed form *)

(** The decision [shouldDestroyEngine] of [_createRender]. *)
Definition shouldDestroy (unitId : string) (eng : Engine) (s : State) : bool :=
  match Map_get unitId (_renderMap s) with
  | Some r => match heap_renders s !! r with
              | Some item => negb (bool_decide (existEngine item = eng))
              | None => true
              end
  | None => true
  end.

(** The calls of [_disposeItem(existItem, shouldDestroyEngine)]. *)
Definition old_disposal (unitId : string) (eng : Engine) (s : State) : list Event :=
  match Map_get unitId (_renderMap s) with
  | Some r => match heap_renders s !! r with
              | Some item => disposal_protocol r item (shouldDestroy unitId eng s)
              | None => []
              end
  | None => []
  end.

Definition scene_built (unitId : string) (eng : Engine) : SceneObj :=
  {| scene_name := SCENE_NAMESPACE +:+ unitId; scene_engine := eng;
     scene_width := 1500; scene_height := 1000 |}.

(** The object [createInstance] returns, before injection. *)
Definition unit_constructed (unit : UnitModel) (eng : Engine) (sc : SceneRef) (main : bool)
  : IRender :=
  {| unitId := model_unitId unit; type := model_type unit;
     engine := eng; scene := sc;
     mainComponent := model_mainComponent unit;
     components := model_components unit;
     isMainScene := main; isThumbNail := false;
     kind := RenderUnitInstance [] |}.

Definition thumbnail_stub (unitId : string) (eng : Engine) (sc : SceneRef) (main : bool)
  : IRender :=
  {| unitId := unitId; type := UNIVER_SLIDE;
     engine := eng; scene := sc;
     mainComponent := None; components := [];
     isMainScene := main; isThumbNail := true;
     kind := ObjectLiteral false (λ _, None) |}.

(** The modules registered for a type: [_getRenderControllersForType]. *)
Definition listFor (type : UnitType) (s : State) : list Dependency :=
  result (_getRenderControllersForType type) s.

(** The unit [_createRender] puts into the table. *)
Definition built_unit (unitId : string) (eng : Engine) (main : bool) (s : State) : IRender :=
  match getUnit (_univerInstanceService s) unitId with
  | Some unit =>
      addRenderDependencies
        (listFor (getUnitType (_univerInstanceService s) unitId) s)
        (unit_constructed unit eng (length (heap_scenes s)) main)
  | None => thumbnail_stub unitId eng (length (heap_scenes s)) main
  end.

Definition after_scene (unitId : string) (eng : Engine) (s : State) : State :=
  with_heap_scenes (heap_scenes s ++ [scene_built unitId eng]) s.

Definition after_createRender (unitId : string) (eng : Engine) (main : bool) (s : State)
  : State :=
  with_renderMap (Map_set unitId (length (heap_renders s)) (_renderMap s))
    (with_heap_renders (heap_renders s ++ [built_unit unitId eng main s])
       (after_scene unitId eng s)).

Definition trace_createRender (unitId : string) (eng : Engine) (main : bool) (s : State)
  : list Obs :=
  map (λ e, (e, s)) (old_disposal unitId eng s)
  ++ (ENewScene (SCENE_NAMESPACE +:+ unitId) eng, s)
  :: (EGetUnit unitId, after_scene unitId eng s)
  :: match getUnit (_univerInstanceService s) unitId with
     | Some unit =>
         [(EGetUnitType unitId, after_scene unitId eng s);
          (ECreateInstance unit, after_scene unitId eng s);
          (EAddRenderDependencies (length (heap_renders s))
             (listFor (getUnitType (_univerInstanceService s) unitId) s),
           with_heap_renders
             (heap_renders s ++
              [unit_constructed unit eng (length (heap_scenes s)) main])
             (after_scene unitId eng s))]
     | None => []
     end.

(** ** Well-formed stores *)

(** Every reference the table holds names a cell of the store. *)
Definition store_ok (s : State) : Prop :=
  ∀ id r, Map_get id (_renderMap s) = Some r → r < length (heap_renders s).

(** ** Invariants of runs

    [keeps I Q m]: started in a state satisfying [I], the method [m] ends in
    one, makes every call in one, and every call it makes satisfies [Q] in
    the state it is made in. *)
Definition keeps (I : State → Prop) (Q : State → Event → Prop) {A} (m : M A) : Prop :=
  ∀ s, I s → I (final m s) ∧ Forall (λ o : Obs, I o.2 ∧ Q o.2 o.1) (trace m s).

(** ** What [dispose] computes, in closed form *)

(** The units the table refers to, in the order of the table. *)
Definition live_units (s : State) : list IRender :=
  omap (λ kv : string * UnitRef, heap_renders s !! kv.2) (_renderMap s).

(** The calls of [this._renderMap.forEach((item) => this._disposeItem(item))]. *)
Definition teardown_calls (s : State) : list Event :=
  flat_map (λ kv : string * UnitRef,
              match heap_renders s !! kv.2 with
              | Some u => disposal_protocol kv.2 u true
              | None => []
              end) (_renderMap s).

(** The effect of [subject.complete()] on the store. *)
Definition completed (st : Stream) (s : State) : State :=
  if isStopped st s then s else with_stopped (st :: stopped s) s.

Definition after_dispose (s : State) : State :=
  completed S_renderDisposed
    (completed S_renderCreated
       (completed S_currentRender
          (with_renderMap [] (with_renderDependencies [] (with_disposed true s))))).

(** A call of [complete] on a subject that has completed already. *)
Definition is_idle_complete (o : Obs) : Prop :=
  ∃ st, o.1 = EComplete st ∧ isStopped st o.2 = true.

(** ** What registration computes, in closed form *)

(** Every array the registry refers to is a cell of the store, and no two
    types share an array. *)
Definition registry_ok (s : State) : Prop :=
  (∀ T a, Map_get T (_renderDependencies s) = Some a → a < length (heap_arrays s))
  ∧ (∀ T1 T2 a, Map_get T1 (_renderDependencies s) = Some a →
                Map_get T2 (_renderDependencies s) = Some a → T1 = T2).

(** The store after [ensureDependencies]. *)
Definition ensured (T : UnitType) (s : State) : State :=
  if Map_has T (_renderDependencies s) then s
  else with_renderDependencies
         (Map_set T (length (heap_arrays s)) (_renderDependencies s))
         (with_heap_arrays (heap_arrays s ++ [[]]) s).

(** The effect of [_tryAddRenderDependencies] on the cells. *)
Definition inject (deps : list Dependency) (r : UnitRef) (h : list IRender)
  : list IRender :=
  match h !! r with
  | Some u =>
      if instanceof_RenderUnit u then alter (addRenderDependencies deps) r h else h
  | None => h
  end.

(** The effect of the loop over the table on the cells. *)
Fixpoint inject_loop (T : UnitType) (deps : list Dependency)
    (m : list (string * UnitRef)) (h : list IRender) : list IRender :=
  match m with
  | [] => h
  | kv :: m' =>
      inject_loop T deps m'
        match h !! kv.2 with
        | Some render =>
            if bool_decide (renderType render = T) then inject deps kv.2 h else h
        | None => h
        end
  end.

(** The number of entries of the table that hold the object [r]. *)
Definition entries_holding (r : UnitRef) (m : list (string * UnitRef)) : nat :=
  length (filter (λ kv : string * UnitRef, kv.2 = r) m).

(** A unit the registration loop injects into. *)
Definition receives (T : UnitType) (u : IRender) : bool :=
  bool_decide (renderType u = T) && instanceof_RenderUnit u.

(** The units the loop's test [renderType === type] selects. *)
Definition matching_units (T : UnitType) (s : State) : list UnitRef :=
  result (getAllRenderersOfType T) s.

(** The array [registerRenderModules] pushes to. *)
Definition array_for (T : UnitType) (s : State) : ArrayRef :=
  default 0 (Map_get T (_renderDependencies (ensured T s))).

Definition after_register (T : UnitType) (deps : list Dependency) (s : State) : State :=
  with_heap_renders (inject_loop T deps (_renderMap s) (heap_renders s))
    (with_heap_arrays
       (alter (λ l, l ++ deps) (array_for T s) (heap_arrays (ensured T s)))
       (ensured T s)).

(** ** A document registry and stores to run the service on *)

Definition demo_doc : UnitModel :=
  {| model_unitId := "doc1"; model_type := UNIVER_SHEET;
     model_components := [("main", 5); ("aux", 6)];
     model_mainComponent := Some 5 |}.

Definition demo_service : InstanceService :=
  {| getUnit := λ id, if decide (id = "doc1") then Some demo_doc else None;
     getUnitType := λ id, if decide (id = "doc1") then UNIVER_SHEET
                          else UNIVER_EXTENSION 0;
     getCurrentUnitForType := λ T, if decide (T = UNIVER_SHEET) then Some demo_doc
                                   else None |}.

(** The service after [createRender("doc1")]: one full unit of type sheet. *)
Definition demo_sheet : State := final (createRender "doc1") (init demo_service).

(** The service after [createRender("thumb1")]: one thumbnail stub. *)
Definition demo_thumb : State := final (createRender "thumb1") (init demo_service).

(** ** The claims that do not hold as stated *)

(** C2 as stated: registration injects into every unit of the table whose
    type is the type registered for, so that the unit has the modules. *)
Definition injects_into_every_unit_of_type : Prop :=
  ∀ s T deps id r u,
    Map_get id (_renderMap s) = Some r →
    heap_renders s !! r = Some u →
    type u = T →
    ∃ u', heap_renders (final (registerRenderModules T deps) s) !! r = Some u'
          ∧ ∀ d, d ∈ deps → with_ u' d = Some d.

(** The references a table [m] holds to units of type [T], over the cells
    [h]: what [getAllRenderersOfType] collects. *)
Definition match_list (T : UnitType) (m : list (string * UnitRef)) (h : list IRender)
  : list UnitRef :=
  flat_map (λ kv : string * UnitRef,
              match h !! kv.2 with
              | Some render =>
                  if bool_decide (renderType render = T) then [kv.2] else []
              | None => []
              end) m.

(** Two invariants of runs: a cell holds the object [u], and no call injects
    into [r]. *)
Definition holds_literal (r : UnitRef) (u : IRender) (s : State) : Prop :=
  heap_renders s !! r = Some u.

Definition no_injection_into (r : UnitRef) (_ : State) (e : Event) : Prop :=
  ∀ deps, e ≠ EAddRenderDependencies r deps.

(** ** What a disposal handle computes, in closed form *)

(** [deps.forEach((dep) => remove(dependencies, dep))] on the content of the
    array. *)
Definition remove_each (deps : list Dependency) (l : list Dependency) : list Dependency :=
  foldl (λ l d, remove d l) l deps.


(** The registry binds the type [T] to the array [a]. *)
Definition bound_to (T : UnitType) (a : ArrayRef) (s : State) : Prop :=
  registry_ok s ∧ Map_get T (_renderDependencies s) = Some a.

(** C6 as stated: what [getRenderAll] returned is not altered by later
    [createRender], [addRender] or [removeRender]. *)
Definition getRenderAll_is_snapshot : Prop :=
  ∀ s id item,
    let m := result getRenderAll s in
    Map_entries m (final (createRender id) s) = Map_entries m s
    ∧ Map_entries m (final (addRender id item) s) = Map_entries m s
    ∧ Map_entries m (final (removeRender id) s) = Map_entries m s.

(** ** Reachable stores *)

(** [addRender] is handed a reference to an object that exists. *)
Definition op_ok (o : Op) (s : State) : Prop :=
  match o with
  | OAddRender _ item => item < length (heap_renders s)
  | _ => True
  end.

Inductive reachable : State → Prop :=
| reachable_init svc : reachable (init svc)
| reachable_step s o : reachable s → op_ok o s → reachable (final (exec_op o) s).

(** The unit in cell 0 of [demo_sheet]. *)
Definition demo_sheet_unit : IRender :=
  {| unitId := "doc1"; type := UNIVER_SHEET; engine := 0; scene := 0;
     mainComponent := Some 5; components := [("main", 5); ("aux", 6)];
     isMainScene := true; isThumbNail := false;
     kind := RenderUnitInstance [] |}.

(** A registry without documents whose current slide deck is "thumb1". *)
Definition demo_service_thumb : InstanceService :=
  {| getUnit := λ _, None;
     getUnitType := λ _, UNIVER_SLIDE;
     getCurrentUnitForType := λ _,
       Some {| model_unitId := "thumb1"; model_type := UNIVER_SLIDE;
               model_components := []; model_mainComponent := None |} |}.

(** ** Further invariants of runs *)

(** The object [r] exists and no entry of the table holds it. *)
Definition not_held (r : UnitRef) (s : State) : Prop :=
  (r ∉ (_renderMap s).*2) ∧ r < length (heap_renders s).

(** The calls a unit's disposal consists of that name the unit or its id. *)
Definition disposes_unit (r : UnitRef) (e : Event) : Prop :=
  e = ERenderDispose r.

(** Every engine a unit or the field [_defaultEngine] refers to has been
    allocated. *)
Definition engines_ok (s : State) : Prop :=
  (∀ r u, heap_renders s !! r = Some u → engine u < heap_engines s)
  ∧ (∀ e, _defaultEngine s = Some e → e < heap_engines s).

(** An object built outside the service is built on an engine that exists. *)
Definition env_ok (o : Op) (s : State) : Prop :=
  match o with
  | OEnvNewIRender u => engine u < heap_engines s
  | _ => True
  end.

(** No two entries of the table have the same id. *)
Definition keys_unique (s : State) : Prop := NoDup (_renderMap s).*1.

(** The service after [createRender("doc1")] and [createRender("thumb1")]. *)
Definition demo_two : State :=
  final (exec [OCreateRender "doc1"; OCreateRender "thumb1"]) (init demo_service).

(** ** Teardown of an object held under two ids *)

(** The number of calls of [item.dispose()] on the object [r] among the
    calls [es]: the protocol calls it once in each run on a disposable
    unit. *)
Definition dispose_calls_on (r : UnitRef) (es : list Event) : nat :=
  length (filter (λ x, x = r) (disposed_renders es)).

(** The number of times the scene [sc] is disposed among the calls [es]. *)
Definition scene_dispose_calls (sc : SceneRef) (es : list Event) : nat :=
  length (filter (λ x, x = sc) (disposed_scenes es)).

(** C4 as stated: whatever operations came before, [dispose] runs the
    protocol exactly once on every disposable unit the table holds. *)
Definition dispose_runs_once_per_unit : Prop :=
  ∀ s id r u,
    reachable s →
    Map_get id (_renderMap s) = Some r →
    heap_renders s !! r = Some u →
    isDisposable u = true →
    dispose_calls_on r (events (trace dispose s)) = 1.

(** The service after [createRender("doc1")] and [addRender("alias", unit)]
    with the unit the first call returned: one object under two ids. *)
Definition demo_alias : State :=
  final (exec [OCreateRender "doc1"; OAddRender "alias" 0]) (init demo_service).

(** * Proofs *)

(** ** Facts about the [Map] operations *)

Section JsMapFacts.
Context {K V : Type} `{EqDecision K}.
Implicit Types (k : K) (v : V) (m : list (K * V)).

Lemma Map_get_set_eq k v m : Map_get k (Map_set k v m) = Some v.
Proof.
  induction m as [|[k' v'] m IH]; simpl.
  - destruct (decide (k = k)); congruence.
  - destruct (decide (k' = k)) as [->|Hne]; simpl.
    + destruct (decide (k = k)); congruence.
    + destruct (decide (k' = k)); [congruence | exact IH].
Qed.

Lemma Map_get_set_ne k k' v m : k ≠ k' → Map_get k' (Map_set k v m) = Map_get k' m.
Proof.
  intros Hne. induction m as [|[k0 v0] m IH]; simpl.
  - destruct (decide (k = k')); congruence.
  - destruct (decide (k0 = k)) as [->|Hk]; simpl.
    + destruct (decide (k = k')); congruence.
    + destruct (decide (k0 = k')); [reflexivity | exact IH].
Qed.

Lemma Map_get_delete_eq k m : Map_get k (Map_delete k m) = None.
Proof.
  induction m as [|[k' v'] m IH]; simpl; [reflexivity|].
  destruct (decide (k' = k)) as [->|Hne]; simpl; [exact IH|].
  destruct (decide (k' = k)); [congruence | exact IH].
Qed.

Lemma Map_get_delete_ne k k' m : k ≠ k' → Map_get k' (Map_delete k m) = Map_get k' m.
Proof.
  intros Hne. induction m as [|[k0 v0] m IH]; simpl; [reflexivity|].
  destruct (decide (k0 = k)) as [->|Hk]; simpl.
  - destruct (decide (k = k')); [congruence | exact IH].
  - destruct (decide (k0 = k')); [reflexivity | exact IH].
Qed.

Lemma Map_delete_absent k m : Map_get k m = None → Map_delete k m = m.
Proof.
  induction m as [|[k' v'] m IH]; simpl; [reflexivity|].
  destruct (decide (k' = k)); [discriminate|].
  intros H. f_equal. apply IH, H.
Qed.

Lemma Map_get_In k v m : Map_get k m = Some v → (k, v) ∈ m.
Proof.
  induction m as [|[k' v'] m IH]; simpl; [discriminate|].
  destruct (decide (k' = k)) as [->|Hne].
  - intros [= ->]. left.
  - intros H. right. apply IH, H.
Qed.
End JsMapFacts.

(** ** Basic facts *)

Lemma forEach_call {A} (g : A → Event) (l : list A) (s : State) :
  forEach (λ x, call (g x)) l s = (tt, s, map (λ x, (g x, s)) l).
Proof.
  induction l as [|x l IH]; [reflexivity|].
  simpl. unfold bind, call at 1. rewrite IH. reflexivity.
Qed.

Lemma _disposeItem_Some r u flag s :
  heap_renders s !! r = Some u →
  _disposeItem (Some r) flag s
  = (tt, s, map (λ e, (e, s)) (disposal_protocol r u flag)).
Proof.
  intros Hu. unfold _disposeItem, deref, bind at 1, gets. rewrite Hu.
  unfold bind at 1. rewrite forEach_call.
  unfold disposal_protocol, bind, call, when, Subject_next, call, ret.
  rewrite !map_app, map_map.
  destruct (isDisposable u), flag; simpl; reflexivity.
Qed.

Lemma _disposeItem_state item flag s : (_disposeItem item flag s).1 = (tt, s).
Proof.
  destruct item as [r|]; [|reflexivity].
  destruct (heap_renders s !! r) as [u|] eqn:Hu.
  - erewrite _disposeItem_Some by eassumption. reflexivity.
  - unfold _disposeItem, deref, bind, gets. rewrite Hu. reflexivity.
Qed.

Lemma events_map_snapshot (es : list Event) (s : State) :
  events (map (λ e, (e, s)) es) = es.
Proof. unfold events. rewrite map_map. simpl. apply map_id. Qed.

Lemma events_app (t1 t2 : list Obs) : events (t1 ++ t2) = events t1 ++ events t2.
Proof. apply map_app. Qed.

Lemma lookup_snoc {A} (l : list A) (x : A) : (l ++ [x]) !! length l = Some x.
Proof. apply list_lookup_middle. reflexivity. Qed.

Lemma alter_snoc {A} (f : A → A) (l : list A) (x : A) :
  alter f (length l) (l ++ [x]) = l ++ [f x].
Proof. induction l as [|y l IH]; [reflexivity|]. simpl. f_equal. exact IH. Qed.

Lemma _disposeItem_old unitId eng s :
  _disposeItem (Map_get unitId (_renderMap s)) (shouldDestroy unitId eng s) s
  = (tt, s, map (λ e, (e, s)) (old_disposal unitId eng s)).
Proof.
  unfold old_disposal.
  destruct (Map_get unitId (_renderMap s)) as [r|]; [|reflexivity].
  destruct (heap_renders s !! r) as [u|] eqn:Hu.
  - apply _disposeItem_Some, Hu.
  - unfold _disposeItem, deref, bind, gets. rewrite Hu. reflexivity.
Qed.

Lemma _createRender_run unitId eng main s :
  _createRender unitId eng main s
  = (length (heap_renders s), after_createRender unitId eng main s,
     trace_createRender unitId eng main s).
Proof.
  unfold _createRender.
  unfold bind at 1. unfold getRenderById at 1, gets at 1.
  unfold bind at 1.
  set (sd := match Map_get unitId (_renderMap s) with Some r => _ | None => _ end).
  assert (Hsd : sd s = (shouldDestroy unitId eng s, s, [])).
  { unfold sd, shouldDestroy.
    destruct (Map_get unitId (_renderMap s)) as [r|]; [|reflexivity].
    unfold bind, deref, gets. destruct (heap_renders s !! r); reflexivity. }
  rewrite Hsd. unfold bind at 1. rewrite _disposeItem_old.
  unfold trace_createRender, after_createRender, built_unit, listFor, result.
  unfold bind at 1. unfold new_Scene, bind, call, gets, modify, ret. simpl.
  destruct (getUnit (_univerInstanceService s) unitId) as [unit|]; simpl.
  - unfold _tryAddRenderDependencies, deref, bind, gets,
      createInstance_RenderUnit, bind, call, new_IRender, bind, gets, modify,
      ret. simpl.
    rewrite lookup_snoc. simpl.
    unfold RenderUnit_addRenderDependencies, bind, call, modify,
      _addRenderUnit, modify. simpl.
    unfold with_renderMap, with_heap_renders, after_scene, with_heap_scenes; simpl.
    rewrite alter_snoc, ?app_nil_r. reflexivity.
  - unfold new_IRender, bind, gets, modify, ret, _addRenderUnit, modify. simpl.
    rewrite ?app_nil_r. reflexivity.
Qed.

Lemma createRender_run unitId s :
  createRender unitId s
  = (length (heap_renders s),
     after_createRender unitId (heap_engines s) true
       (with_heap_engines (S (heap_engines s)) s),
     (ENewEngine, s)
     :: trace_createRender unitId (heap_engines s) true
          (with_heap_engines (S (heap_engines s)) s)
     ++ [(ENext S_renderCreated (PRender (length (heap_renders s))),
          after_createRender unitId (heap_engines s) true
            (with_heap_engines (S (heap_engines s)) s))]).
Proof.
  unfold createRender. unfold bind at 1.
  unfold new_Engine, bind, call, gets, modify, ret. simpl.
  rewrite _createRender_run. unfold Subject_next. simpl.
  rewrite ?app_nil_r. reflexivity.
Qed.

(** *** The calls of a trace, by kind *)

Lemma disposal_protocol_components r u flag :
  disposed_components (disposal_protocol r u flag) = (components u).*2.
Proof.
  unfold disposal_protocol, disposed_components.
  rewrite flat_map_app.
  assert (H : ∀ l : list (string * Component),
             flat_map (λ e, match e with EComponentDispose c => [c] | _ => [] end)
               (map (λ kv : string * Component, EComponentDispose kv.2) l) = l.*2).
  { induction l as [|kv l IH]; simpl; [reflexivity | f_equal; exact IH]. }
  rewrite H. destruct (isDisposable u), flag; simpl; apply app_nil_r.
Qed.

Lemma no_component_in_map {B} (l : list (string * Component)) (f : Event → list B) :
  (∀ c, f (EComponentDispose c) = []) →
  flat_map f (map (λ kv : string * Component, EComponentDispose kv.2) l) = [].
Proof.
  intros Hf. induction l as [|kv l IH]; simpl; [reflexivity|].
  rewrite Hf. exact IH.
Qed.

Lemma disposal_protocol_scenes r u flag :
  disposed_scenes (disposal_protocol r u flag) = [scene u].
Proof.
  unfold disposal_protocol, disposed_scenes.
  rewrite flat_map_app, no_component_in_map by reflexivity.
  destruct (isDisposable u), flag; reflexivity.
Qed.

Lemma disposal_protocol_renders r u flag :
  disposed_renders (disposal_protocol r u flag)
  = if isDisposable u then [r] else [].
Proof.
  unfold disposal_protocol, disposed_renders.
  rewrite flat_map_app, no_component_in_map by reflexivity.
  destruct (isDisposable u), flag; reflexivity.
Qed.

Lemma disposal_protocol_engines r u flag :
  disposed_engines (disposal_protocol r u flag)
  = if flag then [engine u] else [].
Proof.
  unfold disposal_protocol, disposed_engines.
  rewrite flat_map_app, no_component_in_map by reflexivity.
  destruct (isDisposable u), flag; reflexivity.
Qed.

Lemma disposal_protocol_emitted r u flag :
  emitted S_renderDisposed (disposal_protocol r u flag) = [PString (unitId u)].
Proof.
  unfold disposal_protocol, emitted.
  rewrite flat_map_app.
  assert (H : ∀ l : list (string * Component),
             flat_map (λ e, match e with
                            | ENext st' p =>
                                if decide (st' = S_renderDisposed) then [p] else []
                            | _ => []
                            end)
               (map (λ kv : string * Component, EComponentDispose kv.2) l) = []).
  { induction l as [|kv l IH]; simpl; [reflexivity | exact IH]. }
  rewrite H. destruct (isDisposable u), flag; reflexivity.
Qed.

Lemma construction_calls_Forall unitId eng s :
  Forall (λ e, is_construction e = true) (construction_calls unitId eng s).
Proof.
  unfold construction_calls.
  destruct (getUnit (_univerInstanceService s) unitId); repeat constructor.
Qed.

Lemma construction_silent (es : list Event) :
  Forall (λ e, is_construction e = true) es →
  disposed_components es = [] ∧ disposed_scenes es = [] ∧
  disposed_renders es = [] ∧ disposed_engines es = [] ∧
  ∀ st, emitted st es = [].
Proof.
  induction 1 as [|e es He _ IH]; [repeat split; reflexivity|].
  destruct IH as (H1 & H2 & H3 & H4 & H5).
  destruct e; try discriminate He; simpl;
    repeat split; try assumption; intros; apply H5.
Qed.

Lemma events_trace_createRender unitId eng main s :
  events (trace_createRender unitId eng main s)
  = old_disposal unitId eng s ++ construction_calls unitId eng s.
Proof.
  unfold trace_createRender, construction_calls.
  rewrite events_app, events_map_snapshot. f_equal.
  destruct (getUnit (_univerInstanceService s) unitId); reflexivity.
Qed.

(** ** Replacement (C1) *)

Lemma replace_disposes_old unitId eng main s r u :
  Map_get unitId (_renderMap s) = Some r →
  heap_renders s !! r = Some u →
  events (trace (_createRender unitId eng main) s)
  = disposal_protocol r u (negb (bool_decide (engine u = eng)))
    ++ construction_calls unitId eng s.
Proof.
  intros Hr Hu. unfold trace. rewrite _createRender_run. simpl.
  rewrite events_trace_createRender. f_equal.
  unfold old_disposal, shouldDestroy. rewrite Hr, Hu. reflexivity.
Qed.

Lemma flat_map_construction {B} (f : Event → list B) (es rest : list Event) :
  flat_map f rest = [] → flat_map f (es ++ rest) = flat_map f es.
Proof. intros H. rewrite flat_map_app, H. apply app_nil_r. Qed.

Lemma events_createRender id s :
  events (trace (createRender id) s)
  = ENewEngine
    :: events (trace (_createRender id (heap_engines s) true)
                 (with_heap_engines (S (heap_engines s)) s))
    ++ [ENext S_renderCreated (PRender (length (heap_renders s)))].
Proof.
  unfold trace. rewrite createRender_run, _createRender_run. simpl.
  rewrite events_app. reflexivity.
Qed.

(** C1, replacement safety.  When [_createRender] is called for an id that
    has a live unit, its calls are the disposal protocol of the old unit,
    once, followed by calls that only construct: every entry of the old
    components map is disposed once, the old scene once, the unit's own
    [dispose] once if it has one, its id published once, and the old engine
    is destroyed exactly when it is not the engine supplied.  Two calls of
    [createRender] for one id: the second disposes the components and the
    scene of the first unit once and destroys its engine. *)
Theorem C1_replacement_safety :
  (∀ s id eng main r u,
     Map_get id (_renderMap s) = Some r →
     heap_renders s !! r = Some u →
     let es := events (trace (_createRender id eng main) s) in
     (∃ rest, es = disposal_protocol r u (negb (bool_decide (engine u = eng))) ++ rest
              ∧ Forall (λ e, is_construction e = true) rest)
     ∧ disposed_components es = (components u).*2
     ∧ disposed_scenes es = [scene u]
     ∧ disposed_renders es = (if isDisposable u then [r] else [])
     ∧ emitted S_renderDisposed es = [PString (unitId u)]
     ∧ disposed_engines es = (if bool_decide (engine u = eng) then [] else [engine u]))
  ∧ (∀ s id,
       let r1 := result (createRender id) s in
       let s1 := final (createRender id) s in
       let es := events (trace (createRender id) s1) in
       ∃ u1, heap_renders s1 !! r1 = Some u1
             ∧ Map_get id (_renderMap s1) = Some r1
             ∧ disposed_components es = (components u1).*2
             ∧ disposed_scenes es = [scene u1]
             ∧ emitted S_renderDisposed es = [PString (unitId u1)]
             ∧ disposed_engines es = [engine u1]).
Proof.
  assert (Hgen : ∀ s id eng main r u,
     Map_get id (_renderMap s) = Some r →
     heap_renders s !! r = Some u →
     let es := events (trace (_createRender id eng main) s) in
     (∃ rest, es = disposal_protocol r u (negb (bool_decide (engine u = eng))) ++ rest
              ∧ Forall (λ e, is_construction e = true) rest)
     ∧ disposed_components es = (components u).*2
     ∧ disposed_scenes es = [scene u]
     ∧ disposed_renders es = (if isDisposable u then [r] else [])
     ∧ emitted S_renderDisposed es = [PString (unitId u)]
     ∧ disposed_engines es = (if bool_decide (engine u = eng) then [] else [engine u])).
  { intros s id eng main r u Hr Hu es. subst es.
    rewrite (replace_disposes_old _ _ _ _ _ _ Hr Hu).
    pose proof (construction_calls_Forall id eng s) as Hc.
    destruct (construction_silent _ Hc) as (H1 & H2 & H3 & H4 & H5).
    split; [eexists; split; [reflexivity | exact Hc]|].
    unfold disposed_components, disposed_scenes, disposed_renders,
      disposed_engines, emitted in *.
    rewrite !flat_map_construction by (first [assumption | apply H5]).
    split; [apply disposal_protocol_components|].
    split; [apply disposal_protocol_scenes|].
    split; [apply disposal_protocol_renders|].
    split; [apply disposal_protocol_emitted|].
    fold (disposed_engines (disposal_protocol r u (negb (bool_decide (engine u = eng))))).
    rewrite disposal_protocol_engines.
    destruct (bool_decide (engine u = eng)); reflexivity. }
  split; [exact Hgen|].
  intros s id r1 s1 es.
  assert (Hr1' : r1 = length (heap_renders s)).
  { unfold r1, result. rewrite createRender_run. reflexivity. }
  assert (Hs1' : s1 = after_createRender id (heap_engines s) true
                        (with_heap_engines (S (heap_engines s)) s)).
  { unfold s1, final. rewrite createRender_run. reflexivity. }
  set (u1 := built_unit id (heap_engines s) true
               (with_heap_engines (S (heap_engines s)) s)).
  assert (Hu1 : heap_renders s1 !! r1 = Some u1).
  { rewrite Hs1', Hr1'. unfold after_createRender. simpl. apply lookup_snoc. }
  assert (Hm1 : Map_get id (_renderMap s1) = Some r1).
  { rewrite Hs1', Hr1'. unfold after_createRender. simpl. apply Map_get_set_eq. }
  assert (He1 : engine u1 = heap_engines s).
  { unfold u1, built_unit.
    destruct (getUnit _ id); reflexivity. }
  assert (Hn1 : heap_engines s1 = S (heap_engines s)).
  { rewrite Hs1'. reflexivity. }
  exists u1. split; [exact Hu1|]. split; [exact Hm1|].
  unfold es. rewrite events_createRender.
  destruct (Hgen (with_heap_engines (S (heap_engines s1)) s1) id
              (heap_engines s1) true r1 u1 Hm1 Hu1)
    as (_ & H1 & H2 & _ & H4 & H5).
  cbv zeta in H1, H2, H4, H5.
  assert (Hne : bool_decide (engine u1 = heap_engines s1) = false).
  { apply bool_decide_eq_false. rewrite He1, Hn1. lia. }
  rewrite Hne in H5.
  unfold disposed_components, disposed_scenes, disposed_engines, emitted in *.
  simpl. rewrite !flat_map_app. simpl. rewrite !app_nil_r.
  repeat split; assumption.
Qed.

(** ** Removal (C3) *)

Lemma with_renderMap_id s : with_renderMap (_renderMap s) s = s.
Proof. destruct s; reflexivity. Qed.

Lemma removeRender_absent id s :
  Map_get id (_renderMap s) = None → removeRender id s = (tt, s, []).
Proof.
  intros H. unfold removeRender, bind, gets, modify, ret. rewrite H. simpl.
  rewrite Map_delete_absent by exact H. rewrite with_renderMap_id. reflexivity.
Qed.

Lemma removeRender_present id s r u :
  Map_get id (_renderMap s) = Some r →
  heap_renders s !! r = Some u →
  removeRender id s
  = (tt, with_renderMap (Map_delete id (_renderMap s)) s,
     map (λ e, (e, s)) (disposal_protocol r u true)).
Proof.
  intros Hr Hu. unfold removeRender. unfold bind at 1, gets at 1. rewrite Hr.
  unfold bind. rewrite (_disposeItem_Some _ _ _ _ Hu). unfold modify.
  rewrite app_nil_r. reflexivity.
Qed.

Lemma delivered_snapshot st (es : list Event) (s : State) :
  delivered st (map (λ e, (e, s)) es)
  = if isStopped st s then [] else emitted st es.
Proof.
  unfold delivered, emitted.
  induction es as [|e es IH]; simpl; [destruct (isStopped st s); reflexivity|].
  rewrite IH. destruct e; simpl; try reflexivity.
  destruct (decide (st0 = st)); [|reflexivity].
  destruct (isStopped st s); reflexivity.
Qed.

(** C3, removal.  [removeRender] for an id that is not in the table changes
    nothing and makes no call at all.  For an id that is in the table it
    disposes every entry of the components map once, then the scene, then
    calls the unit's own [dispose] if it has one, then destroys the engine,
    then publishes the unit's id on the disposed stream; all these calls are
    made with the table as it was, and afterwards the id is not in the table
    while the other entries are as before. *)
Theorem C3_removeRender :
  (∀ s id, Map_get id (_renderMap s) = None → removeRender id s = (tt, s, []))
  ∧ (∀ s id r u,
       Map_get id (_renderMap s) = Some r →
       heap_renders s !! r = Some u →
       let tr := trace (removeRender id) s in
       let s' := final (removeRender id) s in
       events tr
       = map (λ kv : string * Component, EComponentDispose kv.2) (components u)
         ++ [ESceneDispose (scene u)]
         ++ (if isDisposable u then [ERenderDispose r] else [])
         ++ [EEngineDispose (engine u)]
         ++ [ENext S_renderDisposed (PString (unitId u))]
       ∧ disposed_components (events tr) = (components u).*2
       ∧ Forall (λ o : Obs, o.2 = s) tr
       ∧ (isStopped S_renderDisposed s = false →
          delivered S_renderDisposed tr = [PString (unitId u)])
       ∧ result (has id) s' = false
       ∧ (∀ id', id' ≠ id → Map_get id' (_renderMap s') = Map_get id' (_renderMap s))
       ∧ heap_renders s' = heap_renders s).
Proof.
  split; [intros s id; apply removeRender_absent|].
  intros s id r u Hr Hu tr s'. subst tr s'. unfold trace, final.
  rewrite (removeRender_present _ _ _ _ Hr Hu). simpl.
  rewrite events_map_snapshot.
  split; [reflexivity|].
  split; [apply disposal_protocol_components|].
  split; [apply Forall_map, Forall_true; reflexivity|].
  split.
  { intros Hs. rewrite delivered_snapshot, Hs. apply disposal_protocol_emitted. }
  assert (Hh : Map_has id (Map_delete id (_renderMap s)) = false).
  { unfold Map_has. rewrite Map_get_delete_eq. reflexivity. }
  split; [exact Hh|].
  split; [|reflexivity].
  intros id' Hne. apply Map_get_delete_ne. congruence.
Qed.

(** ** Order of insertion and publication (C7, C9) *)

Lemma run_inv {A} (m : M A) (s : State) a s' t :
  m s = (a, s', t) → result m s = a ∧ final m s = s' ∧ trace m s = t.
Proof. unfold result, final, trace. intros ->. repeat split. Qed.

Lemma built_unit_complete id eng main s :
  let u := built_unit id eng main s in
  engine u = eng ∧ scene u = length (heap_scenes s) ∧ isMainScene u = main
  ∧ match getUnit (_univerInstanceService s) id with
    | Some unit =>
        kind u = RenderUnitInstance
                   (listFor (getUnitType (_univerInstanceService s) id) s)
        ∧ unitId u = model_unitId unit ∧ type u = model_type unit
        ∧ components u = model_components unit
        ∧ mainComponent u = model_mainComponent unit
        ∧ isThumbNail u = false
    | None => u = thumbnail_stub id eng (length (heap_scenes s)) main
    end.
Proof.
  unfold built_unit.
  destruct (getUnit (_univerInstanceService s) id); simpl; repeat split; reflexivity.
Qed.

(** C7, event ordering.  A call of [createRender] publishes on the created
    stream once, as its last call, with the new unit as payload, and at that
    moment the table already maps the id to the new unit: [has], 
    [getRenderById] and the map [getRenderAll] returns all show it. *)
Theorem C7_created_after_insert (s : State) (id : string) :
  let r := result (createRender id) s in
  let tr := trace (createRender id) s in
  ∃ pre snap,
    tr = pre ++ [(ENext S_renderCreated (PRender r), snap)]
    ∧ emitted S_renderCreated (events pre) = []
    ∧ snap = final (createRender id) s
    ∧ result (has id) snap = true
    ∧ result (getRenderById id) snap = Some r
    ∧ (id, r) ∈ Map_entries (result getRenderAll snap) snap
    ∧ is_Some (heap_renders snap !! r).
Proof.
  intros r tr. subst r tr.
  destruct (run_inv _ _ _ _ _ (createRender_run id s)) as (-> & -> & ->).
  eexists ((ENewEngine, s) :: trace_createRender id (heap_engines s) true _), _.
  split; [reflexivity|].
  assert (Hget : Map_get id (Map_set id (length (heap_renders s)) (_renderMap s))
                 = Some (length (heap_renders s))) by apply Map_get_set_eq.
  split.
  { simpl. rewrite events_trace_createRender.
    unfold old_disposal.
    set (s0 := with_heap_engines (S (heap_engines s)) s).
    pose proof (construction_calls_Forall id (heap_engines s) s0) as Hc.
    destruct (construction_silent _ Hc) as (_ & _ & _ & _ & H5).
    unfold emitted in *. rewrite flat_map_app, H5, app_nil_r.
    destruct (Map_get id (_renderMap s0)) as [r0|]; [|reflexivity].
    destruct (heap_renders s0 !! r0) as [u0|]; [|reflexivity].
    unfold disposal_protocol. rewrite flat_map_app.
    rewrite (no_component_in_map (components u0)
               (λ e, match e with
                     | ENext st' p => if decide (st' = S_renderCreated) then [p] else []
                     | _ => []
                     end)) by reflexivity.
    destruct (isDisposable u0), (shouldDestroy id (heap_engines s) s0); reflexivity. }
  split; [reflexivity|].
  unfold result, has, getRenderById, getRenderAll, gets, ret, Map_has; simpl.
  rewrite Hget.
  split; [reflexivity|]. split; [reflexivity|].
  split; [apply Map_get_In, Hget|].
  rewrite lookup_snoc. eexists; reflexivity.
Qed.

(** C9, no half-built unit is published.  Every call [_createRender] makes
    (the disposal of the old unit, the construction of the scene and of the
    unit, the injection of the modules) is made while the table and the
    cells it refers to are exactly as they were before; the new unit is in
    a cell no entry refers to.  The table changes once, after the last call,
    and the entry it gets is the completely built unit. *)
Theorem C9_no_partial_unit (s : State) (id : string) (eng : Engine) (main : bool) :
  store_ok s →
  let r' := result (_createRender id eng main) s in
  let s' := final (_createRender id eng main) s in
  let tr := trace (_createRender id eng main) s in
  Forall (λ o : Obs,
            _renderMap o.2 = _renderMap s
            ∧ (∀ k, result (getRenderById k) o.2 = result (getRenderById k) s)
            ∧ result getCurrent o.2 = result getCurrent s
            ∧ Map_entries (result getRenderAll o.2) o.2 = _renderMap s
            ∧ (∀ k r, result (getRenderById k) o.2 = Some r →
                 r ≠ r' ∧ heap_renders o.2 !! r = heap_renders s !! r)) tr
  ∧ (∃ tr2, events tr = old_disposal id eng s
                        ++ ENewScene (SCENE_NAMESPACE +:+ id) eng :: tr2)
  ∧ _renderMap s' = Map_set id r' (_renderMap s)
  ∧ heap_renders s' !! r' = Some (built_unit id eng main s)
  ∧ scene (built_unit id eng main s) < length (heap_scenes s')
  ∧ (∀ k r, k ≠ id → result (getRenderById k) s' = Some r →
       result (getRenderById k) s = Some r
       ∧ heap_renders s' !! r = heap_renders s !! r).
Proof.
  intros Hok r' s' tr. subst r' s' tr.
  destruct (run_inv _ _ _ _ _ (_createRender_run id eng main s)) as (-> & -> & ->).
  assert (Hold : ∀ (h : list IRender) k r,
            Map_get k (_renderMap s) = Some r →
            r ≠ length (heap_renders s)
            ∧ (heap_renders s ++ h) !! r = heap_renders s !! r).
  { intros h k r Hr. apply Hok in Hr. split; [lia|].
    apply lookup_app_l. exact Hr. }
  split.
  { unfold trace_createRender. apply Forall_app. split.
    - apply Forall_map, Forall_true. intros e. simpl.
      repeat split; try reflexivity.
      + apply Hok in H. lia.
    - assert (Hs1 : ∀ h (st : State),
                _renderMap st = _renderMap s →
                _currentUnitId st = _currentUnitId s →
                heap_renders st = heap_renders s ++ h →
                _renderMap st = _renderMap s
                ∧ (∀ k, result (getRenderById k) st = result (getRenderById k) s)
                ∧ result getCurrent st = result getCurrent s
                ∧ Map_entries (result getRenderAll st) st = _renderMap s
                ∧ (∀ k r, result (getRenderById k) st = Some r →
                     r ≠ length (heap_renders s)
                     ∧ heap_renders st !! r = heap_renders s !! r)).
      { intros h st Hm Hc Hh.
        unfold result, getRenderById, getCurrent, getRenderAll, gets, ret; simpl.
        rewrite Hm, Hc, Hh. repeat split; try reflexivity.
        - eapply (proj1 (Hold h k r H)).
        - apply (Hold h k r H). }
      constructor; [apply (Hs1 []); try reflexivity; simpl; symmetry; apply app_nil_r|].
      constructor; [apply (Hs1 []); try reflexivity; simpl; symmetry; apply app_nil_r|].
      destruct (getUnit (_univerInstanceService s) id) as [unit|]; [|constructor].
      constructor; [apply (Hs1 []); try reflexivity; simpl; symmetry; apply app_nil_r|].
      constructor; [apply (Hs1 []); try reflexivity; simpl; symmetry; apply app_nil_r|].
      constructor; [|constructor].
      eapply Hs1; reflexivity. }
  split.
  { rewrite events_trace_createRender. unfold construction_calls.
    eexists. reflexivity. }
  split; [reflexivity|].
  split; [apply lookup_snoc|].
  split.
  { destruct (built_unit_complete id eng main s) as (_ & -> & _).
    unfold after_createRender, after_scene. simpl.
    rewrite length_app. simpl. lia. }
  intros k r Hne. unfold result, getRenderById, gets. simpl.
  rewrite Map_get_set_ne by congruence.
  intros Hr. split; [exact Hr|]. apply (Hold _ k r Hr).
Qed.

(** ** Rules for invariants *)

Section Keeps.
Context (I : State → Prop) (Q : State → Event → Prop).

Lemma keeps_ret {A} (a : A) : keeps I Q (ret a).
Proof. intros s Hs. split; [exact Hs | constructor]. Qed.

Lemma keeps_gets {A} (f : State → A) : keeps I Q (gets f).
Proof. intros s Hs. split; [exact Hs | constructor]. Qed.

Lemma keeps_modify (f : State → State) :
  (∀ s, I s → I (f s)) → keeps I Q (modify f).
Proof. intros Hf s Hs. split; [apply Hf, Hs | constructor]. Qed.

Lemma keeps_call (e : Event) : (∀ s, I s → Q s e) → keeps I Q (call e).
Proof.
  intros He s Hs. split; [exact Hs|].
  constructor; [split; [exact Hs | apply He, Hs] | constructor].
Qed.

Lemma keeps_bind {A B} (m : M A) (k : A → M B) :
  keeps I Q m → (∀ a, keeps I Q (k a)) → keeps I Q (bind m k).
Proof.
  intros Hm Hk s Hs. specialize (Hm s Hs).
  unfold final, trace, bind in *.
  destruct (m s) as [[a s1] t1]. simpl in Hm. destruct Hm as [H1 Ht1].
  specialize (Hk a s1 H1). unfold final, trace in Hk.
  destruct (k a s1) as [[b s2] t2]. simpl in *. destruct Hk as [H2 Ht2].
  split; [exact H2 | apply Forall_app; split; assumption].
Qed.

Lemma keeps_when {b : bool} (m : M unit) : keeps I Q m → keeps I Q (when b m).
Proof. intros Hm. destruct b; [exact Hm | apply keeps_ret]. Qed.

Lemma keeps_forEach {A} (f : A → M unit) (l : list A) :
  (∀ x, keeps I Q (f x)) → keeps I Q (forEach f l).
Proof.
  intros Hf. induction l as [|x l IH]; simpl.
  - apply keeps_ret.
  - apply keeps_bind; [apply Hf | intros _; exact IH].
Qed.
End Keeps.

(** One step of a proof that a method keeps an invariant: take the method
    apart along its binds, loops and case distinctions. *)
Ltac keeps_step :=
  match goal with
  | |- keeps _ _ (bind _ _) => apply keeps_bind; [|intros ?]
  | |- keeps _ _ (ret _) => apply keeps_ret
  | |- keeps _ _ (gets _) => apply keeps_gets
  | |- keeps _ _ (when _ _) => apply keeps_when
  | |- keeps _ _ (forEach _ _) => apply keeps_forEach; intros ?
  | |- keeps _ _ (match ?x with _ => _ end) => destruct x
  | |- keeps _ _ (if ?x then _ else _) => destruct x
  end.

Ltac keeps_unfold :=
  unfold exec_op, createRender, _createRender, removeRender, setCurrent, create,
    addRender, _addRenderUnit, registerRenderModules, registerRenderModule,
    ensureDependencies, injectIntoMatching, IDisposable_dispose, defaultEngine,
    dispose, _disposeItem, getRenderById, deref, _getRenderControllersForType,
    createInstance_RenderUnit, new_Engine, new_Scene, new_IRender, new_Array,
    Subject_next, Disposable_dispose.

(** ** Teardown (C4) *)

Lemma forEach_disposeItem (m : list (string * UnitRef)) (s : State) :
  forEach (λ kv : string * UnitRef, _disposeItem (Some kv.2) true) m s
  = (tt, s,
     map (λ e, (e, s))
       (flat_map (λ kv : string * UnitRef,
                    match heap_renders s !! kv.2 with
                    | Some u => disposal_protocol kv.2 u true
                    | None => []
                    end) m)).
Proof.
  induction m as [|[k r] m IH]; [reflexivity|].
  cbn [forEach flat_map snd]. unfold bind at 1.
  destruct (heap_renders s !! r) as [u|] eqn:Hu.
  - rewrite (_disposeItem_Some _ _ _ _ Hu), IH, map_app. reflexivity.
  - assert (Hn : _disposeItem (Some r) true s = (tt, s, [])).
    { unfold _disposeItem, deref, bind, gets. rewrite Hu. reflexivity. }
    rewrite Hn, IH. reflexivity.
Qed.

Lemma dispose_run s :
  dispose s
  = (tt, after_dispose s,
     map (λ e, (e, with_disposed true s)) (teardown_calls s)
     ++ [(EComplete S_currentRender,
          with_renderMap [] (with_renderDependencies [] (with_disposed true s)));
         (EComplete S_renderCreated,
          completed S_currentRender
            (with_renderMap [] (with_renderDependencies [] (with_disposed true s))));
         (EComplete S_renderDisposed,
          completed S_renderCreated
            (completed S_currentRender
               (with_renderMap [] (with_renderDependencies [] (with_disposed true s)))))]).
Proof.
  unfold dispose. unfold bind at 1, Disposable_dispose, modify at 1.
  unfold bind at 1, gets at 1. unfold bind at 1.
  rewrite forEach_disposeItem.
  unfold Subject_complete, bind, modify, call. simpl.
  rewrite ?app_nil_r. reflexivity.
Qed.

Lemma isStopped_completed st s : isStopped st (completed st s) = true.
Proof.
  unfold completed. destruct (isStopped st s) eqn:H; [exact H|].
  unfold isStopped. simpl. apply bool_decide_eq_true. left.
Qed.

Lemma isStopped_completed_mono st st' s :
  isStopped st s = true → isStopped st (completed st' s) = true.
Proof.
  intros H. unfold completed. destruct (isStopped st' s); [exact H|].
  unfold isStopped in *. simpl. apply bool_decide_eq_true. right.
  apply bool_decide_eq_true in H. exact H.
Qed.

Lemma completed_id st s : isStopped st s = true → completed st s = s.
Proof. intros H. unfold completed. rewrite H. reflexivity. Qed.

Lemma with_disposed_id s : _disposed s = true → with_disposed true s = s.
Proof. destruct s; simpl. intros ->. reflexivity. Qed.

Lemma with_renderDependencies_id s :
  _renderDependencies s = [] → with_renderDependencies [] s = s.
Proof. destruct s; simpl. intros ->. reflexivity. Qed.

Lemma with_renderMap_nil_id s : _renderMap s = [] → with_renderMap [] s = s.
Proof. destruct s; simpl. intros ->. reflexivity. Qed.

Lemma completed_fields st s :
  _renderMap (completed st s) = _renderMap s
  ∧ _renderDependencies (completed st s) = _renderDependencies s
  ∧ _disposed (completed st s) = _disposed s
  ∧ heap_renders (completed st s) = heap_renders s
  ∧ heap_arrays (completed st s) = heap_arrays s.
Proof. unfold completed. destruct (isStopped st s); repeat split. Qed.

Lemma after_dispose_facts s :
  _renderMap (after_dispose s) = []
  ∧ _renderDependencies (after_dispose s) = []
  ∧ _disposed (after_dispose s) = true
  ∧ isStopped S_currentRender (after_dispose s) = true
  ∧ isStopped S_renderCreated (after_dispose s) = true
  ∧ isStopped S_renderDisposed (after_dispose s) = true.
Proof.
  unfold after_dispose.
  repeat (split; [first
    [ rewrite !(λ st s, proj1 (completed_fields st s)); reflexivity
    | rewrite !(λ st s, proj1 (proj2 (completed_fields st s))); reflexivity
    | rewrite !(λ st s, proj1 (proj2 (proj2 (completed_fields st s)))); reflexivity
    | repeat first [apply isStopped_completed | apply isStopped_completed_mono] ] |]).
  apply isStopped_completed.
Qed.

(** A service that has been torn down: [dispose] changes nothing and only
    calls [complete] on subjects that have completed. *)
Lemma dispose_again s :
  _renderMap s = [] → _renderDependencies s = [] → _disposed s = true →
  isStopped S_currentRender s = true →
  isStopped S_renderCreated s = true →
  isStopped S_renderDisposed s = true →
  dispose s = (tt, s, [(EComplete S_currentRender, s);
                       (EComplete S_renderCreated, s);
                       (EComplete S_renderDisposed, s)]).
Proof.
  intros Hm Hd Hf H1 H2 H3. rewrite dispose_run.
  unfold after_dispose, teardown_calls. rewrite Hm. simpl.
  rewrite (with_disposed_id _ Hf), (with_renderDependencies_id _ Hd),
    (with_renderMap_nil_id _ Hm).
  rewrite (completed_id _ _ H1), (completed_id _ _ H2), (completed_id _ _ H3).
  reflexivity.
Qed.

Lemma delivered_stopped st (tr : list Obs) :
  Forall (λ o : Obs, isStopped st o.2 = true) tr → delivered st tr = [].
Proof.
  unfold delivered. induction 1 as [|o tr Ho _ IH]; [reflexivity|].
  simpl. rewrite IH, app_nil_r.
  destruct o.1; try reflexivity.
  destruct (decide (st0 = st)); [|reflexivity]. rewrite Ho. reflexivity.
Qed.

Ltac keeps_all :=
  keeps_unfold;
  repeat first
    [ keeps_step
    | progress unfold _tryAddRenderDependencies, RenderUnit_addRenderDependencies,
        Array_push, Array_remove, Subject_complete ].

(** A subject that has completed stays completed, whatever is done next. *)
Lemma stopped_forever st (o : Op) :
  keeps (λ s, isStopped st s = true) (λ _ _, True) (exec_op o).
Proof.
  destruct o; keeps_all;
    first [ apply keeps_call; intros; exact Logic.I
          | apply keeps_modify; intros s0 H0;
            first [ exact H0 | exact (isStopped_completed_mono st _ s0 H0) ] ].
Qed.

Lemma stopped_forever_exec st (ops : list Op) :
  keeps (λ s, isStopped st s = true) (λ _ _, True) (exec ops).
Proof. apply keeps_forEach. intros o. apply stopped_forever. Qed.

Lemma flat_map_singleton {A B} (h : A → B) (l : list A) :
  flat_map (λ x, [h x]) l = map h l.
Proof. induction l as [|x l IH]; simpl; [reflexivity | f_equal; exact IH]. Qed.

Lemma teardown_project {B} (f : Event → list B) (g : IRender → list B) (s : State) :
  (∀ r u, flat_map f (disposal_protocol r u true) = g u) →
  flat_map f (teardown_calls s) = flat_map g (live_units s).
Proof.
  intros Hfg. unfold teardown_calls, live_units.
  induction (_renderMap s) as [|[k r] m IH]; [reflexivity|].
  cbn [flat_map omap list_omap snd]. rewrite flat_map_app, IH.
  destruct (heap_renders s !! r) as [u|]; simpl; [|reflexivity].
  rewrite Hfg. reflexivity.
Qed.

Lemma delivered_app st (t1 t2 : list Obs) :
  delivered st (t1 ++ t2) = delivered st t1 ++ delivered st t2.
Proof. apply flat_map_app. Qed.

Lemma teardown_dispose_calls r u s :
  heap_renders s !! r = Some u →
  isDisposable u = true →
  dispose_calls_on r (events (trace dispose s)) = entries_holding r (_renderMap s).
Proof.
  intros Hu Hd.
  destruct (run_inv _ _ _ _ _ (dispose_run s)) as (_ & _ & ->).
  rewrite events_app, events_map_snapshot.
  unfold dispose_calls_on, disposed_renders. rewrite flat_map_app. simpl.
  rewrite app_nil_r. unfold teardown_calls, entries_holding.
  induction (_renderMap s) as [|[k r0] m IH]; [reflexivity|].
  cbn [flat_map]. rewrite flat_map_app, filter_app, length_app, IH.
  rewrite (filter_cons _ (k, r0) m). cbn [snd].
  destruct (decide (r0 = r)) as [->|Hne].
  - rewrite Hu.
    pose proof (disposal_protocol_renders r u true) as Hp.
    unfold disposed_renders in Hp. rewrite Hp, Hd.
    rewrite (filter_cons _ r []), decide_True by reflexivity. reflexivity.
  - assert (H0 : filter (λ x, x = r)
                   (flat_map (λ e, match e with ERenderDispose x => [x] | _ => [] end)
                      match heap_renders s !! r0 with
                      | Some u0 => disposal_protocol r0 u0 true
                      | None => []
                      end) = []).
    { destruct (heap_renders s !! r0) as [u0|]; [|reflexivity].
      pose proof (disposal_protocol_renders r0 u0 true) as Hp.
      unfold disposed_renders in Hp. rewrite Hp.
      destruct (isDisposable u0); [|reflexivity].
      rewrite (filter_cons _ r0 []), decide_False by exact Hne. reflexivity. }
    rewrite H0. reflexivity.
Qed.

(** C4, teardown, as the code has it.  [dispose] runs the disposal protocol,
    engine destruction included, once for every entry of the table, in the
    order of the table; it leaves the table and the module registry empty
    and the created and disposed streams completed, so that nothing done to
    the service later is delivered on them.  A second [dispose] changes
    nothing, disposes nothing and publishes nothing: its only calls are
    [complete] on subjects that have completed.  The protocol runs per
    entry, not per object: [dispose()] of a disposable unit is called as
    many times as the table has entries that hold it, once when it is held
    under one id, twice when [addRender] has placed it under a second. *)
Theorem C4_teardown (s : State) :
  let s' := final dispose s in
  let tr := trace dispose s in
  events tr = teardown_calls s
              ++ [EComplete S_currentRender; EComplete S_renderCreated;
                  EComplete S_renderDisposed]
  ∧ disposed_components (events tr) = flat_map (λ u, (components u).*2) (live_units s)
  ∧ disposed_scenes (events tr) = map scene (live_units s)
  ∧ disposed_engines (events tr) = map engine (live_units s)
  ∧ emitted S_renderDisposed (events tr) = map (λ u, PString (unitId u)) (live_units s)
  ∧ (isStopped S_renderDisposed s = false →
     delivered S_renderDisposed tr = map (λ u, PString (unitId u)) (live_units s))
  ∧ _renderMap s' = [] ∧ _renderDependencies s' = [] ∧ (∀ T, listFor T s' = [])
  ∧ isStopped S_renderCreated s' = true ∧ isStopped S_renderDisposed s' = true
  ∧ (∀ ops, delivered S_renderCreated (trace (exec ops) s') = []
            ∧ delivered S_renderDisposed (trace (exec ops) s') = [])
  ∧ final dispose s' = s'
  ∧ Forall is_idle_complete (trace dispose s')
  ∧ (∀ st, delivered st (trace dispose s') = [])
  ∧ (∀ r u, heap_renders s !! r = Some u → isDisposable u = true →
            dispose_calls_on r (events tr) = entries_holding r (_renderMap s)).
Proof.
  intros s' tr. subst s' tr.
  assert (Hcalls : ∀ r u, heap_renders s !! r = Some u → isDisposable u = true →
                          dispose_calls_on r
                            (teardown_calls s
                             ++ [EComplete S_currentRender; EComplete S_renderCreated;
                                 EComplete S_renderDisposed])
                          = entries_holding r (_renderMap s)).
  { intros r u Hu Hd. rewrite <- (teardown_dispose_calls r u s Hu Hd).
    destruct (run_inv _ _ _ _ _ (dispose_run s)) as (_ & _ & ->).
    rewrite events_app, events_map_snapshot. reflexivity. }
  destruct (run_inv _ _ _ _ _ (dispose_run s)) as (_ & -> & ->).
  destruct (after_dispose_facts s) as (Hm & Hd & Hf & H1 & H2 & H3).
  rewrite events_app, events_map_snapshot. simpl.
  split; [reflexivity|].
  unfold disposed_components, disposed_scenes, disposed_engines, emitted.
  rewrite !flat_map_app. simpl. rewrite !app_nil_r.
  split.
  { apply teardown_project. intros r u. apply disposal_protocol_components. }
  split.
  { rewrite <- flat_map_singleton. apply teardown_project.
    intros r u. apply disposal_protocol_scenes. }
  split.
  { rewrite <- flat_map_singleton. apply teardown_project.
    intros r u. apply (disposal_protocol_engines r u true). }
  assert (He : flat_map (λ e, match e with
                              | ENext st' p =>
                                  if decide (st' = S_renderDisposed) then [p] else []
                              | _ => []
                              end) (teardown_calls s)
               = map (λ u, PString (unitId u)) (live_units s)).
  { rewrite <- flat_map_singleton. apply teardown_project.
    intros r u. apply disposal_protocol_emitted. }
  split; [exact He|].
  split.
  { intros Hs. rewrite delivered_app, delivered_snapshot.
    change (isStopped S_renderDisposed (with_disposed true s))
      with (isStopped S_renderDisposed s).
    rewrite Hs. simpl. rewrite app_nil_r. exact He. }
  split; [exact Hm|]. split; [exact Hd|].
  split.
  { intros T. unfold listFor, result, _getRenderControllersForType, gets. simpl.
    rewrite Hd. reflexivity. }
  split; [exact H2|]. split; [exact H3|].
  split.
  { intros ops. split; apply delivered_stopped.
    - destruct (stopped_forever_exec S_renderCreated ops _ H2) as [_ Ht].
      eapply Forall_impl; [exact Ht | intros o [Ho _]; exact Ho].
    - destruct (stopped_forever_exec S_renderDisposed ops _ H3) as [_ Ht].
      eapply Forall_impl; [exact Ht | intros o [Ho _]; exact Ho]. }
  destruct (run_inv _ _ _ _ _ (dispose_again _ Hm Hd Hf H1 H2 H3)) as (_ & -> & ->).
  split; [reflexivity|].
  split.
  { repeat constructor; eexists; (split; [reflexivity | assumption]). }
  split; [intros st; reflexivity | exact Hcalls].
Qed.

(** C4 as stated fails: after [createRender("doc1")] and
    [addRender("alias", unit)] the table holds the one unit under two ids,
    and [dispose] runs the protocol on it twice: its [dispose()] is called
    twice, its scene and its engine are disposed twice, and its id is
    published twice. *)
Lemma C4_alias_disposed_twice : ¬ dispose_runs_once_per_unit.
Proof.
  intros H.
  assert (Hr : reachable demo_alias).
  { assert (Hs : reachable (final (exec_op (OCreateRender "doc1")) (init demo_service)))
      by exact (reachable_step _ (OCreateRender "doc1")
                  (reachable_init demo_service) Logic.I).
    assert (Hlt : op_ok (OAddRender "alias" 0)
                    (final (exec_op (OCreateRender "doc1")) (init demo_service)))
      by (vm_compute; lia).
    exact (reachable_step _ (OAddRender "alias" 0) Hs Hlt). }
  specialize (H demo_alias "doc1" 0 demo_sheet_unit Hr eq_refl eq_refl eq_refl).
  vm_compute in H. discriminate H.
Qed.

Lemma demo_alias_teardown :
  _renderMap demo_alias = [("doc1", 0); ("alias", 0)]
  ∧ length (heap_renders demo_alias) = 1
  ∧ disposed_renders (events (trace dispose demo_alias)) = [0; 0]
  ∧ disposed_scenes (events (trace dispose demo_alias)) = [0; 0]
  ∧ disposed_engines (events (trace dispose demo_alias)) = [0; 0]
  ∧ emitted S_renderDisposed (events (trace dispose demo_alias))
    = [PString "doc1"; PString "doc1"].
Proof. vm_compute. repeat split. Qed.

(** ** Registration (C2, C5, C8, C10) *)

Lemma ensureDependencies_run T s : ensureDependencies T s = (tt, ensured T s, []).
Proof.
  unfold ensureDependencies, ensured, bind, gets.
  destruct (Map_has T (_renderDependencies s)); reflexivity.
Qed.

Lemma with_heap_renders_id s : with_heap_renders (heap_renders s) s = s.
Proof. destruct s; reflexivity. Qed.

Lemma _tryAddRenderDependencies_final r deps s :
  final (_tryAddRenderDependencies r deps) s
  = with_heap_renders (inject deps r (heap_renders s)) s.
Proof.
  unfold final, _tryAddRenderDependencies, inject, deref, bind, gets.
  destruct (heap_renders s !! r) as [u|]; simpl;
    [|symmetry; apply with_heap_renders_id].
  destruct (instanceof_RenderUnit u); simpl;
    [reflexivity | symmetry; apply with_heap_renders_id].
Qed.

Lemma inject_loop_final T deps (m : list (string * UnitRef)) s :
  final (forEach (λ kv : string * UnitRef,
                    o <<- deref kv.2 ;;
                    match o with
                    | Some render =>
                        when (bool_decide (renderType render = T))
                             (_tryAddRenderDependencies kv.2 deps)
                    | None => ret tt
                    end) m) s
  = with_heap_renders (inject_loop T deps m (heap_renders s)) s.
Proof.
  revert s. induction m as [|[k r] m IH]; intros s.
  - symmetry. apply with_heap_renders_id.
  - cbn [forEach inject_loop snd]. unfold final in *. unfold bind at 1.
    set (body := bind (deref r) _).
    assert (Hb : (body s).1.2
                 = with_heap_renders
                     match heap_renders s !! r with
                     | Some render =>
                         if bool_decide (renderType render = T)
                         then inject deps r (heap_renders s) else heap_renders s
                     | None => heap_renders s
                     end s).
    { unfold body, deref. unfold bind at 1, gets at 1.
      destruct (heap_renders s !! r) as [u|]; simpl;
        [|symmetry; apply with_heap_renders_id].
      destruct (bool_decide (renderType u = T)); simpl;
        [|symmetry; apply with_heap_renders_id].
      rewrite <- _tryAddRenderDependencies_final. unfold final.
      destruct (_tryAddRenderDependencies r deps s) as [[? ?] ?]. reflexivity. }
    destruct (body s) as [[[] s1] t1]. simpl in Hb. subst s1.
    specialize (IH (with_heap_renders
                      match heap_renders s !! r with
                      | Some render =>
                          if bool_decide (renderType render = T)
                          then inject deps r (heap_renders s) else heap_renders s
                      | None => heap_renders s
                      end s)).
    destruct (forEach _ m _) as [[[] s2] t2]. simpl in *. exact IH.
Qed.

Lemma addRenderDependencies_receives T deps u :
  receives T (addRenderDependencies deps u) = receives T u.
Proof.
  unfold receives, addRenderDependencies, renderType, instanceof_RenderUnit.
  destruct u as [? ? ? ? ? ? ? ? []]; reflexivity.
Qed.

Lemma iter_addRenderDependencies_swap deps n u :
  Nat.iter n (addRenderDependencies deps) (addRenderDependencies deps u)
  = addRenderDependencies deps (Nat.iter n (addRenderDependencies deps) u).
Proof. induction n as [|n IH]; simpl; [reflexivity | rewrite IH; reflexivity]. Qed.

(** The cell [r] after the loop: injected into once for every entry of the
    table that holds [r], if its unit is one the loop injects into. *)
Lemma inject_loop_lookup T deps (m : list (string * UnitRef)) (h : list IRender) r u :
  h !! r = Some u →
  inject_loop T deps m h !! r
  = Some (if receives T u
          then Nat.iter (entries_holding r m) (addRenderDependencies deps) u
          else u).
Proof.
  revert h u. induction m as [|[k r0] m IH]; intros h u Hu.
  - simpl. rewrite Hu. destruct (receives T u); reflexivity.
  - cbn [inject_loop snd]. unfold entries_holding. rewrite filter_cons. simpl.
    destruct (decide (r0 = r)) as [->|Hne].
    + rewrite Hu. unfold inject. rewrite Hu.
      destruct (receives T u) eqn:Hrec.
      * unfold receives in Hrec. apply andb_prop in Hrec as [Ht Hi].
        rewrite Ht, Hi.
        rewrite (IH _ (addRenderDependencies deps u)).
        -- rewrite addRenderDependencies_receives.
           unfold receives. rewrite Ht, Hi. simpl.
           rewrite iter_addRenderDependencies_swap. reflexivity.
        -- rewrite list_lookup_alter_eq, Hu. reflexivity.
      * assert (Hsame : (if bool_decide (renderType u = T)
                         then if instanceof_RenderUnit u
                              then alter (addRenderDependencies deps) r h else h
                         else h) = h).
        { unfold receives in Hrec.
          destruct (bool_decide (renderType u = T)); [|reflexivity].
          simpl in Hrec. rewrite Hrec. reflexivity. }
        rewrite Hsame, (IH _ u Hu), Hrec. reflexivity.
    + assert (Hk : match h !! r0 with
                   | Some render =>
                       if bool_decide (renderType render = T)
                       then inject deps r0 h else h
                   | None => h
                   end !! r = Some u).
      { destruct (h !! r0) as [u0|] eqn:Hu0; [|exact Hu].
        destruct (bool_decide (renderType u0 = T)); [|exact Hu].
        unfold inject. rewrite Hu0.
        destruct (instanceof_RenderUnit u0); [|exact Hu].
        rewrite list_lookup_alter_ne by exact Hne. exact Hu. }
      rewrite (IH _ u Hk). reflexivity.
Qed.

Lemma ensured_lookup T s :
  Map_get T (_renderDependencies (ensured T s)) = Some (array_for T s)
  ∧ _renderMap (ensured T s) = _renderMap s
  ∧ heap_renders (ensured T s) = heap_renders s.
Proof.
  unfold array_for, ensured, Map_has.
  destruct (Map_get T (_renderDependencies s)) as [a|] eqn:Ha.
  - rewrite Ha. repeat split.
  - simpl. rewrite Map_get_set_eq. repeat split.
Qed.

Lemma registerRenderModules_run T deps s :
  (registerRenderModules T deps s).1
  = (toDisposable (array_for T s) deps, after_register T deps s).
Proof.
  destruct (ensured_lookup T s) as (Ha & Hm & Hh).
  unfold registerRenderModules.
  unfold bind at 1. rewrite ensureDependencies_run.
  unfold bind at 1. unfold gets at 1. rewrite Ha.
  unfold bind at 1. unfold Array_push, modify at 1.
  unfold bind at 1. unfold injectIntoMatching. unfold bind at 1, gets at 1.
  pose proof (inject_loop_final T deps
                (_renderMap (with_heap_arrays
                   (alter (λ l, l ++ deps) (array_for T s)
                      (heap_arrays (ensured T s))) (ensured T s)))
                (with_heap_arrays
                   (alter (λ l, l ++ deps) (array_for T s)
                      (heap_arrays (ensured T s))) (ensured T s))) as Hl.
  unfold final in Hl.
  destruct (forEach _ _ _) as [[[] s3] t3]. simpl in *. subst s3.
  unfold after_register. rewrite Hm, Hh. reflexivity.
Qed.

Lemma registerRenderModules_final T deps s :
  final (registerRenderModules T deps) s = after_register T deps s.
Proof. unfold final. rewrite registerRenderModules_run. reflexivity. Qed.

Lemma registerRenderModule_single T ctor s :
  registerRenderModule T ctor s = registerRenderModules T [ctor] s.
Proof. reflexivity. Qed.

Lemma listFor_after_register T deps s :
  registry_ok s →
  listFor T (after_register T deps s) = listFor T s ++ deps
  ∧ ∀ T', T' ≠ T → listFor T' (after_register T deps s) = listFor T' s.
Proof.
  intros [Halloc Hinj].
  unfold listFor, result, _getRenderControllersForType, gets, after_register. simpl.
  unfold array_for, ensured, Map_has.
  destruct (Map_get T (_renderDependencies s)) as [a|] eqn:Ha.
  - rewrite Ha. simpl. split.
    + pose proof (Halloc _ _ Ha) as Hlt.
      destruct (lookup_lt_is_Some_2 (heap_arrays s) a Hlt) as [l Hl].
      rewrite list_lookup_alter_eq, Hl. reflexivity.
    + intros T' Hne.
      destruct (Map_get T' (_renderDependencies s)) as [a'|] eqn:Ha'; [|reflexivity].
      rewrite list_lookup_alter_ne; [reflexivity|].
      intros ->. apply Hne. eapply Hinj; eassumption.
  - simpl. rewrite Map_get_set_eq. simpl. split.
    + rewrite alter_snoc, lookup_snoc. reflexivity.
    + intros T' Hne. rewrite Map_get_set_ne by congruence.
      destruct (Map_get T' (_renderDependencies s)) as [a'|] eqn:Ha'; [|reflexivity].
      pose proof (Halloc _ _ Ha') as Hlt.
      rewrite alter_snoc, lookup_app_l by exact Hlt. reflexivity.
Qed.

Lemma injected_of_iter deps n u :
  instanceof_RenderUnit u = true →
  injected_of (Nat.iter n (addRenderDependencies deps) u)
  = injected_of u ++ concat (replicate n deps)
  ∧ instanceof_RenderUnit (Nat.iter n (addRenderDependencies deps) u) = true.
Proof.
  intros Hi. induction n as [|n [IH1 IH2]]; simpl.
  - rewrite app_nil_r. split; [reflexivity | exact Hi].
  - set (v := Nat.iter n (addRenderDependencies deps) u) in *.
    assert (Hv : injected_of (addRenderDependencies deps v) = injected_of v ++ deps
                 ∧ instanceof_RenderUnit (addRenderDependencies deps v) = true).
    { clearbody v. unfold injected_of, addRenderDependencies, instanceof_RenderUnit in *.
      destruct v as [? ? ? ? ? ? ? ? []]; simpl in *; [split; reflexivity | discriminate]. }
    destruct Hv as [-> ->]. split; [|reflexivity].
    rewrite IH1, <- app_assoc. f_equal.
    clear. induction n as [|n IH]; simpl; [symmetry; apply app_nil_r|].
    rewrite <- app_assoc, IH. reflexivity.
Qed.

Lemma iter_addRenderDependencies_fields deps n u :
  let v := Nat.iter n (addRenderDependencies deps) u in
  unitId v = unitId u ∧ type v = type u ∧ engine v = engine u
  ∧ scene v = scene u ∧ components v = components u
  ∧ mainComponent v = mainComponent u ∧ isMainScene v = isMainScene u
  ∧ isThumbNail v = isThumbNail u.
Proof.
  induction n as [|n IH]; simpl; [repeat split|].
  set (v := Nat.iter n (addRenderDependencies deps) u) in *. clearbody v.
  unfold addRenderDependencies. destruct (kind v); simpl; exact IH.
Qed.

Lemma entries_holding_pos id r (m : list (string * UnitRef)) :
  Map_get id m = Some r → 1 ≤ entries_holding r m.
Proof.
  intros H. apply Map_get_In in H. unfold entries_holding.
  assert (Hin : (id, r) ∈ filter (λ kv : string * UnitRef, kv.2 = r) m).
  { apply list_elem_of_filter. split; [reflexivity | exact H]. }
  destruct (filter _ m); [inversion Hin | simpl; lia].
Qed.

Lemma with_injected u d :
  instanceof_RenderUnit u = true → d ∈ injected_of u → with_ u d = Some d.
Proof.
  unfold instanceof_RenderUnit, injected_of, with_.
  destruct (kind u); [|discriminate].
  intros _ Hd. destruct (decide (d ∈ injected)); [reflexivity | contradiction].
Qed.

(** C2, registration, as the code has it.  [registerRenderModules] appends
    the descriptors to the list of the type, creating the list if there is
    none, and leaves the other lists and the table alone.  It injects the
    descriptors into the units of the table that have the type and are
    instances of [RenderUnit], once for every entry of the table that holds
    the unit; such a unit then resolves every descriptor registered, without
    having been created again.  Every other unit (another type, or not an
    instance of [RenderUnit], as the thumbnail stub) is left as it is.
    [registerRenderModule] is the same for a single descriptor.  A unit
    [_createRender] builds afterwards for a document of the type has the
    whole list of the type injected. *)
Theorem C2_registration (s : State) (T : UnitType) (deps : list Dependency) :
  registry_ok s →
  let s' := final (registerRenderModules T deps) s in
  listFor T s' = listFor T s ++ deps
  ∧ (∀ T', T' ≠ T → listFor T' s' = listFor T' s)
  ∧ _renderMap s' = _renderMap s
  ∧ (∀ id r u,
       Map_get id (_renderMap s) = Some r →
       heap_renders s !! r = Some u →
       type u = T →
       instanceof_RenderUnit u = true →
       ∃ u', heap_renders s' !! r = Some u'
             ∧ 1 ≤ entries_holding r (_renderMap s)
             ∧ injected_of u'
               = injected_of u
                 ++ concat (replicate (entries_holding r (_renderMap s)) deps)
             ∧ (∀ d, d ∈ deps → with_ u' d = Some d)
             ∧ unitId u' = unitId u ∧ type u' = type u ∧ engine u' = engine u
             ∧ scene u' = scene u ∧ components u' = components u)
  ∧ (∀ r u, heap_renders s !! r = Some u →
            receives T u = false ∨ entries_holding r (_renderMap s) = 0 →
            heap_renders s' !! r = Some u)
  ∧ (∀ ctor, registerRenderModule T ctor s = registerRenderModules T [ctor] s)
  ∧ (∀ id eng main unit,
       getUnit (_univerInstanceService s') id = Some unit →
       getUnitType (_univerInstanceService s') id = T →
       ∃ u, heap_renders (final (_createRender id eng main) s')
              !! result (_createRender id eng main) s' = Some u
            ∧ kind u = RenderUnitInstance (listFor T s ++ deps)).
Proof.
  intros Hok s'. subst s'. rewrite registerRenderModules_final.
  destruct (listFor_after_register T deps s Hok) as [Hl Hl'].
  split; [exact Hl|]. split; [exact Hl'|].
  split; [apply ensured_lookup|].
  assert (Hheap : heap_renders (after_register T deps s)
                  = inject_loop T deps (_renderMap s) (heap_renders s)) by reflexivity.
  split.
  { intros id r u Hr Hu Ht Hi. rewrite Hheap.
    rewrite (inject_loop_lookup _ _ _ _ _ _ Hu).
    assert (Hrec : receives T u = true).
    { unfold receives, renderType. rewrite Hi, andb_true_r.
      apply bool_decide_eq_true, Ht. }
    rewrite Hrec. eexists. split; [reflexivity|].
    pose proof (entries_holding_pos _ _ _ Hr) as Hpos.
    destruct (injected_of_iter deps (entries_holding r (_renderMap s)) u Hi)
      as [Hinj Hinst].
    destruct (iter_addRenderDependencies_fields deps
                (entries_holding r (_renderMap s)) u)
      as (F1 & F2 & F3 & F4 & F5 & _).
    split; [exact Hpos|]. split; [exact Hinj|].
    split; [|repeat split; assumption].
    intros d Hd. apply with_injected; [exact Hinst|].
    rewrite Hinj. apply elem_of_app. right.
    destruct (entries_holding r (_renderMap s)) as [|n]; [lia|].
    simpl. apply elem_of_app. left. exact Hd. }
  split.
  { intros r u Hu Hcase. rewrite Hheap, (inject_loop_lookup _ _ _ _ _ _ Hu).
    destruct Hcase as [-> | ->]; [reflexivity|].
    destruct (receives T u); reflexivity. }
  split; [intros ctor; reflexivity|].
  intros id eng main unit Hunit HT.
  destruct (run_inv _ _ _ _ _ (_createRender_run id eng main (after_register T deps s)))
    as (-> & -> & _).
  eexists. split; [apply lookup_snoc|].
  unfold built_unit. rewrite Hunit, HT, Hl. reflexivity.
Qed.

(** C2 as stated fails: a thumbnail stub has the slide type, is in the
    table, and does not get the modules registered for the slide type. *)
Lemma C2_stub_not_injected : ¬ injects_into_every_unit_of_type.
Proof.
  intros H.
  destruct (H demo_thumb UNIVER_SLIDE [7] "thumb1" 0
              (thumbnail_stub "thumb1" 0 0 true) eq_refl eq_refl eq_refl)
    as (u' & Hu' & Hw).
  vm_compute in Hu'. injection Hu' as <-.
  specialize (Hw 7 ltac:(left)). discriminate Hw.
Qed.

Lemma final_bind {A B} (m : M A) (k : A → M B) s :
  final (bind m k) s = final (k (result m s)) (final m s).
Proof.
  unfold final, result, bind. destruct (m s) as [[a s1] t1]. simpl.
  destruct (k a s1) as [[b s2] t2]. reflexivity.
Qed.

Lemma trace_bind {A B} (m : M A) (k : A → M B) s :
  trace (bind m k) s = trace m s ++ trace (k (result m s)) (final m s).
Proof.
  unfold trace, final, result, bind. destruct (m s) as [[a s1] t1]. simpl.
  destruct (k a s1) as [[b s2] t2]. reflexivity.
Qed.

Lemma inject_types deps r (h : list IRender) r' :
  renderType <$> (inject deps r h !! r') = renderType <$> (h !! r').
Proof.
  unfold inject. destruct (h !! r) as [u|] eqn:Hu; [|reflexivity].
  destruct (instanceof_RenderUnit u); [|reflexivity].
  destruct (decide (r = r')) as [<-|Hne].
  - rewrite list_lookup_alter_eq, Hu. simpl. f_equal.
    unfold renderType, addRenderDependencies. destruct (kind u); reflexivity.
  - rewrite list_lookup_alter_ne by exact Hne. reflexivity.
Qed.

Lemma match_list_ext T (m : list (string * UnitRef)) (h h' : list IRender) :
  (∀ r, renderType <$> (h' !! r) = renderType <$> (h !! r)) →
  match_list T m h' = match_list T m h.
Proof.
  intros Hty. unfold match_list. induction m as [|[k r] m IH]; [reflexivity|].
  simpl. rewrite IH. f_equal. specialize (Hty r).
  destruct (h' !! r) as [u'|], (h !! r) as [u|]; simpl in Hty;
    try discriminate; [|reflexivity].
  injection Hty as ->. reflexivity.
Qed.

Lemma inject_loop_fold T deps (m : list (string * UnitRef)) (h : list IRender) :
  inject_loop T deps m h
  = foldl (λ h r, inject deps r h) h (match_list T m h).
Proof.
  revert h. induction m as [|[k r] m IH]; intros h; [reflexivity|].
  cbn [inject_loop snd]. unfold match_list. cbn [flat_map snd].
  fold (match_list T m h).
  destruct (h !! r) as [u|] eqn:Hu; [|apply IH].
  destruct (bool_decide (renderType u = T)); [|apply IH].
  rewrite IH. simpl.
  rewrite (match_list_ext T m h (inject deps r h)); [reflexivity|].
  intros r'. apply inject_types.
Qed.

Lemma forEach_try_final deps (l : list UnitRef) s :
  final (forEach (λ r, _tryAddRenderDependencies r deps) l) s
  = with_heap_renders (foldl (λ h r, inject deps r h) (heap_renders s) l) s.
Proof.
  revert s. induction l as [|r l IH]; intros s.
  - symmetry. apply with_heap_renders_id.
  - cbn [forEach foldl]. rewrite final_bind, IH, _tryAddRenderDependencies_final.
    reflexivity.
Qed.

(** The registration loop visits the units [getAllRenderersOfType] returns
    for the type and calls [_tryAddRenderDependencies] on each. *)
Lemma injectIntoMatching_visits T deps s :
  final (injectIntoMatching T deps) s
  = final (forEach (λ r, _tryAddRenderDependencies r deps) (matching_units T s)) s.
Proof.
  unfold injectIntoMatching. rewrite final_bind.
  change (final (gets _renderMap) s) with s.
  change (result (gets _renderMap) s) with (_renderMap s).
  rewrite inject_loop_final, forEach_try_final, inject_loop_fold. reflexivity.
Qed.

Lemma matching_units_In T s id r u :
  Map_get id (_renderMap s) = Some r →
  heap_renders s !! r = Some u →
  type u = T →
  r ∈ matching_units T s.
Proof.
  intros Hr Hu Ht. apply Map_get_In in Hr.
  unfold matching_units, result, getAllRenderersOfType, gets. simpl.
  apply list_elem_of_In, in_flat_map. exists (id, r).
  split; [apply list_elem_of_In, Hr|].
  simpl. rewrite Hu. unfold renderType.
  rewrite bool_decide_eq_true_2 by exact Ht. left. reflexivity.
Qed.

Lemma _tryAddRenderDependencies_literal r deps s u :
  heap_renders s !! r = Some u →
  instanceof_RenderUnit u = false →
  _tryAddRenderDependencies r deps s = (tt, s, []).
Proof.
  intros Hu Hi. unfold _tryAddRenderDependencies, deref, bind, gets.
  rewrite Hu, Hi. reflexivity.
Qed.

(** C10, the type of thumbnail stubs.  The unit [createRender] builds for an
    id without a document is tagged [UNIVER_SLIDE], whatever the id.  A unit
    of the table with that tag is among the units [getAllRenderersOfType]
    returns for the slide type, which are the units the registration loop
    visits; on the stub the visit changes nothing and injects nothing, so
    registering modules for the slide type leaves it as it is. *)
Theorem C10_stub_is_slide (s : State) (id : string) :
  getUnit (_univerInstanceService s) id = None →
  let r := result (createRender id) s in
  let s' := final (createRender id) s in
  ∃ u, heap_renders s' !! r = Some u
       ∧ u = thumbnail_stub id (heap_engines s) (length (heap_scenes s)) true
       ∧ type u = UNIVER_SLIDE
       ∧ isThumbNail u = true
       ∧ result (getRenderById id) s' = Some r
       ∧ r ∈ result (getAllRenderersOfType UNIVER_SLIDE) s'
       ∧ (∀ deps,
            final (injectIntoMatching UNIVER_SLIDE deps) s'
            = final (forEach (λ r0, _tryAddRenderDependencies r0 deps)
                       (result (getAllRenderersOfType UNIVER_SLIDE) s')) s'
            ∧ _tryAddRenderDependencies r deps s' = (tt, s', [])
            ∧ heap_renders (final (registerRenderModules UNIVER_SLIDE deps) s') !! r
              = Some u)
       ∧ (∀ s0 k r0 id0 e sc m,
            Map_get k (_renderMap s0) = Some r0 →
            heap_renders s0 !! r0 = Some (thumbnail_stub id0 e sc m) →
            r0 ∈ result (getAllRenderersOfType UNIVER_SLIDE) s0).
Proof.
  intros Hnone r s'. subst r s'.
  destruct (run_inv _ _ _ _ _ (createRender_run id s)) as (-> & -> & _).
  set (s0 := with_heap_engines (S (heap_engines s)) s).
  set (s' := after_createRender id (heap_engines s) true s0).
  set (u := thumbnail_stub id (heap_engines s) (length (heap_scenes s)) true).
  assert (Hu : heap_renders s' !! length (heap_renders s) = Some u).
  { unfold s', after_createRender, built_unit. simpl. rewrite Hnone. apply lookup_snoc. }
  assert (Hr : Map_get id (_renderMap s') = Some (length (heap_renders s))).
  { apply Map_get_set_eq. }
  exists u. split; [exact Hu|]. split; [reflexivity|].
  split; [reflexivity|]. split; [reflexivity|]. split; [exact Hr|].
  split; [exact (matching_units_In UNIVER_SLIDE s' id _ u Hr Hu eq_refl)|].
  split.
  - intros deps.
    split; [apply injectIntoMatching_visits|].
    split; [exact (_tryAddRenderDependencies_literal _ deps s' u Hu eq_refl)|].
    rewrite registerRenderModules_final.
    change (heap_renders (after_register UNIVER_SLIDE deps s'))
      with (inject_loop UNIVER_SLIDE deps (_renderMap s') (heap_renders s')).
    rewrite (inject_loop_lookup _ _ _ _ _ _ Hu). reflexivity.
  - intros st k r0 id0 e sc m Hk Hst.
    exact (matching_units_In UNIVER_SLIDE st k r0 _ Hk Hst eq_refl).
Qed.

(** ** Thumbnail stubs are never injected into (C5) *)

Ltac keeps_methods :=
  unfold exec_op, createRender, _createRender, removeRender, setCurrent, create,
    addRender, _addRenderUnit, registerRenderModules, registerRenderModule,
    injectIntoMatching, IDisposable_dispose, defaultEngine,
    dispose, _disposeItem, getRenderById, deref, _getRenderControllersForType,
    createInstance_RenderUnit, new_Engine, new_Scene, new_IRender,
    Subject_next, Disposable_dispose;
  repeat keeps_step.

Lemma literal_tryAdd r u r' deps :
  instanceof_RenderUnit u = false →
  keeps (holds_literal r u) (no_injection_into r) (_tryAddRenderDependencies r' deps).
Proof.
  intros Hi s Hs. unfold holds_literal in *.
  unfold final, trace, _tryAddRenderDependencies, deref, bind, gets.
  destruct (heap_renders s !! r') as [u'|] eqn:Hu'; simpl; [|split; [exact Hs | constructor]].
  destruct (instanceof_RenderUnit u') eqn:Hi'; simpl; [|split; [exact Hs | constructor]].
  assert (Hne : r' ≠ r).
  { intros ->. rewrite Hs in Hu'. injection Hu' as ->. congruence. }
  split.
  - rewrite list_lookup_alter_ne by exact Hne. exact Hs.
  - constructor; [|constructor]. split; [exact Hs|].
    intros deps' [=]. congruence.
Qed.

Lemma literal_forever r u (o : Op) :
  instanceof_RenderUnit u = false →
  keeps (holds_literal r u) (no_injection_into r) (exec_op o).
Proof.
  intros Hi.
  destruct o; keeps_methods;
    first
      [ apply (literal_tryAdd r u _ _ Hi)
      | apply keeps_call; intros ? ? ?; discriminate
      | apply keeps_modify; unfold holds_literal; simpl;
        let H := fresh in
        intros ? H; first [ exact H | apply lookup_app_l_Some; exact H ]
      | unfold ensureDependencies, new_Array, Array_push, Array_remove,
          Subject_complete;
        repeat keeps_step;
        first
          [ apply keeps_call; intros ? ? ?; discriminate
          | apply keeps_modify; unfold holds_literal; simpl;
            let H := fresh in
            intros ? H;
            first [ exact H
                  | match goal with
                    | |- context [isStopped ?st ?x] => destruct (isStopped st x)
                    end; exact H ] ] ].
Qed.

Lemma literal_forever_exec r u (ops : list Op) :
  instanceof_RenderUnit u = false →
  keeps (holds_literal r u) (no_injection_into r) (exec ops).
Proof. intros Hi. apply keeps_forEach. intros o. apply literal_forever, Hi. Qed.

(** C5, the thumbnail stub.  For an id the document registry has no model
    for, [createRender] returns a stub: [isThumbNail] is true, the
    components map is empty, there is no main component, and [with] answers
    absent for every identifier.  No module is injected into it when it is
    created, and none ever after, whatever is registered or done to the
    service later: the stub stays as it was built. *)
Theorem C5_thumbnail_stub (s : State) (id : string) :
  getUnit (_univerInstanceService s) id = None →
  let r := result (createRender id) s in
  let s' := final (createRender id) s in
  let tr := trace (createRender id) s in
  ∃ u, heap_renders s' !! r = Some u
       ∧ isThumbNail u = true
       ∧ components u = []
       ∧ mainComponent u = None
       ∧ (∀ d, with_ u d = None)
       ∧ injected_of u = []
       ∧ Forall (λ o : Obs, ∀ r0 deps, o.1 ≠ EAddRenderDependencies r0 deps) tr
       ∧ (∀ T deps,
            heap_renders (final (registerRenderModules T deps) s') !! r = Some u)
       ∧ (∀ ops,
            heap_renders (final (exec ops) s') !! r = Some u
            ∧ Forall (λ o : Obs, ∀ deps, o.1 ≠ EAddRenderDependencies r deps)
                (trace (exec ops) s'))
       ∧ (∀ T d m,
            getCurrentUnitForType (_univerInstanceService s') T = Some m →
            model_unitId m = id →
            result (withCurrentTypeOfUnit T d) s' = None).
Proof.
  intros Hnone r s' tr. subst r s' tr.
  destruct (run_inv _ _ _ _ _ (createRender_run id s)) as (-> & -> & ->).
  set (s0 := with_heap_engines (S (heap_engines s)) s).
  set (s' := after_createRender id (heap_engines s) true s0).
  set (u := thumbnail_stub id (heap_engines s) (length (heap_scenes s)) true).
  assert (Hu : heap_renders s' !! length (heap_renders s) = Some u).
  { unfold s', after_createRender, built_unit. simpl. rewrite Hnone. apply lookup_snoc. }
  assert (Hr : Map_get id (_renderMap s') = Some (length (heap_renders s))).
  { apply Map_get_set_eq. }
  exists u. split; [exact Hu|].
  do 5 (split; [reflexivity|]).
  split.
  { constructor; [intros; discriminate|].
    apply Forall_app. split; [|constructor; [intros; discriminate | constructor]].
    unfold trace_createRender. simpl. rewrite Hnone.
    apply Forall_app. split.
    - apply Forall_map. unfold old_disposal.
      destruct (Map_get id (_renderMap s0)) as [r0|]; [|constructor].
      destruct (heap_renders s0 !! r0) as [u0|]; [|constructor].
      unfold disposal_protocol.
      repeat (apply Forall_app; split).
      + apply Forall_map, Forall_true. intros; discriminate.
      + constructor; [intros; discriminate | constructor].
      + destruct (isDisposable u0); repeat constructor; intros; discriminate.
      + destruct (shouldDestroy _ _ _); repeat constructor; intros; discriminate.
      + constructor; [intros; discriminate | constructor].
    - repeat constructor; intros; discriminate. }
  split.
  { intros T deps. rewrite registerRenderModules_final.
    change (heap_renders (after_register T deps s'))
      with (inject_loop T deps (_renderMap s') (heap_renders s')).
    rewrite (inject_loop_lookup _ _ _ _ _ _ Hu).
    unfold receives. simpl. rewrite andb_false_r. reflexivity. }
  split.
  { intros ops.
    destruct (literal_forever_exec (length (heap_renders s)) u ops eq_refl s' Hu)
      as [Hf Ht].
    split; [exact Hf|].
    eapply Forall_impl; [exact Ht|]. intros o [_ Ho]. exact Ho. }
  intros T d m Hcur Hid.
  unfold result, withCurrentTypeOfUnit, bind, gets, getRenderById, deref, gets, ret.
  simpl in Hcur |- *. rewrite Hcur. simpl. rewrite Hid.
  fold s0. change (Map_set id (length (heap_renders s)) (_renderMap s))
    with (_renderMap s'). rewrite Hr. simpl.
  change (heap_renders s ++ [built_unit id (heap_engines s) true s0])
    with (heap_renders s'). rewrite Hu. reflexivity.
Qed.

(** ** Disposal handles (C8) *)

Lemma foldl_alter_remove (a : ArrayRef) (deps : list Dependency)
    (arrs : list (list Dependency)) :
  length (foldl (λ arrs dep, alter (remove dep) a arrs) arrs deps) = length arrs
  ∧ (∀ a', foldl (λ arrs dep, alter (remove dep) a arrs) arrs deps !! a'
           = if decide (a' = a) then remove_each deps <$> arrs !! a'
             else arrs !! a').
Proof.
  revert arrs. induction deps as [|d deps IH]; intros arrs.
  - split; [reflexivity|]. intros a'. unfold remove_each. simpl.
    destruct (decide (a' = a)); [|reflexivity].
    destruct (arrs !! a'); reflexivity.
  - cbn [foldl]. destruct (IH (alter (remove d) a arrs)) as [IHl IHa].
    split; [rewrite IHl; apply length_alter|].
    intros a'. rewrite IHa.
    destruct (decide (a' = a)) as [->|Hne].
    + rewrite list_lookup_alter_eq. unfold remove_each.
      destruct (arrs !! a); reflexivity.
    + rewrite list_lookup_alter_ne by congruence. reflexivity.
Qed.

Lemma IDisposable_dispose_run h s :
  IDisposable_dispose h s
  = (tt,
     with_heap_arrays
       (foldl (λ arrs dep, alter (remove dep) (captured_dependencies h) arrs)
          (heap_arrays s) (captured_deps h)) s,
     []).
Proof.
  unfold IDisposable_dispose. generalize (captured_deps h) as deps.
  intros deps. revert s. induction deps as [|d deps IH]; intros s.
  - simpl. unfold ret. destruct s; reflexivity.
  - cbn [forEach foldl]. unfold bind, Array_remove at 1, modify at 1.
    rewrite IH. reflexivity.
Qed.




Lemma bound_to_frame T a s s' :
  _renderDependencies s' = _renderDependencies s →
  length (heap_arrays s') = length (heap_arrays s) →
  bound_to T a s → bound_to T a s'.
Proof.
  intros Hr Hl [[Halloc Hinj] Hb]. unfold bound_to, registry_ok.
  rewrite Hr, Hl. repeat split; assumption.
Qed.

Lemma registry_ok_ensured T s : registry_ok s → registry_ok (ensured T s).
Proof.
  intros [Halloc Hinj]. unfold ensured, Map_has.
  destruct (Map_get T (_renderDependencies s)) eqn:Hn; [split; assumption|].
  split; simpl.
  - intros T0 a0. rewrite length_app. simpl.
    destruct (decide (T = T0)) as [<-|Hne].
    + rewrite Map_get_set_eq. intros [= <-]. lia.
    + rewrite Map_get_set_ne by exact Hne. intros H0. apply Halloc in H0. lia.
  - intros T1 T2 a0.
    destruct (decide (T = T1)) as [<-|Hne1], (decide (T = T2)) as [<-|Hne2];
      rewrite ?Map_get_set_eq, ?Map_get_set_ne by assumption.
    + reflexivity.
    + intros [= <-] H2. apply Halloc in H2. lia.
    + intros H1 [= <-]. apply Halloc in H1. lia.
    + apply Hinj.
Qed.


Lemma keeps_ensureDependencies (I : State → Prop) Q T :
  (∀ s, I s → I (ensured T s)) → keeps I Q (ensureDependencies T).
Proof.
  intros H s Hs. unfold final, trace. rewrite ensureDependencies_run.
  split; [apply H, Hs | constructor].
Qed.



Lemma bound_after_register T deps s :
  registry_ok s → bound_to T (array_for T s) (after_register T deps s).
Proof.
  intros Hok. apply (bound_to_frame T _ (ensured T s)).
  - reflexivity.
  - unfold after_register. simpl. apply length_alter.
  - split; [apply registry_ok_ensured, Hok | apply ensured_lookup].
Qed.


(** ** The map [getRenderAll] returns (C6) *)

(** C6 as stated fails: the map returned before [createRender("doc1")] shows
    the new unit afterwards. *)
Lemma C6_result_is_altered : ¬ getRenderAll_is_snapshot.
Proof.
  intros H. destruct (H (init demo_service) "doc1" 0) as [Hc _].
  vm_compute in Hc. discriminate Hc.
Qed.

(** C6, as the code has it.  [getRenderAll] returns the table itself: it
    makes no call and changes nothing, the map returned holds exactly the
    units of the table, and read at any later moment it holds exactly the
    units of the table of that moment, so that later [createRender],
    [addRender] and [removeRender] show through it. *)
Theorem C6_getRenderAll_live (s : State) :
  let m := result getRenderAll s in
  getRenderAll s = (m, s, [])
  ∧ Map_entries m s = _renderMap s
  ∧ (∀ id, Map_get id (Map_entries m s) = result (getRenderById id) s)
  ∧ (∀ ops, Map_entries m (final (exec ops) s) = _renderMap (final (exec ops) s))
  ∧ (∀ id, Map_get id (Map_entries m (final (createRender id) s))
           = Some (result (createRender id) s))
  ∧ (∀ id item, Map_get id (Map_entries m (final (addRender id item) s)) = Some item)
  ∧ (∀ id, Map_get id (Map_entries m (final (removeRender id) s)) = None).
Proof.
  intros m. subst m.
  change (result getRenderAll s) with renderMap_object.
  unfold Map_entries.
  split; [reflexivity|]. split; [reflexivity|]. split; [reflexivity|].
  split; [reflexivity|].
  split.
  { intros id.
    destruct (run_inv _ _ _ _ _ (createRender_run id s)) as (-> & -> & _).
    apply Map_get_set_eq. }
  split.
  { intros id item. apply Map_get_set_eq. }
  intros id. unfold final, removeRender, bind, gets, modify.
  pose proof (_disposeItem_state (Map_get id (_renderMap s)) true s) as Hd.
  destruct (Map_get id (_renderMap s)) as [r|] eqn:Hr.
  - destruct (_disposeItem (Some r) true s) as [[[] s0] t0].
    simpl in Hd. injection Hd as ->. simpl. apply Map_get_delete_eq.
  - simpl. apply Map_get_delete_eq.
Qed.

(** ** The well-formedness conditions are invariants *)

Lemma store_ok_frame s s' :
  _renderMap s' = _renderMap s →
  length (heap_renders s) ≤ length (heap_renders s') →
  store_ok s → store_ok s'.
Proof.
  intros Hm Hl Hok id r Hr. rewrite Hm in Hr. apply Hok in Hr. lia.
Qed.

Lemma registry_ok_frame s s' :
  _renderDependencies s' = _renderDependencies s →
  length (heap_arrays s') = length (heap_arrays s) →
  registry_ok s → registry_ok s'.
Proof.
  intros Hr Hl [Halloc Hinj]. unfold registry_ok. rewrite Hr, Hl.
  split; assumption.
Qed.

Lemma removeRender_final id s :
  final (removeRender id) s = with_renderMap (Map_delete id (_renderMap s)) s.
Proof.
  destruct (Map_get id (_renderMap s)) as [r|] eqn:Hr.
  - unfold final, removeRender, bind, gets, modify. rewrite Hr.
    pose proof (_disposeItem_state (Some r) true s) as Hd.
    destruct (_disposeItem (Some r) true s) as [[[] s0] t0].
    simpl in Hd. injection Hd as ->. reflexivity.
  - unfold final. rewrite removeRender_absent by exact Hr. simpl.
    rewrite Map_delete_absent by exact Hr. symmetry. apply with_renderMap_id.
Qed.

Lemma store_ok_ensured T s : store_ok s → store_ok (ensured T s).
Proof.
  destruct (ensured_lookup T s) as (_ & Hm & Hh).
  apply store_ok_frame; [exact Hm | rewrite Hh; reflexivity].
Qed.

Lemma store_ok_step (o : Op) s :
  store_ok s → op_ok o s → store_ok (final (exec_op o) s).
Proof.
  intros Hok Hop.
  assert (Hrest : keeps store_ok (λ _ _, True) (exec_op o) →
                  store_ok (final (exec_op o) s)).
  { intros Hk. apply Hk, Hok. }
  destruct o; simpl in Hop.
  - (* createRender *)
    unfold exec_op. rewrite final_bind.
    change (final (ret tt) (final (createRender unitId0) s))
      with (final (createRender unitId0) s).
    destruct (run_inv _ _ _ _ _ (createRender_run unitId0 s)) as (_ & -> & _).
    intros id r. unfold after_createRender. simpl. rewrite length_app. simpl.
    destruct (decide (unitId0 = id)) as [<-|Hne].
    + rewrite Map_get_set_eq. intros [= <-]. lia.
    + rewrite Map_get_set_ne by exact Hne. intros Hr. apply Hok in Hr. lia.
  - (* addRender *)
    intros id r. simpl.
    destruct (decide (unitId0 = id)) as [<-|Hne].
    + rewrite Map_get_set_eq. intros [= <-]. exact Hop.
    + rewrite Map_get_set_ne by exact Hne. apply Hok.
  - (* removeRender *)
    unfold exec_op. rewrite removeRender_final. intros id r. simpl.
    destruct (decide (unitId0 = id)) as [<-|Hne].
    + rewrite Map_get_delete_eq. discriminate.
    + rewrite Map_get_delete_ne by exact Hne. apply Hok.
  - apply Hrest. keeps_methods;
      first [ apply keeps_call; intros; exact Logic.I
            | apply keeps_modify; intros ?; apply store_ok_frame; reflexivity ].
  - apply Hrest. keeps_methods. apply keeps_call; intros; exact Logic.I.
  - apply Hrest. keeps_methods;
      first
        [ apply keeps_ensureDependencies; intros ?; apply store_ok_ensured
        | unfold _tryAddRenderDependencies, RenderUnit_addRenderDependencies,
            Array_push;
          repeat keeps_step;
          first
            [ apply keeps_call; intros; exact Logic.I
            | apply keeps_modify; intros ?; apply store_ok_frame;
              [ reflexivity | simpl; rewrite ?length_alter; reflexivity ] ] ].
  - apply Hrest. keeps_methods;
      first
        [ apply keeps_ensureDependencies; intros ?; apply store_ok_ensured
        | unfold _tryAddRenderDependencies, RenderUnit_addRenderDependencies,
            Array_push;
          repeat keeps_step;
          first
            [ apply keeps_call; intros; exact Logic.I
            | apply keeps_modify; intros ?; apply store_ok_frame;
              [ reflexivity | simpl; rewrite ?length_alter; reflexivity ] ] ].
  - apply Hrest. keeps_methods. unfold Array_remove.
    apply keeps_modify; intros ?; apply store_ok_frame; reflexivity.
  - apply Hrest. keeps_methods;
      first [ apply keeps_call; intros; exact Logic.I
            | apply keeps_modify; intros ?; apply store_ok_frame; reflexivity ].
  - (* dispose *)
    unfold exec_op. destruct (run_inv _ _ _ _ _ (dispose_run s)) as (_ & -> & _).
    intros id r. destruct (after_dispose_facts s) as (-> & _). discriminate.
  - apply Hrest. keeps_methods.
    apply keeps_modify; intros ?; apply store_ok_frame;
      [ reflexivity | simpl; rewrite length_app; lia ].
  - apply Hrest. keeps_methods;
      first [ apply keeps_call; intros; exact Logic.I
            | apply keeps_modify; intros ?; apply store_ok_frame; reflexivity ].
  - apply Hrest. keeps_methods.
    apply keeps_modify; intros ?; apply store_ok_frame; reflexivity.
Qed.

Lemma registry_ok_step (o : Op) s :
  registry_ok s → registry_ok (final (exec_op o) s).
Proof.
  intros Hok.
  assert (Hk : keeps registry_ok (λ _ _, True) (exec_op o)); [|apply Hk, Hok].
  destruct o; keeps_methods;
    first
      [ apply keeps_ensureDependencies; intros ?; apply registry_ok_ensured
      | apply keeps_call; intros; exact Logic.I
      | apply keeps_modify; intros ? ?; split; simpl; intros; discriminate
      | unfold _tryAddRenderDependencies, RenderUnit_addRenderDependencies,
          Array_push, Array_remove, Subject_complete;
        repeat keeps_step;
        first
          [ apply keeps_call; intros; exact Logic.I
          | apply keeps_modify; intros ?;
            apply registry_ok_frame;
            first
              [ reflexivity
              | simpl; rewrite ?length_alter; reflexivity
              | match goal with
                | |- context [isStopped ?st ?x] => destruct (isStopped st x)
                end; reflexivity ] ] ].
Qed.

(** Every store the service can be in is well formed. *)
Lemma reachable_ok s : reachable s → store_ok s ∧ registry_ok s.
Proof.
  induction 1 as [svc | s o _ [IH1 IH2] Hop].
  - split; [intros id r; discriminate|].
    split; [intros T a; discriminate | intros T1 T2 a; discriminate].
  - split; [apply store_ok_step; assumption | apply registry_ok_step; assumption].
Qed.

(** ** The theorems at work on concrete stores *)

Lemma C1_replacement_witness :
  disposed_components (events (trace (_createRender "doc1" 7 true) demo_sheet)) = [5; 6]
  ∧ disposed_scenes (events (trace (_createRender "doc1" 7 true) demo_sheet)) = [0]
  ∧ disposed_engines (events (trace (_createRender "doc1" 7 true) demo_sheet)) = [0]
  ∧ disposed_engines (events (trace (_createRender "doc1" 0 true) demo_sheet)) = [].
Proof.
  destruct (proj1 C1_replacement_safety demo_sheet "doc1" 7 true 0 demo_sheet_unit
              eq_refl eq_refl) as (_ & Hc & Hs & _ & _ & He).
  destruct (proj1 C1_replacement_safety demo_sheet "doc1" 0 true 0 demo_sheet_unit
              eq_refl eq_refl) as (_ & _ & _ & _ & _ & He0).
  repeat split; assumption.
Defined.

Lemma C2_registration_witness :
  listFor UNIVER_SHEET (final (registerRenderModules UNIVER_SHEET [7]) demo_sheet) = [7]
  ∧ ∃ u', heap_renders (final (registerRenderModules UNIVER_SHEET [7]) demo_sheet) !! 0
          = Some u'
          ∧ with_ u' 7 = Some 7.
Proof.
  assert (Hok : registry_ok demo_sheet).
  { split; [intros T a H | intros T1 T2 a H]; discriminate H. }
  destruct (C2_registration demo_sheet UNIVER_SHEET [7] Hok)
    as (Hl & _ & _ & Hinj & _).
  split; [exact Hl|].
  destruct (Hinj "doc1" 0 demo_sheet_unit eq_refl eq_refl eq_refl eq_refl)
    as (u' & Hu' & _ & _ & Hw & _).
  exists u'. split; [exact Hu'|]. apply Hw. left.
Defined.

Lemma C3_removeRender_witness :
  removeRender "nope" demo_sheet = (tt, demo_sheet, [])
  ∧ events (trace (removeRender "doc1") demo_sheet)
    = [EComponentDispose 5; EComponentDispose 6; ESceneDispose 0;
       ERenderDispose 0; EEngineDispose 0;
       ENext S_renderDisposed (PString "doc1")]
  ∧ delivered S_renderDisposed (trace (removeRender "doc1") demo_sheet)
    = [PString "doc1"]
  ∧ result (has "doc1") (final (removeRender "doc1") demo_sheet) = false.
Proof.
  split; [exact (proj1 C3_removeRender demo_sheet "nope" eq_refl)|].
  destruct (proj2 C3_removeRender demo_sheet "doc1" 0 demo_sheet_unit eq_refl eq_refl)
    as (He & _ & _ & Hd & Hh & _).
  split; [exact He|]. split; [exact (Hd eq_refl) | exact Hh].
Defined.

Lemma C4_teardown_witness :
  delivered S_renderDisposed (trace dispose demo_sheet) = [PString "doc1"]
  ∧ _renderMap (final dispose demo_sheet) = []
  ∧ final dispose (final dispose demo_sheet) = final dispose demo_sheet
  ∧ dispose_calls_on 0 (events (trace dispose demo_sheet)) = 1.
Proof.
  destruct (C4_teardown demo_sheet)
    as (_ & _ & _ & _ & _ & Hd & Hm & _ & _ & _ & _ & _ & Hi & _ & _ & Hn).
  split; [exact (Hd eq_refl)|]. split; [exact Hm|]. split; [exact Hi|].
  exact (Hn 0 demo_sheet_unit eq_refl eq_refl).
Defined.

Lemma C5_thumbnail_witness :
  ∃ u, heap_renders (final (createRender "thumb1") (init demo_service_thumb)) !! 0
       = Some u
       ∧ isThumbNail u = true
       ∧ components u = []
       ∧ with_ u 7 = None
       ∧ result (withCurrentTypeOfUnit UNIVER_SLIDE 7)
           (final (createRender "thumb1") (init demo_service_thumb)) = None.
Proof.
  destruct (C5_thumbnail_stub (init demo_service_thumb) "thumb1" eq_refl)
    as (u & Hu & Ht & Hc & _ & Hw & _ & _ & _ & _ & Hcur).
  exists u. split; [exact Hu|]. split; [exact Ht|]. split; [exact Hc|].
  split; [apply Hw|].
  exact (Hcur UNIVER_SLIDE 7 _ eq_refl eq_refl).
Defined.


Lemma C9_no_partial_witness :
  _renderMap (final (_createRender "doc1" 7 true) demo_sheet) = [("doc1", 1)]
  ∧ Forall (λ o : Obs, _renderMap o.2 = [("doc1", 0)])
      (trace (_createRender "doc1" 7 true) demo_sheet).
Proof.
  assert (Hok : store_ok demo_sheet).
  { exact (proj1 (reachable_ok _
             (reachable_step _ (OCreateRender "doc1")
                (reachable_init demo_service) Logic.I))). }
  destruct (C9_no_partial_unit demo_sheet "doc1" 7 true Hok) as (Hall & _ & Hm & _).
  split; [exact Hm|].
  eapply Forall_impl; [exact Hall|]. intros o (Ho & _). exact Ho.
Defined.

Lemma C10_stub_witness :
  0 ∈ result (getAllRenderersOfType UNIVER_SLIDE) demo_thumb
  ∧ ∃ u, heap_renders demo_thumb !! 0 = Some u ∧ type u = UNIVER_SLIDE.
Proof.
  destruct (C10_stub_is_slide (init demo_service) "thumb1" eq_refl)
    as (u & Hu & _ & Ht & _ & _ & _ & _ & Hall).
  split; [|exists u; split; [exact Hu | exact Ht]].
  exact (Hall demo_thumb "thumb1" 0 "thumb1" 0 0 true eq_refl eq_refl).
Defined.

(** * Further properties of the service *)

(** ** More facts about the [Map] operations *)

Section JsMapOrder.
Context {K V : Type} `{EqDecision K}.
Implicit Types (k : K) (v : V) (m : list (K * V)).

Lemma Map_set_absent k v m : Map_get k m = None → Map_set k v m = m ++ [(k, v)].
Proof.
  induction m as [|[k' v'] m IH]; simpl; [reflexivity|].
  destruct (decide (k' = k)); [discriminate|].
  intros Hn. f_equal. apply IH, Hn.
Qed.

Lemma Map_set_keys_present k v m :
  Map_has k m = true → (Map_set k v m).*1 = m.*1.
Proof.
  unfold Map_has. induction m as [|[k' v'] m IH]; simpl; [discriminate|].
  destruct (decide (k' = k)) as [->|Hne]; simpl; [reflexivity|].
  intros Hh. f_equal. apply IH, Hh.
Qed.

Lemma Map_delete_set_absent k v m :
  Map_get k m = None → Map_delete k (Map_set k v m) = m.
Proof.
  induction m as [|[k' v'] m IH]; simpl.
  - intros _. destruct (decide (k = k)); [reflexivity | congruence].
  - destruct (decide (k' = k)) as [->|Hne]; [discriminate|].
    intros Hn. simpl. destruct (decide (k' = k)); [congruence|].
    f_equal. apply IH, Hn.
Qed.

Lemma Map_set_values k v m x : x ∈ (Map_set k v m).*2 → x = v ∨ x ∈ m.*2.
Proof.
  induction m as [|[k' v'] m IH]; simpl.
  - intros Hx. apply list_elem_of_singleton in Hx. left. exact Hx.
  - destruct (decide (k' = k)) as [->|Hne]; simpl; intros Hx;
      apply elem_of_cons in Hx as [->|Hx].
    + left. reflexivity.
    + right. right. exact Hx.
    + right. left.
    + destruct (IH Hx) as [->|Hm]; [left; reflexivity | right; right; exact Hm].
Qed.

Lemma Map_delete_values k m x : x ∈ (Map_delete k m).*2 → x ∈ m.*2.
Proof.
  induction m as [|[k' v'] m IH]; simpl; [trivial|].
  destruct (decide (k' = k)); simpl; intros Hx.
  - right. apply IH, Hx.
  - apply elem_of_cons in Hx as [->|Hx]; [left | right; apply IH, Hx].
Qed.

Lemma Map_get_values k v m : Map_get k m = Some v → v ∈ m.*2.
Proof.
  intros H0. apply Map_get_In in H0.
  apply list_elem_of_fmap. exists (k, v). split; [reflexivity | exact H0].
Qed.
End JsMapOrder.

(** ** The current unit is tracked by id *)

Lemma createRender_fields id s :
  _currentUnitId (final (createRender id) s) = _currentUnitId s
  ∧ _renderMap (final (createRender id) s)
    = Map_set id (result (createRender id) s) (_renderMap s)
  ∧ result (createRender id) s = length (heap_renders s)
  ∧ _defaultEngine (final (createRender id) s) = _defaultEngine s
  ∧ heap_engines (final (createRender id) s) = S (heap_engines s)
  ∧ heap_renders (final (createRender id) s)
    = heap_renders s
      ++ [built_unit id (heap_engines s) true
            (with_heap_engines (S (heap_engines s)) s)].
Proof.
  destruct (run_inv _ _ _ _ _ (createRender_run id s)) as (-> & -> & _).
  repeat split.
Qed.

Lemma getCurrent_result s :
  result getCurrent s = Map_get (_currentUnitId s) (_renderMap s).
Proof. reflexivity. Qed.

(** X3.  [setCurrent] stores the id and publishes it, whether or not a unit has
    the id; [getCurrent] looks the id up at the time it is asked, so that it
    follows creation, replacement and removal of the unit with that id and is
    indifferent to what happens to other ids. *)
Theorem X3_current_tracks_id (s : State) (id : string) :
  let s1 := final (setCurrent id) s in
  _renderMap s1 = _renderMap s
  ∧ heap_renders s1 = heap_renders s
  ∧ events (trace (setCurrent id) s) = [ENext S_currentRender (PString id)]
  ∧ result getCurrent s1 = result (getRenderById id) s
  ∧ result getCurrent (final (createRender id) s1) = Some (result (createRender id) s1)
  ∧ result getCurrent (final (removeRender id) s1) = None
  ∧ (∀ id', id' ≠ id →
       result getCurrent (final (createRender id') s1) = result getCurrent s1
       ∧ result getCurrent (final (removeRender id') s1) = result getCurrent s1).
Proof.
  intros s1.
  assert (Hc : _currentUnitId s1 = id) by reflexivity.
  split; [reflexivity|]. split; [reflexivity|]. split; [reflexivity|].
  split; [reflexivity|].
  rewrite !getCurrent_result.
  split.
  { destruct (createRender_fields id s1) as (Hcur & Hm & _).
    rewrite Hcur, Hm, Hc. apply Map_get_set_eq. }
  split.
  { rewrite removeRender_final. simpl. apply Map_get_delete_eq. }
  intros id' Hne. rewrite !getCurrent_result. split.
  - destruct (createRender_fields id' s1) as (Hcur & Hm & _).
    rewrite Hcur, Hm, Hc. apply Map_get_set_ne. exact Hne.
  - rewrite removeRender_final. simpl. apply Map_get_delete_ne. exact Hne.
Qed.

(** ** The first unit and the order of the table *)

Lemma getFirst_result s : result getFirst s = head (_renderMap s).*2.
Proof. reflexivity. Qed.

(** X4.  [getFirst] answers absent exactly when the table is empty, and
    otherwise the unit of the oldest entry, which [getRenderById] finds too.
    [createRender] for an id of the table keeps the order of the ids (the
    entry is replaced where it stands), for a new id it appends the id; so
    after it [getFirst] is the new unit if the table was empty or its first
    id was the id created, and the same unit as before otherwise. *)
Theorem X4_getFirst_order (s : State) (id : string) :
  (result getFirst s = None ↔ _renderMap s = [])
  ∧ (∀ r, result getFirst s = Some r →
          ∃ k, result (getRenderById k) s = Some r)
  ∧ (_renderMap (final (createRender id) s)).*1
    = (if result (has id) s then (_renderMap s).*1 else (_renderMap s).*1 ++ [id])
  ∧ (_renderMap s = [] →
     result getFirst (final (createRender id) s) = Some (result (createRender id) s))
  ∧ (∀ k r m, _renderMap s = (k, r) :: m →
       result getFirst (final (createRender id) s)
       = Some (if decide (k = id) then result (createRender id) s else r)).
Proof.
  destruct (createRender_fields id s) as (_ & Hm & _).
  rewrite !getFirst_result, Hm.
  split.
  { destruct (_renderMap s) as [|[k r] m]; simpl; split; intros; congruence. }
  split.
  { intros r Hr. destruct (_renderMap s) as [|[k r0] m] eqn:Hmap; [discriminate|].
    simpl in Hr. injection Hr as ->. exists k.
    unfold result, getRenderById, gets. simpl. rewrite Hmap. simpl.
    rewrite decide_True by reflexivity. reflexivity. }
  split.
  { change (result (has id) s) with (Map_has id (_renderMap s)).
    destruct (Map_has id (_renderMap s)) eqn:Hh.
    - apply Map_set_keys_present, Hh.
    - unfold Map_has in Hh.
      destruct (Map_get id (_renderMap s)) eqn:Hg; [discriminate|].
      rewrite Map_set_absent by exact Hg. rewrite fmap_app. reflexivity. }
  split.
  { intros ->. reflexivity. }
  intros k r m ->. simpl.
  destruct (decide (k = id)); reflexivity.
Qed.

(** ** Creation followed by removal *)

(** X11.  [createRender] for an id that is not in the table, followed by
    [removeRender] of that id, leaves the table as it was, and the removal
    disposes exactly what the creation made: the new scene, the new engine,
    the components of the new unit, and the unit itself if it is a
    [RenderUnit]; it publishes the unit's id once. *)
Theorem X11_create_remove_roundtrip (s : State) (id : string) :
  result (getRenderById id) s = None →
  let r := result (createRender id) s in
  let s1 := final (createRender id) s in
  let u := built_unit id (heap_engines s) true
             (with_heap_engines (S (heap_engines s)) s) in
  let es := events (trace (removeRender id) s1) in
  heap_renders s1 !! r = Some u
  ∧ _renderMap (final (removeRender id) s1) = _renderMap s
  ∧ es = disposal_protocol r u true
  ∧ disposed_scenes es = [length (heap_scenes s)]
  ∧ disposed_engines es = [heap_engines s]
  ∧ disposed_components es = (components u).*2
  ∧ disposed_renders es = (if instanceof_RenderUnit u then [r] else [])
  ∧ emitted S_renderDisposed es = [PString (unitId u)]
  ∧ heap_engines s1 = S (heap_engines s)
  ∧ length (heap_scenes s1) = S (length (heap_scenes s)).
Proof.
  intros Hnone r s1 u es.
  destruct (createRender_fields id s) as (_ & Hm & Hr & _ & He & Hh).
  fold r s1 in Hm, Hr, He, Hh. fold u in Hh.
  assert (Hu : heap_renders s1 !! r = Some u).
  { rewrite Hh, Hr. apply lookup_snoc. }
  assert (Hget : Map_get id (_renderMap s1) = Some r).
  { rewrite Hm. apply Map_get_set_eq. }
  destruct (built_unit_complete id (heap_engines s) true
              (with_heap_engines (S (heap_engines s)) s)) as (Hue & Hus & _).
  fold u in Hue, Hus. simpl in Hus.
  split; [exact Hu|].
  split.
  { rewrite removeRender_final. simpl. rewrite Hm.
    apply Map_delete_set_absent. exact Hnone. }
  assert (Hes : es = disposal_protocol r u true).
  { unfold es, trace. rewrite (removeRender_present _ _ _ _ Hget Hu). simpl.
    apply events_map_snapshot. }
  split; [exact Hes|]. rewrite Hes.
  split; [rewrite disposal_protocol_scenes, Hus; reflexivity|].
  split; [rewrite disposal_protocol_engines, Hue; reflexivity|].
  split; [apply disposal_protocol_components|].
  split.
  { rewrite disposal_protocol_renders.
    unfold isDisposable, instanceof_RenderUnit, u, built_unit.
    destruct (getUnit _ id); reflexivity. }
  split; [apply disposal_protocol_emitted|].
  split; [exact He|].
  unfold s1. destruct (run_inv _ _ _ _ _ (createRender_run id s)) as (_ & -> & _).
  unfold after_createRender, after_scene. simpl. rewrite length_app. simpl. lia.
Qed.

(** ** Only units of the table are disposed *)

Lemma not_held_frame r s s' :
  _renderMap s' = _renderMap s →
  length (heap_renders s) ≤ length (heap_renders s') →
  not_held r s → not_held r s'.
Proof.
  intros Hm Hl [Hn Hlt]. unfold not_held. rewrite Hm. split; [exact Hn | lia].
Qed.

Lemma disposal_protocol_other r r0 u flag :
  r0 ≠ r → Forall (λ e, ¬ disposes_unit r e) (disposal_protocol r0 u flag).
Proof.
  intros Hne. unfold disposal_protocol, disposes_unit.
  repeat (apply Forall_app; split).
  - apply Forall_map, Forall_true. intros; discriminate.
  - repeat constructor. discriminate.
  - destruct (isDisposable u); repeat constructor. intros [=]. congruence.
  - destruct flag; repeat constructor. discriminate.
  - repeat constructor. discriminate.
Qed.

Lemma _disposeItem_events item flag s :
  events (trace (_disposeItem item flag) s)
  = match item with
    | Some r0 => match heap_renders s !! r0 with
                 | Some u => disposal_protocol r0 u flag
                 | None => []
                 end
    | None => []
    end.
Proof.
  destruct item as [r0|]; [|reflexivity].
  destruct (heap_renders s !! r0) as [u|] eqn:Hu.
  - unfold trace. rewrite (_disposeItem_Some _ _ _ _ Hu). apply events_map_snapshot.
  - unfold trace, _disposeItem, deref, bind, gets. rewrite Hu. reflexivity.
Qed.

Lemma removeRender_events id s :
  events (trace (removeRender id) s)
  = events (trace (_disposeItem (Map_get id (_renderMap s)) true) s).
Proof.
  unfold removeRender. rewrite trace_bind.
  change (trace (gets (λ s0, Map_get id (_renderMap s0))) s) with (@nil Obs).
  change (result (gets (λ s0, Map_get id (_renderMap s0))) s)
    with (Map_get id (_renderMap s)).
  change (final (gets (λ s0, Map_get id (_renderMap s0))) s) with s.
  rewrite trace_bind. simpl. unfold trace at 2, modify. simpl.
  rewrite app_nil_r.
  destruct (Map_get id (_renderMap s)); reflexivity.
Qed.

Lemma teardown_calls_other r s :
  r ∉ (_renderMap s).*2 → Forall (λ e, ¬ disposes_unit r e) (teardown_calls s).
Proof.
  unfold teardown_calls. induction (_renderMap s) as [|[k r0] m IH]; simpl.
  - constructor.
  - intros Hn. apply not_elem_of_cons in Hn as [Hne Hn].
    apply Forall_app. split; [|apply IH, Hn].
    destruct (heap_renders s !! r0); [|constructor].
    apply disposal_protocol_other. congruence.
Qed.

Lemma construction_not_dispose r (es : list Event) :
  Forall (λ e, is_construction e = true) es → Forall (λ e, ¬ disposes_unit r e) es.
Proof.
  intros H. eapply Forall_impl; [exact H|].
  intros e He Hd. unfold disposes_unit in Hd. subst e. discriminate He.
Qed.

Lemma keeps_events (I : State → Prop) (P : Event → Prop) {A} (m : M A) s :
  I s → keeps I (λ _ e, P e) m → Forall P (events (trace m s)).
Proof.
  intros Hs Hk. destruct (Hk s Hs) as [_ Ht]. unfold events.
  apply Forall_map. eapply Forall_impl; [exact Ht|]. intros o [_ Ho]. exact Ho.
Qed.

(** One operation from a state in which [r] is not held. *)
Lemma not_held_step r (o : Op) s :
  not_held r s →
  (∀ id, o ≠ OAddRender id r) →
  not_held r (final (exec_op o) s)
  ∧ Forall (λ e, ¬ disposes_unit r e) (events (trace (exec_op o) s)).
Proof.
  intros Hs Ho.
  assert (Hrest : keeps (not_held r) (λ _ e, ¬ disposes_unit r e) (exec_op o) →
                  not_held r (final (exec_op o) s)
                  ∧ Forall (λ e, ¬ disposes_unit r e) (events (trace (exec_op o) s))).
  { intros Hk. split; [apply Hk, Hs | exact (keeps_events _ _ _ s Hs Hk)]. }
  destruct Hs as [Hn Hlt].
  destruct o.
  - (* createRender *)
    unfold exec_op. rewrite final_bind, trace_bind.
    change (final (ret tt) (final (createRender unitId0) s))
      with (final (createRender unitId0) s).
    change (trace (ret tt) (final (createRender unitId0) s)) with (@nil Obs).
    rewrite app_nil_r.
    destruct (createRender_fields unitId0 s) as (_ & Hm & Hr & _ & _ & Hh).
    split.
    + split.
      * rewrite Hm, Hr. intros Hx. apply Map_set_values in Hx as [->|Hx]; [lia|].
        exact (Hn Hx).
      * rewrite Hh, length_app. simpl. lia.
    + rewrite events_createRender. constructor; [discriminate|].
      apply Forall_app. split; [|repeat constructor; discriminate].
      unfold trace. rewrite _createRender_run. simpl.
      rewrite events_trace_createRender. apply Forall_app. split.
      * unfold old_disposal. simpl.
        destruct (Map_get unitId0 (_renderMap s)) as [r0|] eqn:Hr0; [|constructor].
        destruct (heap_renders s !! r0); [|constructor].
        apply disposal_protocol_other. intros ->.
        apply Hn. eapply Map_get_values, Hr0.
      * apply construction_not_dispose, construction_calls_Forall.
  - (* addRender *)
    simpl. split; [|constructor].
    split; [|exact Hlt]. simpl.
    intros Hx. apply Map_set_values in Hx as [->|Hx]; [|exact (Hn Hx)].
    exact (Ho unitId0 eq_refl).
  - (* removeRender *)
    unfold exec_op. split.
    + rewrite removeRender_final. split; [|exact Hlt]. simpl.
      intros Hx. apply Map_delete_values in Hx. exact (Hn Hx).
    + rewrite removeRender_events, _disposeItem_events.
      destruct (Map_get unitId0 (_renderMap s)) as [r0|] eqn:Hr0; [|constructor].
      destruct (heap_renders s !! r0); [|constructor].
      apply disposal_protocol_other. intros ->.
      apply Hn. eapply Map_get_values, Hr0.
  - apply Hrest. keeps_methods;
      first [ apply keeps_call; intros; discriminate
            | apply keeps_modify; intros ?; apply not_held_frame; reflexivity ].
  - apply Hrest. keeps_methods. apply keeps_call; intros; discriminate.
  - apply Hrest. keeps_methods;
      first
        [ apply keeps_ensureDependencies; intros ?; apply not_held_frame;
          [ apply ensured_lookup
          | rewrite (proj2 (proj2 (ensured_lookup _ _))); reflexivity ]
        | unfold _tryAddRenderDependencies, RenderUnit_addRenderDependencies,
            Array_push;
          repeat keeps_step;
          first
            [ apply keeps_call; intros; discriminate
            | apply keeps_modify; intros ?; apply not_held_frame;
              [ reflexivity | simpl; rewrite ?length_alter; reflexivity ] ] ].
  - apply Hrest. keeps_methods;
      first
        [ apply keeps_ensureDependencies; intros ?; apply not_held_frame;
          [ apply ensured_lookup
          | rewrite (proj2 (proj2 (ensured_lookup _ _))); reflexivity ]
        | unfold _tryAddRenderDependencies, RenderUnit_addRenderDependencies,
            Array_push;
          repeat keeps_step;
          first
            [ apply keeps_call; intros; discriminate
            | apply keeps_modify; intros ?; apply not_held_frame;
              [ reflexivity | simpl; rewrite ?length_alter; reflexivity ] ] ].
  - apply Hrest. keeps_methods. unfold Array_remove.
    apply keeps_modify; intros ?; apply not_held_frame; reflexivity.
  - apply Hrest. keeps_methods;
      first [ apply keeps_call; intros; discriminate
            | apply keeps_modify; intros ?; apply not_held_frame; reflexivity ].
  - (* dispose *)
    unfold exec_op.
    destruct (run_inv _ _ _ _ _ (dispose_run s)) as (_ & -> & ->).
    split.
    + split.
      * destruct (after_dispose_facts s) as (-> & _). apply not_elem_of_nil.
      * unfold after_dispose.
        rewrite !(λ st s, proj1 (proj2 (proj2 (proj2 (completed_fields st s))))).
        exact Hlt.
    + rewrite events_app, events_map_snapshot. apply Forall_app. split.
      * apply teardown_calls_other, Hn.
      * repeat constructor; discriminate.
  - apply Hrest. keeps_methods.
    apply keeps_modify; intros ?; apply not_held_frame;
      [ reflexivity | simpl; rewrite length_app; lia ].
  - apply Hrest. keeps_methods;
      first [ apply keeps_call; intros; discriminate
            | apply keeps_modify; intros ?; apply not_held_frame; reflexivity ].
  - apply Hrest. keeps_methods.
    apply keeps_modify; intros ?; apply not_held_frame; reflexivity.
Qed.

Lemma entries_holding_cons r k v (m : list (string * UnitRef)) :
  entries_holding r ((k, v) :: m)
  = (if decide (v = r) then 1 else 0) + entries_holding r m.
Proof.
  unfold entries_holding. rewrite filter_cons. simpl.
  destruct (decide (v = r)); reflexivity.
Qed.

Lemma entries_holding_zero r (m : list (string * UnitRef)) :
  entries_holding r m = 0 → r ∉ m.*2.
Proof.
  induction m as [|[k v] m IH]; [intros _; apply not_elem_of_nil|].
  rewrite entries_holding_cons. simpl.
  destruct (decide (v = r)); [lia|]. intros H0.
  apply not_elem_of_cons. split; [congruence | apply IH, H0].
Qed.

Lemma sole_holder_replaced id item r (m : list (string * UnitRef)) :
  Map_get id m = Some r → entries_holding r m = 1 → item ≠ r →
  r ∉ (Map_set id item m).*2.
Proof.
  intros Hg Hc Hne. induction m as [|[k v] m IH]; [discriminate|].
  rewrite entries_holding_cons in Hc. simpl in Hg |- *.
  destruct (decide (k = id)) as [->|Hk].
  - injection Hg as ->. rewrite decide_True in Hc by reflexivity.
    simpl. apply not_elem_of_cons. split; [congruence|].
    apply entries_holding_zero. lia.
  - pose proof (entries_holding_pos _ _ _ Hg) as Hpos.
    destruct (decide (v = r)); [lia|].
    simpl. apply not_elem_of_cons. split; [congruence|].
    apply IH; [exact Hg | lia].
Qed.

Lemma sole_holder_deleted id r (m : list (string * UnitRef)) :
  Map_get id m = Some r → entries_holding r m = 1 → r ∉ (Map_delete id m).*2.
Proof.
  intros Hg Hc. induction m as [|[k v] m IH]; [discriminate|].
  rewrite entries_holding_cons in Hc. simpl in Hg |- *.
  destruct (decide (k = id)) as [->|Hk].
  - injection Hg as ->. rewrite decide_True in Hc by reflexivity.
    intros Hx. apply Map_delete_values in Hx.
    revert Hx. apply entries_holding_zero. lia.
  - pose proof (entries_holding_pos _ _ _ Hg) as Hpos.
    destruct (decide (v = r)); [lia|].
    simpl. apply not_elem_of_cons. split; [congruence|].
    apply IH; [exact Hg | lia].
Qed.

(** X1.  The service calls [dispose] of a unit only while the table holds
    the unit.  A unit that no entry holds is not disposed by any sequence of
    operations that does not hand it to [addRender] again.  That is the state
    of a unit after [removeRender] of the only id it was under, and also of
    a unit whose only entry [addRender] has overwritten: [addRender] makes no
    call at all, and the [dispose] of the unit it replaces is never called
    afterwards. *)
Theorem X1_only_held_units_disposed :
  (∀ s r ops,
     not_held r s →
     Forall (λ o, ∀ id, o ≠ OAddRender id r) ops →
     Forall (λ e, e ≠ ERenderDispose r) (events (trace (exec ops) s))
     ∧ not_held r (final (exec ops) s))
  ∧ (∀ s id item r,
       result (getRenderById id) s = Some r →
       entries_holding r (_renderMap s) = 1 →
       r < length (heap_renders s) →
       item ≠ r →
       trace (addRender id item) s = []
       ∧ result (getRenderById id) (final (addRender id item) s) = Some item
       ∧ not_held r (final (addRender id item) s))
  ∧ (∀ s id r,
       result (getRenderById id) s = Some r →
       entries_holding r (_renderMap s) = 1 →
       r < length (heap_renders s) →
       not_held r (final (removeRender id) s)).
Proof.
  split.
  { intros s r ops. revert s. induction ops as [|o ops IH]; intros s Hs Hops.
    - split; [constructor | exact Hs].
    - apply Forall_cons in Hops as [Ho Hops].
      destruct (not_held_step r o s Hs Ho) as [Hs1 He1].
      destruct (IH (final (exec_op o) s) Hs1 Hops) as [He2 Hs2].
      unfold exec. cbn [forEach]. rewrite final_bind, trace_bind, events_app.
      split; [|exact Hs2].
      apply Forall_app. split; [exact He1 | exact He2]. }
  split.
  { intros s id item r Hg Hc Hlt Hne.
    split; [reflexivity|].
    split; [apply Map_get_set_eq|].
    split; [|exact Hlt]. simpl.
    apply sole_holder_replaced; assumption. }
  intros s id r Hg Hc Hlt. rewrite removeRender_final.
  split; [|exact Hlt]. simpl. apply sole_holder_deleted; assumption.
Qed.

(** ** The stream of [create] outlives the service *)

Lemma isStopped_completed_other st st' s :
  st ≠ st' → isStopped st (completed st' s) = isStopped st s.
Proof.
  intros Hne. unfold completed. destruct (isStopped st' s); [reflexivity|].
  unfold isStopped. simpl. apply bool_decide_ext.
  rewrite elem_of_cons. split; [intros [?|?]; [congruence | assumption] | auto].
Qed.

Lemma createRender_stream_open (o : Op) :
  keeps (λ s, isStopped S_createRender s = false) (λ _ _, True) (exec_op o).
Proof.
  destruct o; keeps_all;
    first [ apply keeps_call; intros; exact Logic.I
          | apply keeps_modify;
            let H := fresh in
            intros ? H;
            first [ exact H
                  | etransitivity;
                    [ apply (isStopped_completed_other S_createRender); discriminate
                    | exact H ] ] ].
Qed.

(** X2.  No operation completes the stream [create] publishes on: [dispose]
    completes the three other subjects and leaves this one open.  So in every
    state the service reaches, before or after [dispose], [create(id)]
    delivers the id to the subscribers, and does nothing else: no unit is
    made and nothing is disposed. *)
Theorem X2_create_always_delivered (svc : InstanceService) (ops : list Op)
    (id : string) :
  let s := final (exec ops) (init svc) in
  isStopped S_createRender s = false
  ∧ create id s = (tt, s, [(ENext S_createRender (PString id), s)])
  ∧ delivered S_createRender (trace (create id) s) = [PString id]
  ∧ isStopped S_createRender (final dispose s) = false
  ∧ isStopped S_currentRender (final dispose s) = true
  ∧ delivered S_currentRender (trace (setCurrent id) (final dispose s)) = [].
Proof.
  intros s.
  assert (Hopen : isStopped S_createRender s = false).
  { unfold s, exec.
    apply (keeps_forEach _ _ exec_op ops createRender_stream_open (init svc)).
    reflexivity. }
  split; [exact Hopen|]. split; [reflexivity|].
  split.
  { unfold trace, create, Subject_next, call, delivered. simpl.
    rewrite Hopen. reflexivity. }
  destruct (run_inv _ _ _ _ _ (dispose_run s)) as (_ & -> & _).
  destruct (after_dispose_facts s) as (_ & _ & _ & H1 & _).
  split.
  { unfold after_dispose.
    rewrite !isStopped_completed_other by discriminate. exact Hopen. }
  split; [exact H1|].
  unfold trace, setCurrent, bind, modify, Subject_next, call, delivered. simpl.
  change (isStopped S_currentRender (with_currentUnitId id (after_dispose s)))
    with (isStopped S_currentRender (after_dispose s)).
  rewrite H1. reflexivity.
Qed.

(** ** The default engine *)

Lemma defaultEngine_set e s : _defaultEngine s = Some e → defaultEngine s = (e, s, []).
Proof. intros H. unfold defaultEngine, bind, gets. rewrite H. reflexivity. Qed.

Lemma defaultEngine_first s :
  _defaultEngine s = None →
  defaultEngine s
  = (heap_engines s,
     with_defaultEngine (Some (heap_engines s))
       (with_heap_engines (S (heap_engines s)) s),
     [(ENewEngine, s)]).
Proof. intros H. unfold defaultEngine, bind, gets. rewrite H. reflexivity. Qed.

Lemma defaultEngine_kept e (o : Op) :
  keeps (λ s, _defaultEngine s = Some e) (λ _ _, True) (exec_op o).
Proof.
  destruct o;
    try (keeps_all;
         first [ apply keeps_call; intros; exact Logic.I
               | apply keeps_modify;
                 let H := fresh in
                 intros ? H;
                 first [ exact H
                       | match goal with
                         | |- context [isStopped ?st ?x] => destruct (isStopped st x)
                         end; exact H ] ]).
  intros s Hs. unfold exec_op, final, trace, bind.
  rewrite (defaultEngine_set _ _ Hs). simpl. split; [exact Hs | constructor].
Qed.

(** X5.  The default engine is made on the first access and never again:
    whatever the service does afterwards, [dispose] included, every later
    access returns the same engine and makes no call.  [dispose] does not
    destroy it either, unless a unit of the table uses it. *)
Theorem X5_defaultEngine_stable (s : State) (ops : list Op) :
  let e := result defaultEngine s in
  let s1 := final defaultEngine s in
  let s2 := final (exec ops) s1 in
  _defaultEngine s1 = Some e
  ∧ defaultEngine s2 = (e, s2, [])
  ∧ (_defaultEngine s = None →
     e = heap_engines s
     ∧ events (trace defaultEngine s) = [ENewEngine]
     ∧ heap_engines s1 = S e)
  ∧ (e ∉ map engine (live_units s2) →
     e ∉ disposed_engines (events (trace dispose s2)))
  ∧ _defaultEngine (final dispose s2) = Some e.
Proof.
  intros e s1 s2.
  assert (H1 : _defaultEngine s1 = Some e).
  { unfold e, s1, result, final.
    destruct (_defaultEngine s) as [e0|] eqn:Hd.
    - rewrite (defaultEngine_set _ _ Hd). exact Hd.
    - rewrite (defaultEngine_first _ Hd). reflexivity. }
  assert (H2 : _defaultEngine s2 = Some e).
  { unfold s2, exec.
    exact (proj1 (keeps_forEach _ _ exec_op ops (defaultEngine_kept e) s1 H1)). }
  split; [exact H1|]. split; [apply defaultEngine_set, H2|].
  split.
  { intros Hd. unfold e, s1, result, final, trace.
    rewrite (defaultEngine_first _ Hd). repeat split. }
  split.
  { intros Hn. destruct (run_inv _ _ _ _ _ (dispose_run s2)) as (_ & _ & ->).
    rewrite events_app, events_map_snapshot. unfold disposed_engines.
    rewrite flat_map_app. simpl. rewrite app_nil_r.
    rewrite (teardown_project _ (λ u, [engine u]) s2), flat_map_singleton;
      [exact Hn|].
    intros r u. apply (disposal_protocol_engines r u true). }
  exact (proj1 (defaultEngine_kept e ODispose s2 H2)).
Qed.

(** ** Engines are not shared by units the service creates *)

Lemma engines_ok_frame s s' :
  heap_engines s ≤ heap_engines s' →
  _defaultEngine s' = _defaultEngine s →
  (∀ r u', heap_renders s' !! r = Some u' →
           ∃ u, heap_renders s !! r = Some u ∧ engine u' = engine u) →
  engines_ok s → engines_ok s'.
Proof.
  intros He Hd Hh [Hu Hde]. split.
  - intros r u' Hr. destruct (Hh r u' Hr) as (u & Hu0 & ->).
    apply Hu in Hu0. lia.
  - intros e. rewrite Hd. intros H0. apply Hde in H0. lia.
Qed.

Lemma engines_ok_same_units s s' :
  heap_engines s ≤ heap_engines s' →
  _defaultEngine s' = _defaultEngine s →
  heap_renders s' = heap_renders s →
  engines_ok s → engines_ok s'.
Proof.
  intros He Hd Hh. apply engines_ok_frame; [exact He | exact Hd|].
  intros r u'. rewrite Hh. intros H0. exists u'. split; [exact H0 | reflexivity].
Qed.

Lemma addRenderDependencies_engine deps u :
  engine (addRenderDependencies deps u) = engine u.
Proof. unfold addRenderDependencies. destruct (kind u); reflexivity. Qed.

Lemma engines_ok_inject s r deps :
  engines_ok s →
  engines_ok (with_heap_renders
                (alter (addRenderDependencies deps) r (heap_renders s)) s).
Proof.
  apply engines_ok_frame; [reflexivity | reflexivity|].
  intros r0 u'. simpl. destruct (decide (r = r0)) as [<-|Hne].
  - rewrite list_lookup_alter_eq.
    destruct (heap_renders s !! r) as [u|]; [|discriminate].
    intros [= <-]. exists u. split; [reflexivity | apply addRenderDependencies_engine].
  - rewrite list_lookup_alter_ne by exact Hne.
    intros H0. exists u'. split; [exact H0 | reflexivity].
Qed.

Lemma engines_ok_step (o : Op) s :
  engines_ok s → env_ok o s → engines_ok (final (exec_op o) s).
Proof.
  intros Hok Henv.
  assert (Hrest : keeps engines_ok (λ _ _, True) (exec_op o) →
                  engines_ok (final (exec_op o) s)).
  { intros Hk. apply Hk, Hok. }
  destruct o; simpl in Henv.
  - (* createRender *)
    unfold exec_op. rewrite final_bind.
    change (final (ret tt) (final (createRender unitId0) s))
      with (final (createRender unitId0) s).
    destruct (createRender_fields unitId0 s) as (_ & _ & _ & Hd & He & Hh).
    destruct Hok as [Hu Hde]. split.
    + intros r u. rewrite Hh, He. intros Hr.
      apply lookup_app_Some in Hr as [Hr | [_ Hr]].
      * apply Hu in Hr. lia.
      * destruct (r - length (heap_renders s)) as [|n]; [|destruct n; discriminate].
        injection Hr as <-.
        destruct (built_unit_complete unitId0 (heap_engines s) true
                    (with_heap_engines (S (heap_engines s)) s)) as (-> & _).
        lia.
    + intros e. rewrite Hd, He. intros H0. apply Hde in H0. lia.
  - apply Hrest. keeps_methods.
    apply keeps_modify; intros ?; apply engines_ok_same_units; reflexivity.
  - unfold exec_op. rewrite removeRender_final.
    revert Hok. apply engines_ok_same_units; reflexivity.
  - apply Hrest. keeps_methods;
      first [ apply keeps_call; intros; exact Logic.I
            | apply keeps_modify; intros ?; apply engines_ok_same_units; reflexivity ].
  - apply Hrest. keeps_methods. apply keeps_call; intros; exact Logic.I.
  - apply Hrest. keeps_methods;
      first
        [ apply keeps_ensureDependencies; intros ?; apply engines_ok_same_units;
          unfold ensured;
          match goal with |- context [Map_has ?T ?m] => destruct (Map_has T m) end;
          reflexivity
        | unfold _tryAddRenderDependencies, RenderUnit_addRenderDependencies,
            Array_push;
          repeat keeps_step;
          first
            [ apply keeps_call; intros; exact Logic.I
            | apply keeps_modify; intros ?; apply engines_ok_inject
            | apply keeps_modify; intros ?; apply engines_ok_same_units; reflexivity ] ].
  - apply Hrest. keeps_methods;
      first
        [ apply keeps_ensureDependencies; intros ?; apply engines_ok_same_units;
          unfold ensured;
          match goal with |- context [Map_has ?T ?m] => destruct (Map_has T m) end;
          reflexivity
        | unfold _tryAddRenderDependencies, RenderUnit_addRenderDependencies,
            Array_push;
          repeat keeps_step;
          first
            [ apply keeps_call; intros; exact Logic.I
            | apply keeps_modify; intros ?; apply engines_ok_inject
            | apply keeps_modify; intros ?; apply engines_ok_same_units; reflexivity ] ].
  - apply Hrest. keeps_methods. unfold Array_remove.
    apply keeps_modify; intros ?; apply engines_ok_same_units; reflexivity.
  - (* defaultEngine *)
    unfold exec_op. rewrite final_bind.
    change (final (ret tt) (final defaultEngine s)) with (final defaultEngine s).
    destruct (_defaultEngine s) as [e0|] eqn:Hd.
    + unfold final. rewrite (defaultEngine_set _ _ Hd). exact Hok.
    + unfold final. rewrite (defaultEngine_first _ Hd). simpl.
      destruct Hok as [Hu Hde]. split; simpl.
      * intros r u Hr. apply Hu in Hr. lia.
      * intros e [= <-]. lia.
  - (* dispose *)
    unfold exec_op. destruct (run_inv _ _ _ _ _ (dispose_run s)) as (_ & -> & _).
    revert Hok. unfold after_dispose.
    apply engines_ok_same_units;
      repeat match goal with
        | |- context [completed ?st ?x] =>
            unfold completed at 1; destruct (isStopped st x)
        end; reflexivity.
  - (* a new object *)
    unfold exec_op, final, new_IRender, bind, gets, modify, ret. simpl.
    destruct Hok as [Hu Hde]. split; simpl.
    + intros r u0 Hr. apply lookup_app_Some in Hr as [Hr | [_ Hr]].
      * exact (Hu r u0 Hr).
      * destruct (r - length (heap_renders s)) as [|n]; [|destruct n; discriminate].
        injection Hr as <-. exact Henv.
    + exact Hde.
  - (* a new engine *)
    unfold exec_op, final, new_Engine, bind, call, gets, modify, ret. simpl.
    destruct Hok as [Hu Hde]. split; simpl.
    + intros r u Hr. apply Hu in Hr. lia.
    + intros e H0. apply Hde in H0. lia.
  - apply Hrest. keeps_methods.
    apply keeps_modify; intros ?; apply engines_ok_same_units; reflexivity.
Qed.

(** X10.  Units made by [createRender] do not share engines.  That every
    engine referred to has been allocated holds of a new service and is kept
    by every operation; in such a state the engine of the unit
    [createRender] returns is new: no other unit has it and it is not the
    default engine, so the engine a later [removeRender] of the unit
    destroys is in use nowhere else. *)
Theorem X10_engines_not_shared :
  (∀ svc, engines_ok (init svc))
  ∧ (∀ o s, engines_ok s → env_ok o s → engines_ok (final (exec_op o) s))
  ∧ (∀ s id,
       engines_ok s →
       let r := result (createRender id) s in
       let s1 := final (createRender id) s in
       ∃ u, heap_renders s1 !! r = Some u
            ∧ engine u = heap_engines s
            ∧ (∀ r' u', r' ≠ r → heap_renders s1 !! r' = Some u' →
                 engine u' ≠ engine u)
            ∧ _defaultEngine s1 ≠ Some (engine u)
            ∧ disposed_engines (events (trace (removeRender id) s1)) = [engine u]).
Proof.
  split.
  { intros svc. split; [intros r u; discriminate | intros e; discriminate]. }
  split; [intros o s; apply engines_ok_step|].
  intros s id [Hu Hde] r s1.
  destruct (createRender_fields id s) as (_ & Hm & Hr & Hd & _ & Hh).
  fold r s1 in Hm, Hr, Hd, Hh.
  set (u := built_unit id (heap_engines s) true
              (with_heap_engines (S (heap_engines s)) s)) in *.
  assert (Hcell : heap_renders s1 !! r = Some u).
  { rewrite Hh, Hr. apply lookup_snoc. }
  assert (He : engine u = heap_engines s).
  { apply (built_unit_complete id (heap_engines s) true
             (with_heap_engines (S (heap_engines s)) s)). }
  exists u. split; [exact Hcell|]. split; [exact He|].
  split.
  { intros r' u' Hne. rewrite Hh. intros Hr'.
    apply lookup_app_Some in Hr' as [Hr' | [Hge Hr']].
    - apply Hu in Hr'. lia.
    - exfalso. apply Hne. rewrite Hr.
      apply lookup_lt_Some in Hr'. simpl in Hr'. lia. }
  split.
  { rewrite Hd, He. intros H0. apply Hde in H0. lia. }
  assert (Hget : Map_get id (_renderMap s1) = Some r).
  { rewrite Hm. apply Map_get_set_eq. }
  unfold trace. rewrite (removeRender_present _ _ _ _ Hget Hcell). simpl.
  rewrite events_map_snapshot. apply (disposal_protocol_engines r u true).
Qed.

(** ** One entry per id *)

Section JsMapUnique.
Context {K V : Type} `{EqDecision K}.
Implicit Types (k : K) (v : V) (m : list (K * V)).

Lemma Map_get_None_keys k m : Map_get k m = None ↔ k ∉ m.*1.
Proof.
  induction m as [|[k' v'] m IH]; simpl.
  - split; [intros _; apply not_elem_of_nil | reflexivity].
  - rewrite not_elem_of_cons. destruct (decide (k' = k)) as [->|Hne].
    + split; [discriminate | intros [Hc _]; congruence].
    + rewrite IH. split; [intros Hn; split; [congruence | exact Hn] | intros [_ Hn]; exact Hn].
Qed.

Lemma Map_set_NoDup k v m : NoDup m.*1 → NoDup (Map_set k v m).*1.
Proof.
  intros Hnd. destruct (Map_get k m) as [v0|] eqn:Hg.
  - rewrite Map_set_keys_present; [exact Hnd|]. unfold Map_has. rewrite Hg. reflexivity.
  - rewrite Map_set_absent by exact Hg. rewrite fmap_app. simpl.
    apply NoDup_app. split; [exact Hnd|]. split.
    + intros x Hx Hx'. apply list_elem_of_singleton in Hx'. subst x.
      apply Map_get_None_keys in Hg. contradiction.
    + apply NoDup_singleton.
Qed.

Lemma Map_delete_keys k m x : x ∈ (Map_delete k m).*1 → x ∈ m.*1.
Proof.
  induction m as [|[k' v'] m IH]; simpl; [trivial|].
  destruct (decide (k' = k)); simpl; intros Hx.
  - right. apply IH, Hx.
  - apply elem_of_cons in Hx as [->|Hx]; [left | right; apply IH, Hx].
Qed.

Lemma Map_delete_NoDup k m : NoDup m.*1 → NoDup (Map_delete k m).*1.
Proof.
  induction m as [|[k' v'] m IH]; simpl; [trivial|].
  intros Hnd. apply NoDup_cons in Hnd as [Hn Hnd].
  destruct (decide (k' = k)); simpl; [apply IH, Hnd|].
  apply NoDup_cons. split; [|apply IH, Hnd].
  intros Hx. apply Hn. eapply Map_delete_keys, Hx.
Qed.

Lemma Map_In_get k v m : NoDup m.*1 → (k, v) ∈ m → Map_get k m = Some v.
Proof.
  induction m as [|[k' v'] m IH]; simpl; intros Hnd Hin; [inversion Hin|].
  apply NoDup_cons in Hnd as [Hn Hnd].
  apply elem_of_cons in Hin as [[= <- <-]|Hin].
  - rewrite decide_True by reflexivity. reflexivity.
  - destruct (decide (k' = k)) as [->|Hne]; [|apply IH; assumption].
    exfalso. apply Hn. apply list_elem_of_fmap. exists (k, v).
    split; [reflexivity | exact Hin].
Qed.
End JsMapUnique.

Lemma keys_unique_frame s s' :
  _renderMap s' = _renderMap s → keys_unique s → keys_unique s'.
Proof. unfold keys_unique. intros ->. trivial. Qed.

Lemma keys_unique_step (o : Op) s :
  keys_unique s → keys_unique (final (exec_op o) s).
Proof.
  intros Hok.
  assert (Hrest : keeps keys_unique (λ _ _, True) (exec_op o) →
                  keys_unique (final (exec_op o) s)).
  { intros Hk. apply Hk, Hok. }
  destruct o.
  - unfold exec_op. rewrite final_bind.
    change (final (ret tt) (final (createRender unitId0) s))
      with (final (createRender unitId0) s).
    destruct (createRender_fields unitId0 s) as (_ & Hm & _).
    unfold keys_unique. rewrite Hm. apply Map_set_NoDup, Hok.
  - apply Map_set_NoDup, Hok.
  - unfold exec_op. rewrite removeRender_final. apply Map_delete_NoDup, Hok.
  - apply Hrest. keeps_methods;
      first [ apply keeps_call; intros; exact Logic.I
            | apply keeps_modify; intros ?; apply keys_unique_frame; reflexivity ].
  - apply Hrest. keeps_methods. apply keeps_call; intros; exact Logic.I.
  - apply Hrest. keeps_methods;
      first
        [ apply keeps_ensureDependencies; intros ?; apply keys_unique_frame;
          apply ensured_lookup
        | unfold _tryAddRenderDependencies, RenderUnit_addRenderDependencies,
            Array_push;
          repeat keeps_step;
          first
            [ apply keeps_call; intros; exact Logic.I
            | apply keeps_modify; intros ?; apply keys_unique_frame; reflexivity ] ].
  - apply Hrest. keeps_methods;
      first
        [ apply keeps_ensureDependencies; intros ?; apply keys_unique_frame;
          apply ensured_lookup
        | unfold _tryAddRenderDependencies, RenderUnit_addRenderDependencies,
            Array_push;
          repeat keeps_step;
          first
            [ apply keeps_call; intros; exact Logic.I
            | apply keeps_modify; intros ?; apply keys_unique_frame; reflexivity ] ].
  - apply Hrest. keeps_methods. unfold Array_remove.
    apply keeps_modify; intros ?; apply keys_unique_frame; reflexivity.
  - apply Hrest. keeps_methods;
      first [ apply keeps_call; intros; exact Logic.I
            | apply keeps_modify; intros ?; apply keys_unique_frame; reflexivity ].
  - unfold exec_op. destruct (run_inv _ _ _ _ _ (dispose_run s)) as (_ & -> & _).
    unfold keys_unique. destruct (after_dispose_facts s) as (-> & _). constructor.
  - apply Hrest. keeps_methods.
    apply keeps_modify; intros ?; apply keys_unique_frame; reflexivity.
  - apply Hrest. keeps_methods;
      first [ apply keeps_call; intros; exact Logic.I
            | apply keeps_modify; intros ?; apply keys_unique_frame; reflexivity ].
  - apply Hrest. keeps_methods.
    apply keeps_modify; intros ?; apply keys_unique_frame; reflexivity.
Qed.

Lemma reachable_keys_unique s : reachable s → keys_unique s.
Proof.
  induction 1 as [svc | s o _ IH _]; [constructor | apply keys_unique_step, IH].
Qed.

Lemma reachable_refs s :
  reachable s → Forall (λ kv : string * UnitRef, kv.2 < length (heap_renders s))
                  (_renderMap s).
Proof.
  intros Hr. destruct (reachable_ok s Hr) as [Hok _].
  pose proof (reachable_keys_unique s Hr) as Hnd.
  apply Forall_forall. intros [k r] Hin. simpl.
  apply (Hok k r). apply Map_In_get; assumption.
Qed.

(** X12.  In every state the service reaches, the table has one entry per
    id at most, [getRenderById] and [has] find exactly the entries of the
    table, and every entry refers to an object that exists. *)
Theorem X12_one_unit_per_id (s : State) :
  reachable s →
  NoDup (_renderMap s).*1
  ∧ (∀ id r, (id, r) ∈ _renderMap s ↔ result (getRenderById id) s = Some r)
  ∧ (∀ id, result (has id) s = true ↔ id ∈ (_renderMap s).*1)
  ∧ (∀ id r, result (getRenderById id) s = Some r →
             is_Some (heap_renders s !! r)).
Proof.
  intros Hr. pose proof (reachable_keys_unique s Hr) as Hnd.
  destruct (reachable_ok s Hr) as [Hok _].
  split; [exact Hnd|].
  split.
  { intros id r. split; [apply Map_In_get, Hnd | apply Map_get_In]. }
  split.
  { intros id. unfold result, has, gets, Map_has. simpl.
    destruct (Map_get id (_renderMap s)) as [r|] eqn:Hg.
    - split; [intros _ | reflexivity].
      apply list_elem_of_fmap. exists (id, r).
      split; [reflexivity | apply Map_get_In, Hg].
    - split; [discriminate|]. intros Hin.
      apply Map_get_None_keys in Hg. contradiction. }
  intros id r Hg. apply lookup_lt_is_Some_2. exact (Hok id r Hg).
Qed.

(** ** The units of a type *)

Lemma match_list_grow T (m : list (string * UnitRef)) (h h' : list IRender) :
  Forall (λ kv : string * UnitRef, kv.2 < length h) m →
  match_list T m (h ++ h') = match_list T m h.
Proof.
  unfold match_list. induction 1 as [|[k r] m Hlt _ IH]; [reflexivity|].
  simpl in *. rewrite IH, lookup_app_l by exact Hlt. reflexivity.
Qed.

Lemma match_list_values T (m : list (string * UnitRef)) (h : list IRender) r :
  r ∈ match_list T m h → r ∈ m.*2.
Proof.
  unfold match_list. induction m as [|[k r0] m IH]; simpl; [trivial|].
  intros Hin. apply elem_of_app in Hin as [Hin|Hin]; [|right; apply IH, Hin].
  destruct (h !! r0) as [u|]; [|inversion Hin].
  destruct (bool_decide (renderType u = T)); [|inversion Hin].
  apply list_elem_of_singleton in Hin. subst r. left.
Qed.

Lemma getAllRenderersOfType_result T s :
  result (getAllRenderersOfType T) s = match_list T (_renderMap s) (heap_renders s).
Proof. reflexivity. Qed.

(** X6.  In a state the service reaches, [getAllRenderersOfType(T)] returns
    the units of the table whose type is [T], and only those.  A unit
    [createRender] makes for an id that was not in the table is added at the
    end of the result for its own type and to no other result; a unit that
    was under one id only is in no result once that id is removed. *)
Theorem X6_getAllRenderersOfType (s : State) (T : UnitType) :
  reachable s →
  (∀ r, r ∈ result (getAllRenderersOfType T) s
        ↔ ∃ id u, result (getRenderById id) s = Some r
                  ∧ heap_renders s !! r = Some u ∧ type u = T)
  ∧ (∀ id,
       result (getRenderById id) s = None →
       let r := result (createRender id) s in
       let u := built_unit id (heap_engines s) true
                  (with_heap_engines (S (heap_engines s)) s) in
       heap_renders (final (createRender id) s) !! r = Some u
       ∧ result (getAllRenderersOfType T) (final (createRender id) s)
         = result (getAllRenderersOfType T) s
           ++ (if bool_decide (type u = T) then [r] else []))
  ∧ (∀ id r,
       result (getRenderById id) s = Some r →
       entries_holding r (_renderMap s) = 1 →
       r ∉ result (getAllRenderersOfType T) (final (removeRender id) s)).
Proof.
  intros Hreach. pose proof (reachable_keys_unique s Hreach) as Hnd.
  pose proof (reachable_refs s Hreach) as Hrefs.
  split.
  { intros r. split.
    - rewrite getAllRenderersOfType_result. unfold match_list.
      intros Hin. apply list_elem_of_In, in_flat_map in Hin as ([k r0] & Hk & Hin).
      simpl in Hin. destruct (heap_renders s !! r0) as [u|] eqn:Hu; [|destruct Hin].
      destruct (bool_decide (renderType u = T)) eqn:Ht; [|destruct Hin].
      destruct Hin as [<-|[]]. exists k, u.
      split; [apply Map_In_get; [exact Hnd | apply list_elem_of_In, Hk]|].
      split; [exact Hu | apply bool_decide_eq_true in Ht; exact Ht].
    - intros (id & u & Hg & Hu & Ht).
      exact (matching_units_In T s id r u Hg Hu Ht). }
  split.
  { intros id Hnone r u.
    destruct (createRender_fields id s) as (_ & Hm & Hr & _ & _ & Hh).
    fold r in Hm, Hr. fold u in Hh.
    split; [rewrite Hh, Hr; apply lookup_snoc|].
    rewrite !getAllRenderersOfType_result, Hm, Hh.
    rewrite Map_set_absent by exact Hnone.
    unfold match_list at 1. rewrite flat_map_app.
    fold (match_list T (_renderMap s) (heap_renders s ++ [u])).
    rewrite match_list_grow by exact Hrefs. f_equal.
    simpl. rewrite Hr, lookup_snoc. unfold renderType.
    destruct (bool_decide (type u = T)); reflexivity. }
  intros id r Hg Hc Hin.
  rewrite getAllRenderersOfType_result, removeRender_final in Hin. simpl in Hin.
  apply match_list_values in Hin. revert Hin.
  apply sole_holder_deleted; assumption.
Qed.

(** ** Capabilities of the current unit of a type *)

(** X7.  [withCurrentTypeOfUnit] is [getCurrentTypeOfRenderer] followed by
    the unit's [with]: both change nothing and make no call, and both answer
    absent when the registry has no current document of the type.  Modules
    registered for the type show through it at once: when the current
    document of type [T] has a [RenderUnit] of type [T] in the table, every
    descriptor of a registration for [T] is resolved afterwards. *)
Theorem X7_withCurrentTypeOfUnit (s : State) (T : UnitType)
    (d : DependencyIdentifier) :
  withCurrentTypeOfUnit T d s = (result (withCurrentTypeOfUnit T d) s, s, [])
  ∧ getCurrentTypeOfRenderer T s = (result (getCurrentTypeOfRenderer T) s, s, [])
  ∧ result (withCurrentTypeOfUnit T d) s
    = match result (getCurrentTypeOfRenderer T) s with
      | Some r => match heap_renders s !! r with
                  | Some u => with_ u d
                  | None => None
                  end
      | None => None
      end
  ∧ (getCurrentUnitForType (_univerInstanceService s) T = None →
     result (getCurrentTypeOfRenderer T) s = None
     ∧ result (withCurrentTypeOfUnit T d) s = None)
  ∧ (∀ current, getCurrentUnitForType (_univerInstanceService s) T = Some current →
       result (getCurrentTypeOfRenderer T) s
       = result (getRenderById (model_unitId current)) s)
  ∧ (∀ deps current r u,
       getCurrentUnitForType (_univerInstanceService s) T = Some current →
       result (getRenderById (model_unitId current)) s = Some r →
       heap_renders s !! r = Some u →
       type u = T →
       instanceof_RenderUnit u = true →
       d ∈ deps →
       result (withCurrentTypeOfUnit T d) (final (registerRenderModules T deps) s)
       = Some d).
Proof.
  assert (Hgen : ∀ s0,
            withCurrentTypeOfUnit T d s0
            = (match getCurrentUnitForType (_univerInstanceService s0) T with
               | Some current =>
                   match Map_get (model_unitId current) (_renderMap s0) with
                   | Some r => match heap_renders s0 !! r with
                               | Some u => with_ u d
                               | None => None
                               end
                   | None => None
                   end
               | None => None
               end, s0, [])).
  { intros s0. unfold withCurrentTypeOfUnit, bind, gets, getRenderById, deref, gets, ret.
    destruct (getCurrentUnitForType (_univerInstanceService s0) T) as [c|]; [|reflexivity].
    simpl. destruct (Map_get (model_unitId c) (_renderMap s0)) as [r|]; reflexivity. }
  assert (Hcur : getCurrentTypeOfRenderer T s
                 = (match getCurrentUnitForType (_univerInstanceService s) T with
                    | Some current => Map_get (model_unitId current) (_renderMap s)
                    | None => None
                    end, s, [])).
  { unfold getCurrentTypeOfRenderer, bind, gets, getRenderById, gets, ret.
    destruct (getCurrentUnitForType (_univerInstanceService s) T); reflexivity. }
  unfold result. rewrite Hgen, Hcur. simpl.
  split; [reflexivity|]. split; [reflexivity|].
  split.
  { destruct (getCurrentUnitForType (_univerInstanceService s) T) as [c|]; [|reflexivity].
    reflexivity. }
  split; [intros ->; split; reflexivity|].
  split; [intros current ->; reflexivity|].
  intros deps current r u Hc Hg Hu Ht Hi Hd.
  rewrite registerRenderModules_final, Hgen. simpl.
  destruct (ensured_lookup T s) as (_ & Hm & Hh).
  assert (Hsvc : _univerInstanceService (ensured T s) = _univerInstanceService s).
  { unfold ensured. destruct (Map_has T (_renderDependencies s)); reflexivity. }
  rewrite Hsvc, Hc, Hm, Hg, (inject_loop_lookup _ _ _ _ _ _ Hu).
  assert (Hrec : receives T u = true).
  { unfold receives, renderType. rewrite Hi, andb_true_r.
    apply bool_decide_eq_true, Ht. }
  rewrite Hrec.
  destruct (injected_of_iter deps (entries_holding r (_renderMap s)) u Hi)
    as [Hinj Hinst].
  apply with_injected; [exact Hinst|]. rewrite Hinj.
  pose proof (entries_holding_pos _ _ _ Hg) as Hpos.
  apply elem_of_app. right.
  destruct (entries_holding r (_renderMap s)) as [|n]; [lia|].
  simpl. apply elem_of_app. left. exact Hd.
Qed.

(** ** Registrations compose *)

Lemma registry_ok_after_register T deps s :
  registry_ok s → registry_ok (after_register T deps s).
Proof.
  intros Hok. rewrite <- registerRenderModules_final.
  pose proof (registry_ok_step (ORegisterRenderModules T deps) s Hok) as H0.
  unfold exec_op in H0. rewrite final_bind in H0. exact H0.
Qed.

(** X8.  Registrations for one type accumulate in the order they are made:
    after two of them the list of the type is the old list followed by the
    descriptors of the first and then those of the second, a descriptor
    registered twice being listed twice, and a unit built afterwards for a
    document of the type gets the whole list injected in that order.
    Registrations for different types do not interfere: made in either
    order they give the same lists. *)
Theorem X8_registrations_compose (s : State) (T : UnitType)
    (deps1 deps2 : list Dependency) :
  registry_ok s →
  let s2 := final (registerRenderModules T deps2)
              (final (registerRenderModules T deps1) s) in
  listFor T s2 = listFor T s ++ deps1 ++ deps2
  ∧ (∀ T', T' ≠ T → listFor T' s2 = listFor T' s)
  ∧ (∀ id eng main unit,
       getUnit (_univerInstanceService s2) id = Some unit →
       getUnitType (_univerInstanceService s2) id = T →
       ∃ u, heap_renders (final (_createRender id eng main) s2)
              !! result (_createRender id eng main) s2 = Some u
            ∧ injected_of u = listFor T s ++ deps1 ++ deps2)
  ∧ (∀ T2 T', T2 ≠ T →
       listFor T' (final (registerRenderModules T2 deps2)
                     (final (registerRenderModules T deps1) s))
       = listFor T' (final (registerRenderModules T deps1)
                       (final (registerRenderModules T2 deps2) s))).
Proof.
  intros Hok s2. subst s2. rewrite !registerRenderModules_final.
  pose proof (registry_ok_after_register T deps1 s Hok) as Hok1.
  destruct (listFor_after_register T deps1 s Hok) as [H1 H1'].
  destruct (listFor_after_register T deps2 _ Hok1) as [H2 H2'].
  assert (Hl : listFor T (after_register T deps2 (after_register T deps1 s))
               = listFor T s ++ deps1 ++ deps2).
  { rewrite H2, H1, app_assoc. reflexivity. }
  split; [exact Hl|].
  split; [intros T' Hne; rewrite H2', H1' by exact Hne; reflexivity|].
  split.
  { intros id eng main unit Hunit HT.
    destruct (run_inv _ _ _ _ _
                (_createRender_run id eng main
                   (after_register T deps2 (after_register T deps1 s))))
      as (-> & -> & _).
    eexists. split; [apply lookup_snoc|].
    unfold built_unit. rewrite Hunit, HT, Hl. reflexivity. }
  intros T2 T' Hne. rewrite !registerRenderModules_final.
  pose proof (registry_ok_after_register T2 deps2 s Hok) as Hok2.
  destruct (listFor_after_register T2 deps2 s Hok) as [G1 G1'].
  destruct (listFor_after_register T2 deps2 _ Hok1) as [G2 G2'].
  destruct (listFor_after_register T deps1 _ Hok2) as [G3 G3'].
  destruct (decide (T' = T)) as [->|HT].
  - rewrite G2' by congruence. rewrite G3, H1, G1' by congruence. reflexivity.
  - destruct (decide (T' = T2)) as [->|HT2].
    + rewrite G2, G3' by exact HT. rewrite H1', G1 by exact HT. reflexivity.
    + rewrite G2', G3' by assumption. rewrite H1', G1' by assumption. reflexivity.
Qed.

(** ** A registration undone *)

Lemma remove_app_fresh d (l ds : list Dependency) :
  d ∉ l → remove d (l ++ d :: ds) = l ++ ds.
Proof.
  induction l as [|x l IH]; simpl; intros Hn.
  - rewrite decide_True by reflexivity. reflexivity.
  - apply not_elem_of_cons in Hn as [Hne Hn].
    rewrite decide_False by congruence. f_equal. apply IH, Hn.
Qed.

Lemma remove_each_app_fresh (deps l : list Dependency) :
  (∀ d, d ∈ deps → d ∉ l) → remove_each deps (l ++ deps) = l.
Proof.
  induction deps as [|d ds IH]; intros Hf.
  - unfold remove_each. simpl. apply app_nil_r.
  - change (remove_each (d :: ds) (l ++ d :: ds))
      with (remove_each ds (remove d (l ++ d :: ds))).
    rewrite remove_app_fresh by (apply Hf; left).
    apply IH. intros d0 Hd0. apply Hf. right. exact Hd0.
Qed.

Lemma listFor_after_handle T a deps s :
  bound_to T a s →
  let s' := final (IDisposable_dispose (toDisposable a deps)) s in
  listFor T s' = remove_each deps (listFor T s)
  ∧ (∀ T', T' ≠ T → listFor T' s' = listFor T' s)
  ∧ heap_renders s' = heap_renders s
  ∧ _renderMap s' = _renderMap s.
Proof.
  intros [[Halloc Hinj] Hget] s'.
  destruct (run_inv _ _ _ _ _ (IDisposable_dispose_run (toDisposable a deps) s))
    as (_ & Hs' & _).
  fold s' in Hs'. simpl in Hs'.
  destruct (foldl_alter_remove a deps (heap_arrays s)) as [_ Hlook].
  split.
  { unfold listFor, result, _getRenderControllersForType, gets. simpl.
    rewrite Hs'. simpl. rewrite Hget, Hlook, decide_True by reflexivity.
    destruct (lookup_lt_is_Some_2 _ _ (Halloc _ _ Hget)) as [l Hl].
    rewrite Hl. reflexivity. }
  split.
  { intros T' Hne.
    unfold listFor, result, _getRenderControllersForType, gets. simpl.
    rewrite Hs'. simpl.
    destruct (Map_get T' (_renderDependencies s)) as [a'|] eqn:Ha'; [|reflexivity].
    rewrite Hlook, decide_False; [reflexivity|].
    intros ->. apply Hne. eapply Hinj; eassumption. }
  rewrite Hs'. split; reflexivity.
Qed.

Lemma remove_app_old d (l : list Dependency) :
  d ∈ l → remove d (l ++ [d]) = remove d l ++ [d].
Proof.
  induction l as [|x l IH]; [intros Hd; inversion Hd|]. simpl.
  destruct (decide (x = d)); [reflexivity|]. intros Hd.
  simpl. f_equal. apply IH.
  apply elem_of_cons in Hd as [->|Hd]; [congruence | exact Hd].
Qed.

(** X9.  Registering descriptors none of which is in the list of the type
    yet, and then invoking the handle, gives back the lists as they were;
    the units keep what the registration injected into them.  When the
    descriptor registered is in the list already, the handle takes out its
    first occurrence, the older one, and the list ends up reordered. *)
Theorem X9_register_then_undo (s : State) (T : UnitType) (deps : list Dependency) :
  registry_ok s →
  let h := result (registerRenderModules T deps) s in
  let s1 := final (registerRenderModules T deps) s in
  let s2 := final (IDisposable_dispose h) s1 in
  heap_renders s2 = heap_renders s1
  ∧ _renderMap s2 = _renderMap s
  ∧ (∀ T', T' ≠ T → listFor T' s2 = listFor T' s)
  ∧ ((∀ d, d ∈ deps → d ∉ listFor T s) → listFor T s2 = listFor T s)
  ∧ (∀ d, deps = [d] → d ∈ listFor T s →
          listFor T s2 = remove d (listFor T s) ++ [d]).
Proof.
  intros Hok h s1 s2.
  assert (Hh : h = toDisposable (array_for T s) deps).
  { unfold h, result. rewrite registerRenderModules_run. reflexivity. }
  assert (Hs1 : s1 = after_register T deps s) by apply registerRenderModules_final.
  pose proof (bound_after_register T deps s Hok) as Hb. rewrite <- Hs1 in Hb.
  destruct (listFor_after_handle T (array_for T s) deps s1 Hb) as (H1 & H2 & H3 & H4).
  rewrite <- Hh in H1, H2, H3, H4. fold s2 in H1, H2, H3, H4.
  destruct (listFor_after_register T deps s Hok) as [G1 G2]. rewrite <- Hs1 in G1, G2.
  split; [exact H3|].
  split.
  { rewrite H4, Hs1. apply ensured_lookup. }
  split.
  { intros T' Hne. rewrite H2, G2 by exact Hne. reflexivity. }
  split.
  { intros Hfresh. rewrite H1, G1. apply remove_each_app_fresh, Hfresh. }
  intros d -> Hd. rewrite H1, G1. apply remove_app_old, Hd.
Qed.

(** ** The scene of a new unit *)

Lemma string_app_inj (p a b : string) : p +:+ a = p +:+ b → a = b.
Proof.
  induction p as [|c p IH]; simpl; [trivial|]. intros [= H0]. apply IH, H0.
Qed.

Lemma createRender_disposed_scenes id s :
  disposed_scenes (events (trace (createRender id) s))
  = match Map_get id (_renderMap s) with
    | Some r0 => match heap_renders s !! r0 with
                 | Some u0 => [scene u0]
                 | None => []
                 end
    | None => []
    end.
Proof.
  rewrite events_createRender. unfold trace at 1. rewrite _createRender_run.
  cbn [snd]. rewrite events_trace_createRender.
  destruct (construction_silent _
              (construction_calls_Forall id (heap_engines s)
                 (with_heap_engines (S (heap_engines s)) s))) as (_ & Hc & _).
  unfold disposed_scenes in *. cbn [flat_map app].
  rewrite !flat_map_app, Hc. cbn [flat_map app]. rewrite !app_nil_r.
  unfold old_disposal.
  change (_renderMap (with_heap_engines (S (heap_engines s)) s)) with (_renderMap s).
  change (heap_renders (with_heap_engines (S (heap_engines s)) s))
    with (heap_renders s).
  destruct (Map_get id (_renderMap s)) as [r0|]; [|reflexivity].
  destruct (heap_renders s !! r0) as [u0|]; [|reflexivity].
  apply disposal_protocol_scenes.
Qed.

(** X13.  The unit [createRender] returns has a scene of its own, made in
    the call: a new cell of the scene store, named by the fixed prefix
    followed by the id (so that different ids give different names), of the
    default size 1500 by 1000, and attached to the engine of the unit, which
    is the engine made in the same call.  The name, engine and size recorded
    for the scenes that existed are as they were, but the call does dispose
    one of them when the id had a unit: the scene of that unit, and no
    other; for an id without a unit it disposes no scene. *)
Theorem X13_scene_of_new_unit (s : State) (id : string) :
  let r := result (createRender id) s in
  let s1 := final (createRender id) s in
  ∃ u, heap_renders s1 !! r = Some u
       ∧ scene u = length (heap_scenes s)
       ∧ heap_scenes s1 !! scene u
         = Some {| scene_name := "_UNIVER_SCENE_" +:+ id;
                   scene_engine := engine u;
                   scene_width := 1500; scene_height := 1000 |}
       ∧ engine u = heap_engines s
       ∧ isMainScene u = true
       ∧ (∀ sc, sc < length (heap_scenes s) →
                heap_scenes s1 !! sc = heap_scenes s !! sc)
       ∧ (∀ id', SCENE_NAMESPACE +:+ id = SCENE_NAMESPACE +:+ id' → id = id')
       ∧ disposed_scenes (events (trace (createRender id) s))
         = match Map_get id (_renderMap s) with
           | Some r0 => match heap_renders s !! r0 with
                        | Some u0 => [scene u0]
                        | None => []
                        end
           | None => []
           end.
Proof.
  intros r s1.
  destruct (createRender_fields id s) as (_ & _ & Hr & _ & _ & Hh).
  fold r s1 in Hr, Hh.
  set (u := built_unit id (heap_engines s) true
              (with_heap_engines (S (heap_engines s)) s)) in *.
  destruct (built_unit_complete id (heap_engines s) true
              (with_heap_engines (S (heap_engines s)) s)) as (He & Hs & Hmain & _).
  fold u in He, Hs, Hmain. simpl in Hs.
  assert (Hsc : heap_scenes s1
                = heap_scenes s ++ [scene_built id (heap_engines s)]).
  { unfold s1. destruct (run_inv _ _ _ _ _ (createRender_run id s)) as (_ & -> & _).
    reflexivity. }
  exists u. split; [rewrite Hh, Hr; apply lookup_snoc|].
  split; [exact Hs|].
  split; [rewrite Hsc, Hs, He; apply lookup_snoc|].
  split; [exact He|]. split; [exact Hmain|].
  split; [intros sc Hlt; rewrite Hsc; apply lookup_app_l, Hlt|].
  split; [intros id'; apply string_app_inj|].
  apply createRender_disposed_scenes.
Qed.

(** ** A service that has been torn down still works *)

(** X14.  [dispose] does not make the service refuse work: [createRender]
    on a torn-down service builds a unit and puts it into the table as
    before, only nothing is delivered on the created stream; a further
    [dispose] then runs the disposal protocol of that unit, destroying its
    engine, again with nothing delivered on the disposed stream. *)
Theorem X14_work_after_dispose (s : State) (id : string) :
  let s1 := final dispose s in
  let r := result (createRender id) s1 in
  let s2 := final (createRender id) s1 in
  _renderMap s2 = [(id, r)]
  ∧ result (has id) s2 = true
  ∧ is_Some (heap_renders s2 !! r)
  ∧ emitted S_renderCreated (events (trace (createRender id) s1)) = [PRender r]
  ∧ delivered S_renderCreated (trace (createRender id) s1) = []
  ∧ disposed_engines (events (trace dispose s2)) = [heap_engines s1]
  ∧ emitted S_renderDisposed (events (trace dispose s2)) <> []
  ∧ delivered S_renderDisposed (trace dispose s2) = []
  ∧ _renderMap (final dispose s2) = [].
Proof.
  intros s1 r s2.
  assert (Hs1 : s1 = after_dispose s).
  { unfold s1. destruct (run_inv _ _ _ _ _ (dispose_run s)) as (_ & -> & _).
    reflexivity. }
  destruct (after_dispose_facts s) as (Hm & _ & _ & _ & Hc & Hd).
  rewrite <- Hs1 in Hm, Hc, Hd.
  destruct (createRender_fields id s1) as (_ & Hm2 & Hr & _ & _ & Hh).
  fold r s2 in Hm2, Hr, Hh. rewrite Hm in Hm2. simpl in Hm2.
  set (u := built_unit id (heap_engines s1) true
              (with_heap_engines (S (heap_engines s1)) s1)) in *.
  assert (Hu : heap_renders s2 !! r = Some u).
  { rewrite Hh, Hr. apply lookup_snoc. }
  split; [exact Hm2|].
  split; [unfold result, has, gets, Map_has; simpl; rewrite Hm2; simpl;
          rewrite decide_True by reflexivity; reflexivity|].
  split; [eexists; exact Hu|].
  assert (Hstop2 : isStopped S_renderDisposed s2 = true).
  { pose proof (proj1 (stopped_forever S_renderDisposed (OCreateRender id) s1 Hd))
      as H0.
    unfold exec_op in H0. rewrite final_bind in H0. exact H0. }
  split.
  { rewrite events_createRender.
    unfold trace. rewrite _createRender_run. simpl.
    rewrite events_trace_createRender. unfold old_disposal. simpl.
    rewrite Hm. simpl. rewrite Hr.
    destruct (getUnit (_univerInstanceService s1) id); reflexivity. }
  split.
  { apply delivered_stopped.
    destruct (stopped_forever S_renderCreated (OCreateRender id) s1 Hc) as [_ Ht].
    unfold exec_op in Ht. rewrite trace_bind in Ht.
    apply Forall_app in Ht as [Ht _].
    eapply Forall_impl; [exact Ht|]. intros o [Ho _]. exact Ho. }
  destruct (run_inv _ _ _ _ _ (dispose_run s2)) as (_ & -> & ->).
  rewrite events_app, events_map_snapshot.
  assert (Htd : teardown_calls s2 = disposal_protocol r u true).
  { unfold teardown_calls. rewrite Hm2. simpl. rewrite Hu. apply app_nil_r. }
  rewrite Htd.
  split.
  { pose proof (disposal_protocol_engines r u true) as He.
    unfold disposed_engines in *. rewrite flat_map_app, He.
    unfold u. destruct (built_unit_complete id (heap_engines s1) true
                          (with_heap_engines (S (heap_engines s1)) s1)) as (-> & _).
    reflexivity. }
  split.
  { pose proof (disposal_protocol_emitted r u true) as He.
    unfold emitted in *. rewrite flat_map_app, He. discriminate. }
  split.
  { rewrite delivered_app, delivered_snapshot.
    change (isStopped S_renderDisposed (with_disposed true s2))
      with (isStopped S_renderDisposed s2).
    rewrite Hstop2. reflexivity. }
  apply after_dispose_facts.
Qed.

(** ** The further properties at work on concrete stores *)

Lemma demo_sheet_reachable : reachable demo_sheet.
Proof.
  exact (reachable_step _ (OCreateRender "doc1") (reachable_init demo_service) Logic.I).
Qed.

Lemma demo_sheet_registry_ok : registry_ok demo_sheet.
Proof. split; [intros T a H | intros T1 T2 a H]; discriminate H. Qed.

Lemma X1_witness :
  trace (addRender "doc1" 1) demo_two = []
  ∧ Forall (λ e, e ≠ ERenderDispose 0)
      (events (trace (exec [ORemoveRender "doc1"; ODispose])
                 (final (addRender "doc1" 1) demo_two)))
  ∧ not_held 0 (final (removeRender "doc1") demo_two).
Proof.
  destruct X1_only_held_units_disposed as (Hmain & Hadd & Hrem).
  assert (Hlt : 0 < length (heap_renders demo_two)) by (vm_compute; lia).
  assert (Hne : 1 ≠ 0) by discriminate.
  destruct (Hadd demo_two "doc1" 1 0 eq_refl eq_refl Hlt Hne) as (Ht & _ & Hnh).
  split; [exact Ht|].
  split; [|exact (Hrem demo_two "doc1" 0 eq_refl eq_refl Hlt)].
  apply (Hmain _ 0 [ORemoveRender "doc1"; ODispose] Hnh).
  repeat constructor; discriminate.
Defined.

Lemma X3_witness :
  result getCurrent (final (createRender "doc1") (final (setCurrent "doc1") demo_thumb))
  = Some 1
  ∧ result getCurrent (final (createRender "other") (final (setCurrent "doc1") demo_thumb))
    = None.
Proof.
  destruct (X3_current_tracks_id demo_thumb "doc1") as (_ & _ & _ & _ & Hc & _ & Ho).
  split; [exact Hc|].
  assert (Hne : "other" ≠ "doc1") by discriminate.
  exact (proj1 (Ho "other" Hne)).
Defined.

Lemma X4_witness :
  result getFirst (final (createRender "thumb1") (init demo_service)) = Some 0
  ∧ result getFirst (final (createRender "thumb1") demo_sheet) = Some 0
  ∧ result getFirst (final (createRender "doc1") demo_sheet) = Some 1.
Proof.
  destruct (X4_getFirst_order (init demo_service) "thumb1") as (_ & _ & _ & He & _).
  destruct (X4_getFirst_order demo_sheet "thumb1") as (_ & _ & _ & _ & Hk).
  destruct (X4_getFirst_order demo_sheet "doc1") as (_ & _ & _ & _ & Hk').
  split; [exact (He eq_refl)|].
  split; [exact (Hk "doc1" 0 [] eq_refl) | exact (Hk' "doc1" 0 [] eq_refl)].
Defined.

Lemma X5_witness :
  defaultEngine
    (final (exec [OCreateRender "doc1"; ODispose])
       (final defaultEngine (init demo_service)))
  = (0, final (exec [OCreateRender "doc1"; ODispose])
          (final defaultEngine (init demo_service)), [])
  ∧ (0 ∉ disposed_engines
           (events (trace dispose
              (final (exec [OCreateRender "doc1"; ODispose])
                 (final defaultEngine (init demo_service))))))
  ∧ heap_engines (final defaultEngine (init demo_service)) = 1.
Proof.
  destruct (X5_defaultEngine_stable (init demo_service) [OCreateRender "doc1"; ODispose])
    as (_ & Hsame & Hfirst & Hnot & _).
  split; [exact Hsame|].
  split; [apply Hnot; apply not_elem_of_nil|].
  exact (proj2 (proj2 (Hfirst eq_refl))).
Defined.

Lemma X6_witness :
  result (getAllRenderersOfType UNIVER_SLIDE) (final (createRender "thumb1") demo_sheet)
  = [1]
  ∧ result (getAllRenderersOfType UNIVER_SHEET) (final (createRender "thumb1") demo_sheet)
    = [0]
  ∧ 0 ∉ result (getAllRenderersOfType UNIVER_SHEET) (final (removeRender "doc1") demo_sheet).
Proof.
  destruct (X6_getAllRenderersOfType demo_sheet UNIVER_SLIDE demo_sheet_reachable)
    as (_ & Hslide & _).
  destruct (X6_getAllRenderersOfType demo_sheet UNIVER_SHEET demo_sheet_reachable)
    as (_ & Hsheet & Hrem).
  split; [exact (proj2 (Hslide "thumb1" eq_refl))|].
  split; [exact (proj2 (Hsheet "thumb1" eq_refl))|].
  exact (Hrem "doc1" 0 eq_refl eq_refl).
Defined.

Lemma X7_witness :
  result (withCurrentTypeOfUnit UNIVER_SHEET 7)
    (final (registerRenderModules UNIVER_SHEET [7]) demo_sheet) = Some 7
  ∧ result (withCurrentTypeOfUnit UNIVER_DOC 7) demo_sheet = None.
Proof.
  destruct (X7_withCurrentTypeOfUnit demo_sheet UNIVER_SHEET 7)
    as (_ & _ & _ & _ & _ & Hreg).
  destruct (X7_withCurrentTypeOfUnit demo_sheet UNIVER_DOC 7)
    as (_ & _ & _ & Hnone & _).
  split.
  - apply (Hreg [7] demo_doc 0 demo_sheet_unit); try reflexivity. left.
  - exact (proj2 (Hnone eq_refl)).
Defined.

Lemma X8_witness :
  listFor UNIVER_SHEET
    (final (registerRenderModules UNIVER_SHEET [8; 7])
       (final (registerRenderModules UNIVER_SHEET [7]) demo_sheet))
  = [7; 8; 7]
  ∧ listFor UNIVER_SLIDE
      (final (registerRenderModules UNIVER_SHEET [8; 7])
         (final (registerRenderModules UNIVER_SHEET [7]) demo_sheet))
    = [].
Proof.
  destruct (X8_registrations_compose demo_sheet UNIVER_SHEET [7] [8; 7]
              demo_sheet_registry_ok) as (Hl & Hother & _).
  split; [exact Hl|].
  apply Hother. discriminate.
Defined.

Lemma X9_witness :
  listFor UNIVER_SHEET
    (final (IDisposable_dispose (result (registerRenderModules UNIVER_SHEET [7]) demo_sheet))
       (final (registerRenderModules UNIVER_SHEET [7]) demo_sheet))
  = []
  ∧ listFor UNIVER_SHEET
      (final (IDisposable_dispose
                (result (registerRenderModules UNIVER_SHEET [7])
                   (final (registerRenderModules UNIVER_SHEET [7; 8]) demo_sheet)))
         (final (registerRenderModules UNIVER_SHEET [7])
            (final (registerRenderModules UNIVER_SHEET [7; 8]) demo_sheet)))
    = [8; 7].
Proof.
  destruct (X9_register_then_undo demo_sheet UNIVER_SHEET [7] demo_sheet_registry_ok)
    as (_ & _ & _ & Hfresh & _).
  assert (Hok : registry_ok (final (registerRenderModules UNIVER_SHEET [7; 8]) demo_sheet)).
  { rewrite registerRenderModules_final.
    apply registry_ok_after_register, demo_sheet_registry_ok. }
  destruct (X9_register_then_undo _ UNIVER_SHEET [7] Hok) as (_ & _ & _ & _ & Hold).
  split.
  - apply Hfresh. intros d _. apply not_elem_of_nil.
  - apply (Hold 7 eq_refl). left.
Defined.

Lemma X10_witness :
  ∃ u, heap_renders (final (createRender "thumb1") demo_sheet) !! 1 = Some u
       ∧ engine u = 1
       ∧ disposed_engines
           (events (trace (removeRender "thumb1") (final (createRender "thumb1") demo_sheet)))
         = [1].
Proof.
  destruct X10_engines_not_shared as (Hinit & Hstep & Hnew).
  assert (Hok : engines_ok demo_sheet).
  { exact (Hstep (OCreateRender "doc1") (init demo_service) (Hinit demo_service) Logic.I). }
  destruct (Hnew demo_sheet "thumb1" Hok) as (u & Hu & He & _ & _ & Hd).
  exists u. split; [exact Hu|]. split; [exact He|].
  rewrite He in Hd. exact Hd.
Defined.

Lemma X11_witness :
  _renderMap (final (removeRender "thumb1") (final (createRender "thumb1") demo_sheet))
  = [("doc1", 0)]
  ∧ disposed_engines
      (events (trace (removeRender "thumb1") (final (createRender "thumb1") demo_sheet)))
    = [1].
Proof.
  destruct (X11_create_remove_roundtrip demo_sheet "thumb1" eq_refl)
    as (_ & Hm & _ & _ & He & _).
  split; [exact Hm | exact He].
Defined.

Lemma X12_witness :
  NoDup (_renderMap demo_sheet).*1
  ∧ result (getRenderById "doc1") demo_sheet = Some 0.
Proof.
  destruct (X12_one_unit_per_id demo_sheet demo_sheet_reachable) as (Hnd & Hin & _).
  split; [exact Hnd|]. apply Hin. left.
Defined.

Lemma X13_witness :
  ∃ u, heap_renders (final (createRender "thumb1") demo_sheet) !! 1 = Some u
       ∧ heap_scenes (final (createRender "thumb1") demo_sheet) !! scene u
         = Some {| scene_name := "_UNIVER_SCENE_thumb1"; scene_engine := engine u;
                   scene_width := 1500; scene_height := 1000 |}
       ∧ heap_scenes (final (createRender "thumb1") demo_sheet) !! 0
         = heap_scenes demo_sheet !! 0
       ∧ disposed_scenes (events (trace (createRender "thumb1") demo_sheet)) = [].
Proof.
  destruct (X13_scene_of_new_unit demo_sheet "thumb1")
    as (u & Hu & _ & Hs & _ & _ & Hold & _ & Hd).
  exists u. split; [exact Hu|]. split; [exact Hs|].
  split; [apply Hold; vm_compute; lia | exact Hd].
Defined.

Lemma createRender_again_disposes_old_scene :
  disposed_scenes (events (trace (createRender "doc1") demo_sheet)) = [0]
  ∧ ∃ u, heap_renders (final (createRender "doc1") demo_sheet) !! 1 = Some u
         ∧ scene u = 1.
Proof. vm_compute. split; [reflexivity | eexists; split; reflexivity]. Qed.
